(** * C3 quant monitor: indicator engine and strategy runtime registry

    A shallow embedding of

    - [services/indicatorService.ts]: [calculateEMA], [calculateMACD] (with
      its local helper [calculateEMAFromValues]) and
      [enrichCandlesWithIndicators];
    - [App.tsx]: [INITIAL_POS_STATE], [updateStrategyConfig],
      [processGlobalRealtimeCandle], [sendWebhook] and [handleManualOrder].

    A JavaScript [number] that holds a price, a quantity or an indicator
    value is an IEEE-754 binary64 value: Rocq's primitive [float], with its
    single [nan].  A [number] that only ever counts or indexes (a period, an
    array index, [dailyTradeCount], a millisecond timestamp) is a [nat] or a
    [Z].  The object [Record<string, StrategyRuntime>] is a [gmap string]. *)

From Stdlib Require Import ZArith List Bool Lia Floats Uint63.
From stdpp Require Import base option list gmap strings pretty.

Local Open Scope Z_scope.

(** ** JavaScript numbers *)

Module JS.

Abbreviation number := float.

(** [isNaN(x)] for [x] a number. *)
Definition isNaN (x : number) : bool := PrimFloat.is_nan x.

(** A count seen as a number (exact below 2^53). *)
Definition of_nat (n : nat) : number :=
  PrimFloat.of_uint63 (Uint63.of_Z (Z.of_nat n)).

(** [a[i]] read where a number is expected: an index outside the array
    gives [undefined], which [isNaN] and the arithmetic operators both
    turn into [NaN]. *)
Definition index (a : list number) (i : Z) : number :=
  if i <? 0 then PrimFloat.nan
  else match a !! Z.to_nat i with
       | Some x => x
       | None => PrimFloat.nan
       end.

(** Truthiness of a number: [0], [-0] and [NaN] are falsy. *)
Definition truthy (x : number) : bool :=
  negb (PrimFloat.eqb x 0%float || PrimFloat.is_nan x).

(** [x || d] on numbers. *)
Definition or (x d : number) : number := if truthy x then x else d.

(** [n || d] on a count. *)
Definition or_nat (n d : nat) : nat := if (n =? 0)%nat then d else n.

(** [new Array(n).fill(NaN)] *)
Definition nanArray (n : nat) : list number := replicate n PrimFloat.nan.

(** [isNaN(x) ? undefined : x] *)
Definition nanToUndefined (x : number) : option number :=
  if isNaN x then None else Some x.

End JS.

(** ** Candles *)

Module Candle.
Record t : Type := mk {
  time : Z;
  open : JS.number;
  high : JS.number;
  low : JS.number;
  close : JS.number;
  volume : JS.number;
  isClosed : bool;
  ema7 : option JS.number;
  ema25 : option JS.number;
  ema99 : option JS.number;
  macdLine : option JS.number;
  macdSignal : option JS.number;
  macdHist : option JS.number
}.

(** A candle as the feed delivers it, before enrichment. *)
Definition raw (tm : Z) (o h l c v : JS.number) (closed : bool) : t :=
  mk tm o h l c v closed None None None None None None.

(** A candle of which only the time and the close matter. *)
Definition ofClose (tm : Z) (c : JS.number) : t :=
  raw tm c c c c 0%float true.
End Candle.

(** ** services/indicatorService.ts *)

Module Indicator.

Import PrimFloat.
Local Open Scope float_scope.

(** [candles[i].close]; every read below is inside the array. *)
Definition closeAt (candles : list Candle.t) (i : nat) : JS.number :=
  match candles !! i with
  | Some c => Candle.close c
  | None => nan
  end.

(** The closes of a window, in order. *)
Definition closes (candles : list Candle.t) : list JS.number :=
  map Candle.close candles.

(** [let s = 0; for (...) s += x] over the values [xs]. *)
Definition sumFrom0 (xs : list JS.number) : JS.number :=
  fold_left (fun s x => s + x) xs 0.

(** One turn of the "Calculate rest" loop of [calculateEMA]. *)
Definition emaStep (candles : list Candle.t) (k : JS.number)
    (emaArray : list JS.number) (i : nat) : list JS.number :=
  let price := closeAt candles i in
  let prevEMA := JS.index emaArray (Z.of_nat i - 1) in
  if JS.isNaN prevEMA then emaArray ++ [price]
  else
    let currentEMA := (price * k) + (prevEMA * (1 - k)) in
    emaArray ++ [currentEMA].

(** What that turn pushes, given [prevEMA]. *)
Definition emaNext (candles : list Candle.t) (k prevEMA : JS.number)
    (i : nat) : JS.number :=
  let price := closeAt candles i in
  if JS.isNaN prevEMA then price
  else (price * k) + (prevEMA * (1 - k)).

Definition calculateEMA (candles : list Candle.t) (period : nat)
    : list JS.number :=
  let k := 2 / (JS.of_nat period + 1) in
  if (length candles <? period)%nat then JS.nanArray (length candles)
  else
    let initialSum :=
      fold_left (fun s i => s + closeAt candles i) (seq 0 period) 0 in
    let initialEMA := initialSum / JS.of_nat period in
    let emaArray := replicate (period - 1) nan in
    let emaArray := emaArray ++ [initialEMA] in
    fold_left (emaStep candles k)
      (seq period (length candles - period)) emaArray.

(** The first index whose value is not [NaN]; [None] stands for [-1]. *)
Fixpoint firstValidFrom (values : list JS.number) (i : nat) : option nat :=
  match values with
  | [] => None
  | v :: rest =>
      if negb (JS.isNaN v) then Some i else firstValidFrom rest (S i)
  end.

(** One turn of the last loop of [calculateEMAFromValues]. *)
Definition signalStep (values : list JS.number) (k : JS.number)
    (result : list JS.number) (i : nat) : list JS.number :=
  let val := JS.index values (Z.of_nat i) in
  let prev := JS.index result (Z.of_nat i - 1) in
  if JS.isNaN val then result ++ [nan]
  else result ++ [(val * k) + (prev * (1 - k))].

(** What that turn pushes, given [prev]. *)
Definition signalNext (values : list JS.number) (k prev : JS.number)
    (i : nat) : JS.number :=
  let val := JS.index values (Z.of_nat i) in
  if JS.isNaN val then nan else (val * k) + (prev * (1 - k)).

Definition calculateEMAFromValues (values : list JS.number) (period : nat)
    : list JS.number :=
  let k := 2 / (JS.of_nat period + 1) in
  match firstValidFrom values 0 with
  | None => JS.nanArray (length values)
  | Some firstValidIdx =>
      if (length values - firstValidIdx <? period)%nat
      then JS.nanArray (length values)
      else
        let result := replicate firstValidIdx nan in
        let sum :=
          fold_left
            (fun s i => s + JS.index values (Z.of_nat (firstValidIdx + i)))
            (seq 0 period) 0 in
        let initial := sum / JS.of_nat period in
        let result := result ++ replicate (period - 1) nan in
        let result := result ++ [initial] in
        let result :=
          fold_left (signalStep values k)
            (seq (firstValidIdx + period)
                 (length values - (firstValidIdx + period)))
            result in
        (* while (result.length < values.length) result.unshift(NaN) *)
        let result :=
          replicate (length values - length result) nan ++ result in
        (* result.slice(result.length - values.length) *)
        drop (length result - length values) result
  end.

(** Index [fv] holds the first value of [values] that is not [NaN]. *)
Definition firstDefined (values : list JS.number) (fv : nat) : Prop :=
  (fv < length values)%nat /\
  JS.isNaN (default nan (values !! fv)) = false /\
  forall j, (j < fv)%nat -> JS.isNaN (default nan (values !! j)) = true.

Record MACD : Type := mkMACD {
  macdLine : list JS.number;
  macdSignalLine : list JS.number;
  macdHist : list JS.number
}.

Definition calculateMACD (candles : list Candle.t) (fast slow signal : nat)
    : MACD :=
  let emaFast := calculateEMA candles fast in
  let emaSlow := calculateEMA candles slow in
  let macdLine :=
    map (fun i : nat =>
           if JS.isNaN (JS.index emaFast (Z.of_nat i))
              || JS.isNaN (JS.index emaSlow (Z.of_nat i))
           then nan
           else JS.index emaFast (Z.of_nat i)
                - JS.index emaSlow (Z.of_nat i))
        (seq 0 (length candles)) in
  let macdSignalLine := calculateEMAFromValues macdLine signal in
  let macdHist :=
    imap (fun (i : nat) m => m - JS.index macdSignalLine (Z.of_nat i))
         macdLine in
  mkMACD macdLine macdSignalLine macdHist.

(** The optional third argument of [enrichCandlesWithIndicators]. *)
Record Config : Type := mkConfig {
  macdFast : nat;
  macdSlow : nat;
  macdSignal : nat
}.

Definition enrichCandlesWithIndicators (candles : list Candle.t)
    (config : option Config) : list Candle.t :=
  if (length candles =? 0)%nat then []
  else
    let ema7 := calculateEMA candles 7 in
    let ema25 := calculateEMA candles 25 in
    let ema99 := calculateEMA candles 99 in
    let f := JS.or_nat (from_option macdFast 0%nat config) 50 in
    let s := JS.or_nat (from_option macdSlow 0%nat config) 150 in
    let sig := JS.or_nat (from_option macdSignal 0%nat config) 9 in
    let r := calculateMACD candles f s sig in
    imap (fun (i : nat) c =>
            Candle.mk (Candle.time c) (Candle.open c) (Candle.high c)
              (Candle.low c) (Candle.close c) (Candle.volume c)
              (Candle.isClosed c)
              (JS.nanToUndefined (JS.index ema7 (Z.of_nat i)))
              (JS.nanToUndefined (JS.index ema25 (Z.of_nat i)))
              (JS.nanToUndefined (JS.index ema99 (Z.of_nat i)))
              (JS.nanToUndefined (JS.index (macdLine r) (Z.of_nat i)))
              (JS.nanToUndefined (JS.index (macdSignalLine r) (Z.of_nat i)))
              (JS.nanToUndefined (JS.index (macdHist r) (Z.of_nat i))))
         candles.

End Indicator.

(** ** types.ts, as far as App.tsx uses it *)

Inductive Direction : Type := FLAT | LONG | SHORT.

#[global] Instance Direction_eq_dec : EqDecision Direction.
Proof. solve_decision. Defined.

Module PositionState.
Record t : Type := mk {
  direction : Direction;
  initialQuantity : JS.number;
  remainingQuantity : JS.number;
  entryPrice : JS.number;
  highestPrice : JS.number;
  lowestPrice : JS.number;
  openTime : Z;
  tpLevelsHit : list string;
  slLevelsHit : list string
}.
End PositionState.

Module TradeStats.
Record t : Type := mk {
  dailyTradeCount : Z;
  lastTradeDate : string
}.
End TradeStats.

Module StrategyConfig.
(** The fields App.tsx reads.  [symbol] and [interval] are strings at run
    time ([symbol.toLowerCase()], template literals). *)
Record t : Type := mk {
  id : string;
  name : string;
  symbol : string;
  interval : string;
  macdFast : nat;
  macdSlow : nat;
  macdSignal : nat;
  tradeAmount : JS.number;
  maxDailyTrades : Z;
  webhookUrl : string;
  secret : string
}.

(** [Partial<StrategyConfig>]: [None] is an absent key. *)
Record partial : Type := mkPartial {
  id' : option string;
  name' : option string;
  symbol' : option string;
  interval' : option string;
  macdFast' : option nat;
  macdSlow' : option nat;
  macdSignal' : option nat;
  tradeAmount' : option JS.number;
  maxDailyTrades' : option Z;
  webhookUrl' : option string;
  secret' : option string
}.

Definition noUpdates : partial :=
  mkPartial None None None None None None None None None None None.

(** [{ ...config, ...updates }] *)
Definition merge (config : t) (updates : partial) : t :=
  mk (default (id config) (id' updates))
     (default (name config) (name' updates))
     (default (symbol config) (symbol' updates))
     (default (interval config) (interval' updates))
     (default (macdFast config) (macdFast' updates))
     (default (macdSlow config) (macdSlow' updates))
     (default (macdSignal config) (macdSignal' updates))
     (default (tradeAmount config) (tradeAmount' updates))
     (default (maxDailyTrades config) (maxDailyTrades' updates))
     (default (webhookUrl config) (webhookUrl' updates))
     (default (secret config) (secret' updates)).
End StrategyConfig.

Module StrategyRuntime.
Record t : Type := mk {
  config : StrategyConfig.t;
  candles : list Candle.t;
  positionState : PositionState.t;
  tradeStats : TradeStats.t;
  lastPrice : JS.number
}.
End StrategyRuntime.

Module WebhookPayload.
Record t : Type := mk {
  secret : string;
  action : string;
  position : string;
  symbol : string;
  trade_amount : JS.number;
  leverage : Z;
  timestamp : string;
  tv_exchange : string;
  strategy_name : string;
  tp_level : string;
  execution_price : JS.number;
  execution_quantity : JS.number
}.
End WebhookPayload.

Module AlertLog.
Record t : Type := mk {
  id : string;
  strategyId : string;
  strategyName : string;
  timestamp : Z;
  payload : WebhookPayload.t;
  status : string;
  type : string
}.
End AlertLog.

(** What [evaluateStrategy] (services/strategyEngine.ts) returns. *)
Module EvalResult.
Record t : Type := mk {
  actions : list WebhookPayload.t;
  newPositionState : PositionState.t;
  newTradeStats : TradeStats.t
}.
End EvalResult.

(** ** App.tsx *)

Module App.

Import PrimFloat.

Definition INITIAL_POS_STATE : PositionState.t :=
  PositionState.mk FLAT 0%float 0%float 0%float 0%float 0%float 0 [] [].

(** [new Date().toISOString().split('T')[0]] *)
Definition isoDate (iso : string) : string := String.substring 0 10 iso.

Definition INITIAL_STATS (nowISO : string) : TradeStats.t :=
  TradeStats.mk 0 (isoDate nowISO).

(** Truthiness of a string: only the empty string is falsy. *)
Definition truthyString (s : string) : bool :=
  negb (String.eqb s EmptyString).

(** [s.toLowerCase()] on the ASCII letters. *)
Definition lowerAscii (a : Ascii.ascii) : Ascii.ascii :=
  let n := Ascii.nat_of_ascii a in
  if ((65 <=? n) && (n <=? 90))%nat then Ascii.ascii_of_nat (n + 32) else a.

Fixpoint toLowerCase (s : string) : string :=
  match s with
  | EmptyString => EmptyString
  | String a rest => String (lowerAscii a) (toLowerCase rest)
  end.

(** The state the component closes over, and what it has done to the
    outside: the requests handed to [fetch] and the lines written with
    [console.error], newest first. *)
Record World : Type := mkWorld {
  latestStrategiesRef : gmap string StrategyRuntime.t;
  strategies : gmap string StrategyRuntime.t;
  activeStrategyId : string;
  logs : list AlertLog.t;
  fetched : list (string * WebhookPayload.t);
  consoleErrors : list string
}.

(** What one call of [sendWebhook] draws from its surroundings:
    [Math.random()], [Date.now()], and whether [fetch] rejects. *)
Record SendEnv : Type := mkSendEnv {
  randomId : string;
  dateNow : Z;
  fetchThrows : bool
}.

(** [const now = new Date()] in [handleManualOrder]. *)
Record Clock : Type := mkClock {
  getTime : Z;
  toISOString : string
}.

Definition updateStrategyConfig (id : string)
    (updates : StrategyConfig.partial) (w : World) : World :=
  match latestStrategiesRef w !! id with
  | None => w
  | Some oldRuntime =>
      let oldConfig := StrategyRuntime.config oldRuntime in
      let newConfig := StrategyConfig.merge oldConfig updates in
      let shouldResetData := false in
      let shouldResetData :=
        match StrategyConfig.symbol' updates with
        | Some s =>
            if truthyString s
               && negb (String.eqb s (StrategyConfig.symbol oldConfig))
            then true else shouldResetData
        | None => shouldResetData
        end in
      let shouldResetData :=
        match StrategyConfig.interval' updates with
        | Some i =>
            if truthyString i
               && negb (String.eqb i (StrategyConfig.interval oldConfig))
            then true else shouldResetData
        | None => shouldResetData
        end in
      let newRuntime :=
        StrategyRuntime.mk newConfig
          (if shouldResetData then []
           else StrategyRuntime.candles oldRuntime)
          (StrategyRuntime.positionState oldRuntime)
          (StrategyRuntime.tradeStats oldRuntime)
          (if shouldResetData then 0%float
           else StrategyRuntime.lastPrice oldRuntime) in
      let ref := <[id := newRuntime]> (latestStrategiesRef w) in
      mkWorld ref ref (activeStrategyId w) (logs w) (fetched w)
        (consoleErrors w)
  end.

Definition sendWebhook (env : SendEnv) (payload : WebhookPayload.t)
    (strategyId strategyName : string) (w : World) : World :=
  let newLog :=
    AlertLog.mk (randomId env) strategyId strategyName (dateNow env)
      payload "sent"
      (if String.eqb (WebhookPayload.tp_level payload) "Manual"
       then "Manual" else "Strategy") in
  let w :=
    mkWorld (latestStrategiesRef w) (strategies w) (activeStrategyId w)
      (newLog :: logs w) (fetched w) (consoleErrors w) in
  (* latestStrategiesRef.current[strategyId]?.config.webhookUrl *)
  let url :=
    StrategyConfig.webhookUrl ∘ StrategyRuntime.config
      <$> latestStrategiesRef w !! strategyId in
  match url with
  | Some url =>
      if truthyString url then
        let w :=
          mkWorld (latestStrategiesRef w) (strategies w)
            (activeStrategyId w) (logs w) ((url, payload) :: fetched w)
            (consoleErrors w) in
        if fetchThrows env then
          mkWorld (latestStrategiesRef w) (strategies w)
            (activeStrategyId w) (logs w) (fetched w)
            ("Webhook Error" :: consoleErrors w)
        else w
      else w
  | None => w
  end.

(** [const price = activeStrategy.lastPrice || 0] *)
Definition manualPrice (activeStrategy : StrategyRuntime.t) : JS.number :=
  JS.or (StrategyRuntime.lastPrice activeStrategy) 0%float.

(** The locals [act], [pos], [quantity] and [tradeAmount] after the three
    [if (type === ...)] blocks. *)
Definition manualTerms (type : Direction)
    (activeStrategy : StrategyRuntime.t)
    : string * string * JS.number * JS.number :=
  let config := StrategyRuntime.config activeStrategy in
  let positionState := StrategyRuntime.positionState activeStrategy in
  let price := manualPrice activeStrategy in
  match type with
  | LONG =>
      let tradeAmount := StrategyConfig.tradeAmount config in
      let quantity :=
        if (0 <? price)%float then (tradeAmount / price)%float
        else 0%float in
      ("buy", "long", quantity, tradeAmount)
  | SHORT =>
      let tradeAmount := StrategyConfig.tradeAmount config in
      let quantity :=
        if (0 <? price)%float then (tradeAmount / price)%float
        else 0%float in
      ("sell", "short", quantity, tradeAmount)
  | FLAT =>
      let act :=
        match PositionState.direction positionState with
        | LONG => "sell"
        | _ => "buy_to_cover"
        end in
      let quantity := PositionState.remainingQuantity positionState in
      let tradeAmount := (quantity * price)%float in
      (act, "flat", quantity, tradeAmount)
  end.

(** [const payload: WebhookPayload = { ... }] *)
Definition manualPayload (now : Clock) (type : Direction)
    (activeStrategy : StrategyRuntime.t) : WebhookPayload.t :=
  let config := StrategyRuntime.config activeStrategy in
  let price := manualPrice activeStrategy in
  let '(act, pos, quantity, tradeAmount) :=
    manualTerms type activeStrategy in
  WebhookPayload.mk (StrategyConfig.secret config) act pos
    (StrategyConfig.symbol config) tradeAmount 5 (toISOString now)
    "BINANCE" "Manual_Override" "手动操作" price quantity.

(** "Manually update state": [newState] and [newStats]. *)
Definition manualNewState (now : Clock) (type : Direction)
    (activeStrategy : StrategyRuntime.t)
    : PositionState.t * TradeStats.t :=
  let price := manualPrice activeStrategy in
  let '(_, _, quantity, _) := manualTerms type activeStrategy in
  let newStats := StrategyRuntime.tradeStats activeStrategy in
  match type with
  | FLAT => (INITIAL_POS_STATE, newStats)
  | _ =>
      (PositionState.mk type quantity quantity price
         (if decide (type = LONG) then price else 0%float)
         (if decide (type = SHORT) then price else 0%float)
         (getTime now) [] [],
       TradeStats.mk (TradeStats.dailyTradeCount newStats + 1)
         (TradeStats.lastTradeDate newStats))
  end.

Definition handleManualOrder (now : Clock) (env : SendEnv)
    (type : Direction) (w : World) : World :=
  match latestStrategiesRef w !! activeStrategyId w with
  | None => w
  | Some activeStrategy =>
      let payload := manualPayload now type activeStrategy in
      let '(newState, newStats) :=
        manualNewState now type activeStrategy in
      let newRuntime :=
        StrategyRuntime.mk (StrategyRuntime.config activeStrategy)
          (StrategyRuntime.candles activeStrategy) newState newStats
          (StrategyRuntime.lastPrice activeStrategy) in
      let ref :=
        <[activeStrategyId w := newRuntime]> (latestStrategiesRef w) in
      let w :=
        mkWorld ref ref (activeStrategyId w) (logs w) (fetched w)
          (consoleErrors w) in
      sendWebhook env payload (activeStrategyId w)
        (StrategyConfig.name (StrategyRuntime.config activeStrategy)) w
  end.

(** *** The core processing loop

    [evaluateStrategy] lives in services/strategyEngine.ts; the loop is
    stated over any such function.  [sendEnv n] is what the call of
    [sendWebhook] that writes log number [n] draws from its
    surroundings. *)
Section ProcessingLoop.

Variable evaluateStrategy :
  list Candle.t -> StrategyConfig.t -> PositionState.t -> TradeStats.t ->
  EvalResult.t.
Variable sendEnv : nat -> SendEnv.

(** [`${symbol.toLowerCase()}@kline_${interval}`] *)
Definition targetStream (config : StrategyConfig.t) : string :=
  toLowerCase (StrategyConfig.symbol config)
    +:+ "@kline_" +:+ StrategyConfig.interval config.

(** Step 2, "Update Candles". *)
Definition updateCandles (candles : list Candle.t)
    (newCandle : Candle.t) : list Candle.t :=
  let updatedCandles := candles in
  let lastCandle := updatedCandles !! (length updatedCandles - 1)%nat in
  let updatedCandles :=
    match lastCandle with
    | Some lastCandle =>
        if Candle.time lastCandle =? Candle.time newCandle
        then <[(length updatedCandles - 1)%nat := newCandle]>
               updatedCandles
        else updatedCandles ++ [newCandle]
    | None => updatedCandles ++ [newCandle]
    end in
  if (550 <? length updatedCandles)%nat
  then drop (length updatedCandles - 550) updatedCandles
  else updatedCandles.

(** Steps 2, 3 and 5 for one runtime on the stream: the new runtime
    object and the actions of the engine. *)
Definition processRuntime (newCandle : Candle.t)
    (rt : StrategyRuntime.t)
    : StrategyRuntime.t * list WebhookPayload.t :=
  let config := StrategyRuntime.config rt in
  let updatedCandles :=
    updateCandles (StrategyRuntime.candles rt) newCandle in
  let enriched :=
    Indicator.enrichCandlesWithIndicators updatedCandles
      (Some (Indicator.mkConfig (StrategyConfig.macdFast config)
               (StrategyConfig.macdSlow config)
               (StrategyConfig.macdSignal config))) in
  let result :=
    evaluateStrategy enriched config (StrategyRuntime.positionState rt)
      (StrategyRuntime.tradeStats rt) in
  (StrategyRuntime.mk config enriched
     (EvalResult.newPositionState result)
     (EvalResult.newTradeStats result) (Candle.close newCandle),
   EvalResult.actions result).

(** The body of the [forEach]; [updates] and [hasUpdates] are the two
    locals of the callback's closure. *)
Definition processOne (streamName : string) (newCandle : Candle.t)
    (acc : World * gmap string StrategyRuntime.t * bool)
    (rt : StrategyRuntime.t)
    : World * gmap string StrategyRuntime.t * bool :=
  let '(w, updates, hasUpdates) := acc in
  let config := StrategyRuntime.config rt in
  if String.eqb (targetStream config) streamName then
    let '(newRuntime, actions) := processRuntime newCandle rt in
    let w :=
      fold_left
        (fun w a =>
           sendWebhook (sendEnv (length (logs w))) a
             (StrategyConfig.id config) (StrategyConfig.name config) w)
        actions w in
    let updates := <[StrategyConfig.id config := newRuntime]> updates in
    let w :=
      mkWorld
        (<[StrategyConfig.id config := newRuntime]>
           (latestStrategiesRef w))
        (strategies w) (activeStrategyId w) (logs w) (fetched w)
        (consoleErrors w) in
    (w, updates, true)
  else acc.

(** The runtimes are visited in the order of the map's listing (the
    object's key order in the source); each is advanced on its own. *)
Definition processGlobalRealtimeCandle (streamName : string)
    (newCandle : Candle.t) (w : World) : World :=
  let currentRuntimes := latestStrategiesRef w in
  let '(w, updates, hasUpdates) :=
    fold_left (processOne streamName newCandle)
      (map snd (map_to_list currentRuntimes)) (w, ∅, false) in
  if hasUpdates then
    mkWorld (latestStrategiesRef w) (updates ∪ strategies w)
      (activeStrategyId w) (logs w) (fetched w) (consoleErrors w)
  else w.

End ProcessingLoop.

(** The payloads of the log lines [w'] has on top of those of [w],
    oldest first: the actions emitted between the two. *)
Definition emitted (w w' : World) : list WebhookPayload.t :=
  rev (map AlertLog.payload
         (take (length (logs w') - length (logs w)) (logs w'))).

(** A window is strictly increasing by [time]. *)
Fixpoint increasing (times : list Z) : bool :=
  match times with
  | [] => true
  | t :: rest =>
      match rest with
      | [] => true
      | t' :: _ => (t <? t') && increasing rest
      end
  end.

Definition strictlyIncreasing (candles : list Candle.t) : bool :=
  increasing (map Candle.time candles).

End App.

(** ** App.tsx: the rest of the registry *)

Module Registry.

Import PrimFloat.

(** *** Adding and removing strategies

    [DEFAULT_CONFIG] is declared in constants.ts; [INITIAL_STATS] is built
    once, when the module is loaded.  [newId] is what [Math.random()] gives.
    [objectKeys] is [Object.keys]: the keys of the object in the order it
    lists them. *)
Section AddRemove.

Variable DEFAULT_CONFIG : StrategyConfig.t.
Variable INITIAL_STATS : TradeStats.t.
Variable objectKeys : gmap string StrategyRuntime.t -> list string.

Definition addStrategy (newId : string) (w : App.World) : App.World :=
  let newConfig :=
    StrategyConfig.mk newId
      ("策略 #" +:+ pretty (size (App.latestStrategiesRef w) + 1)%nat)
      (StrategyConfig.symbol DEFAULT_CONFIG)
      (StrategyConfig.interval DEFAULT_CONFIG)
      (StrategyConfig.macdFast DEFAULT_CONFIG)
      (StrategyConfig.macdSlow DEFAULT_CONFIG)
      (StrategyConfig.macdSignal DEFAULT_CONFIG)
      (StrategyConfig.tradeAmount DEFAULT_CONFIG)
      (StrategyConfig.maxDailyTrades DEFAULT_CONFIG)
      (StrategyConfig.webhookUrl DEFAULT_CONFIG)
      (StrategyConfig.secret DEFAULT_CONFIG) in
  let newRuntime :=
    StrategyRuntime.mk newConfig [] App.INITIAL_POS_STATE INITIAL_STATS
      0%float in
  let ref := <[newId := newRuntime]> (App.latestStrategiesRef w) in
  App.mkWorld ref ref newId (App.logs w) (App.fetched w)
    (App.consoleErrors w).

Definition removeStrategy (id : string) (w : App.World) : App.World :=
  let newStrategies := delete id (App.latestStrategiesRef w) in
  let remainingIds := objectKeys newStrategies in
  let active :=
    match remainingIds with
    | first :: _ =>
        if String.eqb (App.activeStrategyId w) id then first
        else App.activeStrategyId w
    | [] => App.activeStrategyId w
    end in
  App.mkWorld newStrategies newStrategies active (App.logs w)
    (App.fetched w) (App.consoleErrors w).

End AddRemove.

(** The keys as the map lists them. *)
Definition listedKeys (m : gmap string StrategyRuntime.t) : list string :=
  (map_to_list m).*1.

(** *** Data loading (historical)

    The effect runs over the runtimes [rt] of the [strategies] state.
    [needsHistory] is its test; [historyLoaded] is what runs once
    [fetchHistoricalCandles] has resolved to [data], on the registry of
    that later moment. *)
Definition needsHistory (rt : StrategyRuntime.t) : bool :=
  (length (StrategyRuntime.candles rt) =? 0)%nat
  && App.truthyString (StrategyConfig.symbol (StrategyRuntime.config rt)).

Definition historyLoaded (rt : StrategyRuntime.t) (data : list Candle.t)
    (w : App.World) : App.World :=
  let config := StrategyRuntime.config rt in
  let enriched :=
    Indicator.enrichCandlesWithIndicators data
      (Some (Indicator.mkConfig (StrategyConfig.macdFast config)
               (StrategyConfig.macdSlow config)
               (StrategyConfig.macdSignal config))) in
  match App.latestStrategiesRef w !! StrategyConfig.id config with
  | Some current =>
      let lastPrice :=
        if (0 <? length enriched)%nat
        then match enriched !! (length enriched - 1)%nat with
             | Some c => Candle.close c
             | None => nan
             end
        else 0%float in
      let ref :=
        <[StrategyConfig.id config :=
            StrategyRuntime.mk (StrategyRuntime.config current) enriched
              (StrategyRuntime.positionState current)
              (StrategyRuntime.tradeStats current) lastPrice]>
          (App.latestStrategiesRef w) in
      App.mkWorld ref ref (App.activeStrategyId w) (App.logs w)
        (App.fetched w) (App.consoleErrors w)
  | None => w
  end.

Definition loadHistory (rt : StrategyRuntime.t) (data : list Candle.t)
    (w : App.World) : App.World :=
  if needsHistory rt then historyLoaded rt data w else w.

(** *** The stream names of the WebSocket connection *)

(** [a.indexOf(v)], [-1] when [v] is not in [a]. *)
Fixpoint indexOfFrom (v : string) (a : list string) (i : nat) : Z :=
  match a with
  | [] => -1
  | x :: rest =>
      if String.eqb x v then Z.of_nat i else indexOfFrom v rest (S i)
  end.

Definition indexOf (v : string) (a : list string) : Z := indexOfFrom v a 0.

(** [a.filter((v, i, a) => a.indexOf(v) === i)] *)
Definition firstOccurrences (a : list string) : list string :=
  (filter (fun iv : nat * string => indexOf iv.2 a = Z.of_nat iv.1)
     (imap (fun i v => (i, v)) a)).*2.

Definition streams (w : App.World) : list string :=
  firstOccurrences
    (map (fun s : StrategyRuntime.t =>
            App.targetStream (StrategyRuntime.config s))
       (map snd (map_to_list (App.strategies w)))).

(** *** Vocabulary for the registry *)

(** Every runtime is registered under the id of its config. *)
Definition keyed (m : gmap string StrategyRuntime.t) : Prop :=
  map_Forall
    (fun k r => StrategyConfig.id (StrategyRuntime.config r) = k) m.

(** The [strategies] state shows what the ref holds. *)
Definition synced (w : App.World) : Prop :=
  App.strategies w = App.latestStrategiesRef w.

(** [strategies[activeStrategyId] || Object.values(strategies)[0]], the
    runtime the component renders; [None] is [undefined].  [objectValues]
    is [Object.values]. *)
Definition activeStrategy
    (objectValues : gmap string StrategyRuntime.t -> list StrategyRuntime.t)
    (w : App.World) : option StrategyRuntime.t :=
  match App.strategies w !! App.activeStrategyId w with
  | Some rt => Some rt
  | None => objectValues (App.strategies w) !! 0%nat
  end.

(** [logs.filter(l => l.strategyId === activeStrategyId)] *)
Definition activeStrategyLogs (w : App.World) : list AlertLog.t :=
  filter (fun l : AlertLog.t => AlertLog.strategyId l = App.activeStrategyId w)
    (App.logs w).

End Registry.

(** ** services/binanceService.ts *)

Module Binance.

(** One row of the klines response: [d[0]] and the strings [d[1]] to
    [d[5]]. *)
Record Row : Type := mkRow {
  d0 : Z;
  d1 : string;
  d2 : string;
  d3 : string;
  d4 : string;
  d5 : string
}.

(** What [fetch] and [response.json()] came to. *)
Inductive Response : Type :=
| Threw
| NotAnArray
| Rows (data : list Row).

(** The [k] of a kline stream message, and the message. *)
Record Kline : Type := mkKline {
  k_t : Z;
  k_o : string;
  k_h : string;
  k_l : string;
  k_c : string;
  k_v : string;
  k_x : bool
}.

Record SocketMessage : Type := mkSocketMessage {
  msg_e : string;
  msg_k : Kline
}.

(** The frame [ws.onmessage] parses: [msg.stream] and [msg.data]. *)
Record Frame : Type := mkFrame {
  stream : string;
  data : option SocketMessage
}.

Section Parse.

(** [parseFloat] on the strings of the feed. *)
Variable parseFloat : string -> JS.number.

Definition fetchHistoricalCandles (response : Response) : list Candle.t :=
  match response with
  | Rows data =>
      map (fun d =>
             Candle.raw (d0 d) (parseFloat (d1 d)) (parseFloat (d2 d))
               (parseFloat (d3 d)) (parseFloat (d4 d)) (parseFloat (d5 d))
               true)
          data
  | NotAnArray => []
  | Threw => []
  end.

Definition parseSocketMessage (msg : SocketMessage) : option Candle.t :=
  if negb (String.eqb (msg_e msg) "kline") then None
  else
    let k := msg_k msg in
    Some (Candle.raw (k_t k) (parseFloat (k_o k)) (parseFloat (k_h k))
            (parseFloat (k_l k)) (parseFloat (k_c k)) (parseFloat (k_v k))
            (k_x k)).

(** [ws.onmessage] of App.tsx. *)
Definition onmessage
    (evaluateStrategy :
       list Candle.t -> StrategyConfig.t -> PositionState.t ->
       TradeStats.t -> EvalResult.t)
    (sendEnv : nat -> App.SendEnv) (frame : Frame) (w : App.World)
    : App.World :=
  match data frame with
  | Some msg =>
      match parseSocketMessage msg with
      | Some kline =>
          App.processGlobalRealtimeCandle evaluateStrategy sendEnv
            (stream frame) kline w
      | None => w
      end
  | None => w
  end.

End Parse.

End Binance.

(** ** The candle of the feed inside an enriched candle *)

Module Raw.

(** [c] without its indicator fields. *)
Definition part (c : Candle.t) : Candle.t :=
  Candle.raw (Candle.time c) (Candle.open c) (Candle.high c) (Candle.low c)
    (Candle.close c) (Candle.volume c) (Candle.isClosed c).

End Raw.

(** ** components/LogPanel.tsx *)

Module LogPanel.

Definition getActionText (action position : string) : string :=
  if String.eqb action "buy" && String.eqb position "long"
  then "开多 (Open Long)"
  else if String.eqb action "sell" && String.eqb position "short"
  then "开空 (Open Short)"
  else if String.eqb action "sell" && String.eqb position "flat"
  then "平多 (Close Long)"
  else if String.eqb action "buy_to_cover" && String.eqb position "flat"
  then "平空 (Close Short)"
  else if String.eqb action "buy_to_cover" then "平空 (Close Short)"
  else if String.eqb action "sell" then "卖出 (Sell)"
  else action +:+ " " +:+ position.

(** The action column of the table, top row first:
    [logs.slice().reverse().map(...)]. *)
Definition actionColumn (logs : list AlertLog.t) : list string :=
  map (fun log =>
         getActionText (WebhookPayload.action (AlertLog.payload log))
           (WebhookPayload.position (AlertLog.payload log)))
      (rev logs).

End LogPanel.

(** ** components/Chart.tsx *)

Module Chart.

Record Marker : Type := mkMarker {
  id : string;
  x : Z;
  y : JS.number;
  type : string;
  label : string;
  color : string
}.

(** The loop from the last candle down to the first that stops at a candle
    with [time <= logTime]. *)
Definition closestCandle (data : list Candle.t) (logTime : Z)
    : option Candle.t :=
  List.find (fun c => Candle.time c <=? logTime) (rev data).

(** The callback of [logs.map]; [None] is [null]. *)
Definition marker (data : list Candle.t) (log : AlertLog.t)
    : option Marker :=
  let logTime := AlertLog.timestamp log in
  match closestCandle data logTime with
  | None => None
  | Some closestCandle =>
      let action := WebhookPayload.action (AlertLog.payload log) in
      let isBuy :=
        String.eqb action "buy" || String.eqb action "buy_to_cover" in
      let yPos :=
        if isBuy then Candle.low closestCandle
        else Candle.high closestCandle in
      Some (mkMarker (AlertLog.id log) (Candle.time closestCandle) yPos
              (if isBuy then "buy" else "sell")
              (if isBuy then "▲" else "▼")
              (if isBuy then "#10b981" else "#f43f5e"))
  end.

(** [logs.map(...).filter(Boolean)] *)
Definition markers (logs : list AlertLog.t) (data : list Candle.t)
    : list Marker :=
  omap (marker data) logs.

End Chart.

(** ** server/index.ts *)

Module Server.

Section Logs.

(** A log is whatever the runner hands over ([any]). *)
Context {Log : Type}.

(** The module's [logs], and the logs sent with [io.emit('log_new', _)],
    first sent first. *)
Record State : Type := mkState {
  logs : list Log;
  logNew : list Log
}.

Definition addLog (log : Log) (s : State) : State :=
  mkState (take 500 (log :: logs s)) (logNew s ++ [log]).

End Logs.

Arguments State : clear implicits.

End Server.

(** ** Sample data *)

Module Samples.

Import PrimFloat.

(** Closes 1, 2, 3, 4, 5. *)
Definition closes1to5 : list Candle.t :=
  [Candle.ofClose 1 1%float; Candle.ofClose 2 2%float;
   Candle.ofClose 3 3%float; Candle.ofClose 4 4%float;
   Candle.ofClose 5 5%float].

(** A window whose first close is infinite. *)
Definition infiniteClose : list Candle.t :=
  [Candle.ofClose 1 infinity; Candle.ofClose 2 1%float;
   Candle.ofClose 3 1%float].

(** An engine that holds: no action, state as it was. *)
Definition holdEngine (_ : list Candle.t) (_ : StrategyConfig.t)
    (positionState : PositionState.t) (tradeStats : TradeStats.t)
    : EvalResult.t :=
  EvalResult.mk [] positionState tradeStats.

Definition config : StrategyConfig.t :=
  StrategyConfig.mk "s1" "Strategy 1" "BTCUSDT" "1m" 12 26 9 1000%float 3
    "https://hooks.example/c3" "token".

(** FLAT, at its daily cap of three trades counted on 2024-01-01, last
    price 100. *)
Definition runtime : StrategyRuntime.t :=
  StrategyRuntime.mk config closes1to5 App.INITIAL_POS_STATE
    (TradeStats.mk 3 "2024-01-01") 100%float.

Definition world : App.World :=
  App.mkWorld {["s1" := runtime]} {["s1" := runtime]} "s1" [] [] [].

(** The same registry at another last price. *)
Definition worldAt (lastPrice : JS.number) : App.World :=
  let rt :=
    StrategyRuntime.mk config closes1to5 App.INITIAL_POS_STATE
      (TradeStats.mk 3 "2024-01-01") lastPrice in
  App.mkWorld {["s1" := rt]} {["s1" := rt]} "s1" [] [] [].

(** The next day. *)
Definition clock : App.Clock :=
  App.mkClock 1704189600000 "2024-01-02T10:00:00.000Z".

Definition sendEnv : App.SendEnv :=
  App.mkSendEnv "k3x9q2m1p" 1704189600000 false.

End Samples.

(** ** More sample data *)

Module Samples2.

Import PrimFloat.

Definition defaultConfig : StrategyConfig.t :=
  StrategyConfig.mk "default" "Default" "BTCUSDT" "1m" 50 150 9 100%float 5
    "" "token".

Definition initialStats : TradeStats.t :=
  App.INITIAL_STATS "2024-01-01T08:00:00.000Z".

(** A second strategy on another stream, without a webhook URL. *)
Definition config2 : StrategyConfig.t :=
  StrategyConfig.mk "s2" "Strategy 2" "ETHUSDT" "5m" 12 26 9 500%float 3
    "" "token".

Definition runtime2 : StrategyRuntime.t :=
  StrategyRuntime.mk config2 [] App.INITIAL_POS_STATE
    (TradeStats.mk 0 "2024-01-01") 0%float.

(** Two strategies, the first one active. *)
Definition world2 : App.World :=
  let ref := <["s2" := runtime2]> {["s1" := Samples.runtime]} in
  App.mkWorld ref ref "s1" [] [] [].

(** A [parseFloat] good enough for the digits 1 to 9. *)
Definition parseDigit (s : string) : JS.number :=
  match s with
  | "1" => 1 | "2" => 2 | "3" => 3 | "4" => 4 | "5" => 5
  | "6" => 6 | "7" => 7 | "8" => 8 | "9" => 9
  | _ => nan
  end%float.

Definition klineFrame : Binance.Frame :=
  Binance.mkFrame "btcusdt@kline_1m"
    (Some (Binance.mkSocketMessage "kline"
             (Binance.mkKline 6 "5" "8" "4" "7" "9" false))).

End Samples2.

(** * Properties *)

(** ** Facts on binary64 values, from the specification of the primitives *)

Module FloatFacts.

Import PrimFloat.

Lemma SFeqb_irrefl_nan (s : spec_float) : SFeqb s s = false -> s = S754_nan.
Proof.
  destruct s as [b | b | | b m e]; try reflexivity; unfold SFeqb; simpl.
  - discriminate.
  - destruct b; discriminate.
  - destruct b; rewrite Z.compare_refl, Pos.compare_cont_refl; discriminate.
Qed.

(** There is one [NaN]. *)
Lemma is_nan_true (x : float) : is_nan x = true -> x = nan.
Proof.
  unfold is_nan. intros H. apply negb_true_iff in H.
  rewrite FloatAxioms.eqb_spec in H. apply SFeqb_irrefl_nan in H.
  rewrite <- (SF2Prim_Prim2SF x), H. reflexivity.
Qed.

Lemma nan_neq (x : float) : is_nan x = false -> x <> nan.
Proof. intros H ->. discriminate H. Qed.

Lemma mul_nan_l (y : float) : (nan * y)%float = nan.
Proof.
  rewrite <- (SF2Prim_Prim2SF (nan * y)), FloatAxioms.mul_spec.
  reflexivity.
Qed.

Lemma add_nan_l (y : float) : (nan + y)%float = nan.
Proof.
  rewrite <- (SF2Prim_Prim2SF (nan + y)), FloatAxioms.add_spec.
  reflexivity.
Qed.

Lemma add_nan_r (x : float) : (x + nan)%float = nan.
Proof.
  rewrite <- (SF2Prim_Prim2SF (x + nan)), FloatAxioms.add_spec.
  change (Prim2SF nan) with S754_nan.
  destruct (Prim2SF x) as [ | | | [] ? ?]; reflexivity.
Qed.

Lemma sub_nan_l (y : float) : (nan - y)%float = nan.
Proof.
  rewrite <- (SF2Prim_Prim2SF (nan - y)), FloatAxioms.sub_spec.
  reflexivity.
Qed.

Lemma sub_nan_r (x : float) : (x - nan)%float = nan.
Proof.
  rewrite <- (SF2Prim_Prim2SF (x - nan)), FloatAxioms.sub_spec.
  change (Prim2SF nan) with S754_nan.
  destruct (Prim2SF x) as [ | | | [] ? ?]; reflexivity.
Qed.

(** [x <= 0] excludes [0 < x]. *)
Lemma leb_0_not_ltb (x : float) :
  (x <=? 0)%float = true -> (0 <? x)%float = false.
Proof.
  rewrite FloatAxioms.leb_spec, FloatAxioms.ltb_spec.
  change (Prim2SF 0) with (S754_zero false).
  destruct (Prim2SF x) as [b | b | | b m e];
    try destruct b; try reflexivity; discriminate.
Qed.

(** [0 * x] is a zero ([0] or [-0]) unless [x] is infinite or [NaN]. *)
Lemma mul_0_finite (x : float) :
  is_infinity x = false -> is_nan x = false -> (0 * x =? 0)%float = true.
Proof.
  unfold is_infinity, is_nan.
  rewrite !FloatAxioms.eqb_spec, FloatAxioms.abs_spec, FloatAxioms.mul_spec.
  change (Prim2SF 0) with (S754_zero false).
  change (Prim2SF infinity) with (S754_infinity false).
  destruct (Prim2SF x) as [b | b | | b m e];
    try destruct b; try reflexivity; discriminate.
Qed.

(** [0 * x] is [NaN] when [x] is infinite. *)
Lemma mul_0_infinite (x : float) :
  is_infinity x = true -> is_nan (0 * x) = true.
Proof.
  unfold is_infinity, is_nan.
  rewrite !FloatAxioms.eqb_spec, FloatAxioms.abs_spec, FloatAxioms.mul_spec.
  change (Prim2SF 0) with (S754_zero false).
  change (Prim2SF infinity) with (S754_infinity false).
  destruct (Prim2SF x) as [b | b | | b m e];
    try destruct b; try reflexivity; discriminate.
Qed.

(** An infinite value is neither a zero nor [NaN]. *)
Lemma infinite_not_zero (x : float) :
  is_infinity x = true -> (x =? 0)%float || is_nan x = false.
Proof.
  unfold is_infinity, is_nan.
  rewrite !FloatAxioms.eqb_spec, FloatAxioms.abs_spec.
  change (Prim2SF 0) with (S754_zero false).
  change (Prim2SF infinity) with (S754_infinity false).
  destruct (Prim2SF x) as [b | b | | b m e];
    try destruct b; try reflexivity; discriminate.
Qed.

End FloatFacts.

(** ** Scenarios of the specification, by evaluation *)

Example ema3_closes1to5 :
  Indicator.calculateEMA Samples.closes1to5 3
  = [PrimFloat.nan; PrimFloat.nan; 2; 3; 4]%float.
Proof. reflexivity. Qed.

Example ema_short_window :
  Indicator.calculateEMA Samples.closes1to5 6 = JS.nanArray 5.
Proof. reflexivity. Qed.

Example macd_1_2_2_closes1to5 :
  Indicator.calculateMACD Samples.closes1to5 1 2 2
  = Indicator.mkMACD
      [PrimFloat.nan; 0.5; 0.5; 0.5; 0.5]%float
      [PrimFloat.nan; PrimFloat.nan; 0.5; 0.5; 0.5]%float
      [PrimFloat.nan; PrimFloat.nan; 0; 0; 0]%float.
Proof. reflexivity. Qed.

Example enriched_hist_closes1to5 :
  Candle.macdHist
    <$> Indicator.enrichCandlesWithIndicators Samples.closes1to5
          (Some (Indicator.mkConfig 1 2 2))
  = [None; None; Some 0%float; Some 0%float; Some 0%float].
Proof. reflexivity. Qed.

Example manual_long_at_100 :
  App.manualNewState Samples.clock LONG Samples.runtime
  = (PositionState.mk LONG 10 10 100 100 0 1704189600000 [] [],
     TradeStats.mk 4 "2024-01-01")%float.
Proof. reflexivity. Qed.

Example bar_replaces_last :
  Candle.close
    <$> App.updateCandles Samples.closes1to5 (Candle.ofClose 5 7%float)
  = [1; 2; 3; 4; 7]%float.
Proof. reflexivity. Qed.

Example bar_is_appended :
  Candle.close
    <$> App.updateCandles Samples.closes1to5 (Candle.ofClose 6 7%float)
  = [1; 2; 3; 4; 5; 7]%float.
Proof. reflexivity. Qed.

(** ** Arrays built by pushing *)

Section PushLoop.

Local Open Scope nat_scope.

Lemma index_lookup (a : list JS.number) (i : nat) :
  JS.index a (Z.of_nat i) = default PrimFloat.nan (a !! i).
Proof.
  unfold JS.index. destruct (Z.ltb_spec (Z.of_nat i) 0); [lia|].
  rewrite Nat2Z.id. destruct (a !! i); reflexivity.
Qed.

Lemma index_pred_lookup (a : list JS.number) (i : nat) :
  1 <= i ->
  JS.index a (Z.of_nat i - 1) = default PrimFloat.nan (a !! (i - 1)).
Proof.
  intros Hi. replace (Z.of_nat i - 1)%Z with (Z.of_nat (i - 1)) by lia.
  apply index_lookup.
Qed.

(** A loop [for (i = s; i < s + n; i++) a.push(g(a[i-1], i))] entered with
    [a.length = s]: it keeps what was there, pushes [n] values, and each
    is [g] of its predecessor. *)
Variable g : JS.number -> nat -> JS.number.
Variable step : list JS.number -> nat -> list JS.number.
Hypothesis step_push :
  forall a i, step a i = a ++ [g (JS.index a (Z.of_nat i - 1)) i].

Lemma pushLoop_spec (n s : nat) (a : list JS.number) :
  length a = s -> 1 <= s ->
  let r := fold_left step (seq s n) a in
  length r = s + n /\
  take s r = a /\
  forall i, s <= i < s + n ->
    r !! i = Some (g (default PrimFloat.nan (r !! (i - 1))) i).
Proof.
  revert s a. induction n as [|n IH]; intros s a Hlen Hs; simpl.
  - split; [lia|]. split; [apply take_ge; lia|]. intros i Hi; lia.
  - rewrite step_push. rewrite index_pred_lookup by exact Hs.
    set (x := g (default PrimFloat.nan (a !! (s - 1))) s).
    destruct (IH (S s) (a ++ [x])) as (L & T & R).
    { rewrite length_app; simpl; lia. }
    { lia. }
    set (r := fold_left step (seq (S s) n) (a ++ [x])) in *.
    assert (Ta : take s r = a).
    { replace (take s r) with (take s (take (S s) r))
        by (rewrite take_take; f_equal; lia).
      rewrite T. apply take_app_length'. symmetry; exact Hlen. }
    split; [lia|]. split; [exact Ta|].
    intros i Hi. destruct (decide (i = s)) as [->|Hne].
    + assert (E1 : r !! s = Some x).
      { rewrite <- (lookup_take_lt r (S s) s) by lia.
        rewrite T, lookup_app_r by lia.
        rewrite Hlen, Nat.sub_diag. reflexivity. }
      assert (E2 : r !! (s - 1) = a !! (s - 1)).
      { rewrite <- Ta. symmetry. apply lookup_take_lt. lia. }
      rewrite E1, E2. reflexivity.
    + apply R. lia.
Qed.

End PushLoop.

(** ** calculateEMA *)

Section EMA.

Import PrimFloat.
Local Open Scope nat_scope.

Lemma closeAt_closes (candles : list Candle.t) (i : nat) :
  Indicator.closeAt candles i
  = default nan (Indicator.closes candles !! i).
Proof.
  unfold Indicator.closeAt, Indicator.closes.
  rewrite list_lookup_fmap. destruct (candles !! i); reflexivity.
Qed.

(** The "Initial SMA" loop adds up the closes at [a .. a + n - 1]. *)
Lemma sum_loop (xs : list JS.number) (n a : nat) (s : JS.number) :
  a + n <= length xs ->
  fold_left (fun s i => (s + default nan (xs !! i))%float) (seq a n) s
  = fold_left (fun s x => (s + x)%float) (take n (drop a xs)) s.
Proof.
  revert a s. induction n as [|n IH]; intros a s Hn; [reflexivity|].
  destruct (lookup_lt_is_Some_2 xs a) as [x Hx]; [lia|].
  rewrite (drop_S _ _ _ Hx). simpl. rewrite Hx. simpl.
  apply IH. lia.
Qed.

Lemma initialSum_closes (candles : list Candle.t) (P : nat) :
  P <= length candles ->
  fold_left (fun s i => (s + Indicator.closeAt candles i)%float) (seq 0 P)
    0%float
  = Indicator.sumFrom0 (take P (Indicator.closes candles)).
Proof.
  intros HP. unfold Indicator.sumFrom0.
  rewrite <- (drop_0 (Indicator.closes candles)) at 1.
  rewrite <- sum_loop
    by (unfold Indicator.closes; rewrite length_fmap; lia).
  generalize 0%float. induction (seq 0 P) as [|i l IH]; intros s;
    [reflexivity|].
  simpl. rewrite closeAt_closes. apply IH.
Qed.

Lemma emaStep_push (candles : list Candle.t) (k : JS.number)
    (a : list JS.number) (i : nat) :
  Indicator.emaStep candles k a i
  = a ++ [Indicator.emaNext candles k (JS.index a (Z.of_nat i - 1)) i].
Proof.
  unfold Indicator.emaStep, Indicator.emaNext.
  destruct (JS.isNaN (JS.index a (Z.of_nat i - 1))); reflexivity.
Qed.

Lemma calculateEMA_short (candles : list Candle.t) (P : nat) :
  length candles < P ->
  Indicator.calculateEMA candles P = JS.nanArray (length candles).
Proof.
  intros H. unfold Indicator.calculateEMA.
  destruct (Nat.ltb_spec (length candles) P); [reflexivity|lia].
Qed.

Lemma calculateEMA_long (candles : list Candle.t) (P : nat) :
  1 <= P -> P <= length candles ->
  let ema := Indicator.calculateEMA candles P in
  let k := (2 / (JS.of_nat P + 1))%float in
  length ema = length candles /\
  (forall i, i < P - 1 -> ema !! i = Some nan) /\
  ema !! (P - 1)
    = Some (Indicator.sumFrom0 (take P (Indicator.closes candles))
            / JS.of_nat P)%float /\
  (forall i, P <= i < length candles ->
     ema !! i
     = Some (Indicator.emaNext candles k (default nan (ema !! (i - 1))) i)).
Proof.
  intros H1 HP ema k. subst ema. unfold Indicator.calculateEMA.
  destruct (Nat.ltb_spec (length candles) P); [lia|].
  fold k. rewrite initialSum_closes by exact HP.
  set (seed := (Indicator.sumFrom0 (take P (Indicator.closes candles))
                / JS.of_nat P)%float).
  set (a := replicate (P - 1) nan ++ [seed]).
  assert (La : length a = P).
  { unfold a. rewrite length_app, length_replicate. simpl. lia. }
  destruct (pushLoop_spec (Indicator.emaNext candles k)
              (Indicator.emaStep candles k) (emaStep_push candles k)
              (length candles - P) P a La H1)
    as (L & T & R).
  set (r := fold_left _ _ a) in *.
  split; [lia|]. split; [|split].
  - intros i Hi. rewrite <- (lookup_take_lt r P i) by lia.
    rewrite T. unfold a. rewrite lookup_app_l
      by (rewrite length_replicate; lia).
    apply lookup_replicate_2. exact Hi.
  - rewrite <- (lookup_take_lt r P (P - 1)) by lia.
    rewrite T. unfold a. rewrite lookup_app_r
      by (rewrite length_replicate; lia).
    rewrite length_replicate, Nat.sub_diag. reflexivity.
  - intros i Hi. apply R. lia.
Qed.

Lemma calculateEMA_closes1to5 (candles : list Candle.t) :
  Indicator.closes candles = [1; 2; 3; 4; 5]%float ->
  Indicator.calculateEMA candles 3 = [nan; nan; 2; 3; 4]%float.
Proof.
  intros H.
  destruct candles as [|c0 [|c1 [|c2 [|c3 [|c4 [|c5 rest]]]]]];
    try discriminate H.
  destruct c0, c1, c2, c3, c4. simpl in H.
  injection H as -> -> -> -> ->. reflexivity.
Qed.

End EMA.

(** C1, as amended.  For every candle window and every period [P >= 1],
    [calculateEMA] returns one value per candle.  If the window has fewer
    than [P] candles every value is [NaN] (undefined).  Otherwise the values
    at the indices below [P - 1] are [NaN], the value at [P - 1] is the sum
    of the first [P] closes divided by [P], and for every [i >= P] the value
    is [close[i] * k + ema[i-1] * (1 - k)] with [k = 2 / (P + 1)] when
    [ema[i-1]] is a number, and [close[i]] itself when [ema[i-1]] is [NaN].
    With period 3 over the closes 1, 2, 3, 4, 5 the values are
    [NaN, NaN, 2, 3, 4]. *)
Theorem calculateEMA_spec (candles : list Candle.t) (P : nat) :
  (1 <= P)%nat ->
  let ema := Indicator.calculateEMA candles P in
  let k := (2 / (JS.of_nat P + 1))%float in
  length ema = length candles /\
  ((length candles < P)%nat ->
     forall i, (i < length candles)%nat -> ema !! i = Some PrimFloat.nan) /\
  ((P <= length candles)%nat ->
     (forall i, (i < P - 1)%nat -> ema !! i = Some PrimFloat.nan) /\
     ema !! (P - 1)%nat
       = Some (Indicator.sumFrom0 (take P (Indicator.closes candles))
               / JS.of_nat P)%float /\
     (forall i, (P <= i < length candles)%nat ->
        let price := Indicator.closeAt candles i in
        let prev := default PrimFloat.nan (ema !! (i - 1)%nat) in
        ema !! i
        = Some (if JS.isNaN prev then price
                else price * k + prev * (1 - k))%float)) /\
  (P = 3%nat ->
   Indicator.closes candles = [1; 2; 3; 4; 5]%float ->
   ema = [PrimFloat.nan; PrimFloat.nan; 2; 3; 4]%float).
Proof.
  intros H1 ema k.
  assert (Hlen : length ema = length candles).
  { destruct (Nat.lt_ge_cases (length candles) P) as [Hs|Hl].
    - subst ema. rewrite calculateEMA_short by exact Hs.
      apply length_replicate.
    - apply (calculateEMA_long candles P H1 Hl). }
  split; [exact Hlen|]. split; [|split].
  - intros Hs i Hi. subst ema. rewrite calculateEMA_short by exact Hs.
    apply lookup_replicate_2. exact Hi.
  - intros Hl.
    destruct (calculateEMA_long candles P H1 Hl) as (_ & Hpad & Hseed & Hrec).
    split; [exact Hpad|]. split; [exact Hseed|].
    intros i Hi. apply Hrec. exact Hi.
  - intros -> Hc. apply calculateEMA_closes1to5. exact Hc.
Qed.

(** Period 3 on the closes 1 to 5. *)
Lemma calculateEMA_spec_witness :
  (1 <= 3)%nat /\
  Indicator.calculateEMA Samples.closes1to5 3
  = [PrimFloat.nan; PrimFloat.nan; 2; 3; 4]%float.
Proof.
  split; [lia|].
  destruct (calculateEMA_spec Samples.closes1to5 3 ltac:(lia))
    as (_ & _ & _ & H).
  apply H; reflexivity.
Defined.

(** C1 fails as stated, twice.  With period 0 there is one value more than
    there are candles.  With period 1 over the closes [Infinity, 1, 1] the
    value at index 1 is [NaN] ([1 * 1 + Infinity * 0]) and the value at
    index 2 is the close 1, not [1 * k + NaN * (1 - k)], which is [NaN]. *)
Lemma calculateEMA_claim_fails :
  length (Indicator.calculateEMA Samples.closes1to5 0)
    <> length Samples.closes1to5 /\
  (let candles := Samples.infiniteClose in
   let ema := Indicator.calculateEMA candles 1 in
   let k := (2 / (JS.of_nat 1 + 1))%float in
   (1 <= 2 < length candles)%nat /\
   ema !! 2%nat
   <> Some (Indicator.closeAt candles 2 * k
            + default PrimFloat.nan (ema !! 1%nat) * (1 - k))%float).
Proof.
  split; [vm_compute; discriminate|].
  split; [vm_compute; lia|].
  vm_compute. intros H.
  apply (f_equal (from_option PrimFloat.is_nan false)) in H.
  vm_compute in H. discriminate H.
Qed.

(** ** calculateMACD *)

Section MACD.

Import PrimFloat.
Local Open Scope nat_scope.

Lemma firstDefined_unique (values : list JS.number) (a b : nat) :
  Indicator.firstDefined values a -> Indicator.firstDefined values b -> a = b.
Proof.
  intros (_ & Ha & Hbefore_a) (_ & Hb & Hbefore_b).
  destruct (Nat.lt_trichotomy a b) as [Hlt | [Heq | Hgt]]; [|exact Heq|].
  - rewrite (Hbefore_b a Hlt) in Ha. discriminate.
  - rewrite (Hbefore_a b Hgt) in Hb. discriminate.
Qed.

Lemma firstValidFrom_Some (values : list JS.number) (s fv : nat) :
  Indicator.firstValidFrom values s = Some fv ->
  exists d, fv = s + d /\ Indicator.firstDefined values d.
Proof.
  revert s. induction values as [|v rest IH]; intros s H; [discriminate|].
  simpl in H. destruct (JS.isNaN v) eqn:Hv; simpl in H.
  - destruct (IH (S s) H) as (d & -> & Hlen & Hd & Hbefore).
    exists (S d). split; [lia|]. split; [simpl; lia|]. split; [exact Hd|].
    intros [|j] Hj; [exact Hv|]. apply Hbefore. lia.
  - injection H as <-. exists 0. split; [lia|].
    split; [simpl; lia|]. split; [exact Hv|]. intros j Hj; lia.
Qed.

Lemma firstValidFrom_None (values : list JS.number) (s : nat) :
  Indicator.firstValidFrom values s = None ->
  forall j, j < length values ->
    JS.isNaN (default nan (values !! j)) = true.
Proof.
  revert s. induction values as [|v rest IH]; intros s H j Hj;
    [simpl in Hj; lia|].
  simpl in H. destruct (JS.isNaN v) eqn:Hv; simpl in H; [|discriminate].
  destruct j as [|j]; [exact Hv|]. apply (IH (S s) H). simpl in Hj. lia.
Qed.

Lemma firstValidFrom_firstDefined (values : list JS.number) (fv : nat) :
  Indicator.firstDefined values fv ->
  Indicator.firstValidFrom values 0 = Some fv.
Proof.
  intros Hfv. destruct (Indicator.firstValidFrom values 0) as [fv'|] eqn:E.
  - destruct (firstValidFrom_Some _ _ _ E) as (d & -> & Hd).
    f_equal. apply (firstDefined_unique values); assumption.
  - destruct Hfv as (Hlen & Hnan & _).
    rewrite (firstValidFrom_None _ _ E fv Hlen) in Hnan. discriminate.
Qed.

(** A [NaN] value makes the recurrence [NaN]: the branch on [isNaN(val)]
    of the source computes what the formula would. *)
Lemma signalNext_formula (values : list JS.number) (k prev : JS.number)
    (i : nat) :
  Indicator.signalNext values k prev i
  = (default nan (values !! i) * k + prev * (1 - k))%float.
Proof.
  unfold Indicator.signalNext. rewrite index_lookup.
  destruct (JS.isNaN (default nan (values !! i))) eqn:Hv; [|reflexivity].
  rewrite (FloatFacts.is_nan_true _ Hv).
  now rewrite FloatFacts.mul_nan_l, FloatFacts.add_nan_l.
Qed.

Lemma signalStep_push (values : list JS.number) (k : JS.number)
    (a : list JS.number) (i : nat) :
  Indicator.signalStep values k a i
  = a ++ [Indicator.signalNext values k (JS.index a (Z.of_nat i - 1)) i].
Proof.
  unfold Indicator.signalStep, Indicator.signalNext.
  destruct (JS.isNaN (JS.index values (Z.of_nat i))); reflexivity.
Qed.

Lemma signalSum_values (values : list JS.number) (fv P : nat) :
  fv + P <= length values ->
  fold_left
    (fun s i => (s + JS.index values (Z.of_nat (fv + i)))%float)
    (seq 0 P) 0%float
  = Indicator.sumFrom0 (take P (drop fv values)).
Proof.
  intros H. unfold Indicator.sumFrom0.
  rewrite <- (drop_0 (drop fv values)).
  rewrite <- sum_loop by (rewrite length_drop; lia).
  generalize 0%float. induction (seq 0 P) as [|i l IH]; intros s;
    [reflexivity|].
  simpl. rewrite index_lookup, lookup_drop. apply IH.
Qed.

Lemma calculateEMAFromValues_none (values : list JS.number) (P : nat) :
  (forall j, j < length values ->
     JS.isNaN (default nan (values !! j)) = true) ->
  Indicator.calculateEMAFromValues values P = JS.nanArray (length values).
Proof.
  intros Hall. unfold Indicator.calculateEMAFromValues.
  destruct (Indicator.firstValidFrom values 0) as [fv|] eqn:E;
    [|reflexivity].
  destruct (firstValidFrom_Some _ _ _ E) as (d & _ & Hlen & Hd & _).
  rewrite (Hall d Hlen) in Hd. discriminate.
Qed.

Lemma calculateEMAFromValues_short (values : list JS.number)
    (P fv : nat) :
  Indicator.firstDefined values fv -> length values - fv < P ->
  Indicator.calculateEMAFromValues values P = JS.nanArray (length values).
Proof.
  intros Hfv Hs. unfold Indicator.calculateEMAFromValues.
  rewrite (firstValidFrom_firstDefined _ _ Hfv).
  destruct (Nat.ltb_spec (length values - fv) P); [reflexivity|lia].
Qed.

(** With period 0 every turn of the loop reads a [NaN] below the top of
    [result], so the whole signal line is [NaN]. *)
Lemma signalLoop_nan (values : list JS.number) (k : JS.number) (n s : nat) :
  fold_left (Indicator.signalStep values k) (seq s n) (replicate (S s) nan)
  = replicate (S (s + n)) nan.
Proof.
  revert s. induction n as [|n IH]; intros s.
  - simpl. now rewrite Nat.add_0_r.
  - cbn [seq fold_left]. rewrite signalStep_push.
    assert (Hprev : JS.index (replicate (S s) nan) (Z.of_nat s - 1) = nan).
    { destruct s as [|s]; [reflexivity|].
      rewrite index_pred_lookup by lia.
      now rewrite lookup_replicate_2 by lia. }
    rewrite Hprev. unfold Indicator.signalNext.
    assert (Hnan : (if JS.isNaN (JS.index values (Z.of_nat s)) then nan
                    else (JS.index values (Z.of_nat s) * k
                          + nan * (1 - k))%float) = nan).
    { destruct (JS.isNaN _); [reflexivity|].
      now rewrite FloatFacts.mul_nan_l, FloatFacts.add_nan_r. }
    cbv zeta. rewrite Hnan.
    replace (replicate (S s) nan ++ [nan]) with (replicate (S (S s)) nan).
    + rewrite IH. f_equal. lia.
    + replace (S (S s)) with (S s + 1) by lia.
      now rewrite replicate_add.
Qed.

Lemma calculateEMAFromValues_period0 (values : list JS.number) :
  Indicator.calculateEMAFromValues values 0 = JS.nanArray (length values).
Proof.
  unfold Indicator.calculateEMAFromValues.
  destruct (Indicator.firstValidFrom values 0) as [fv|] eqn:E;
    [|reflexivity].
  destruct (firstValidFrom_Some _ _ _ E) as (d & -> & Hlen & _).
  cbn [Nat.add Nat.ltb Nat.leb Nat.sub seq fold_left replicate].
  change (0 / JS.of_nat 0)%float with nan.
  rewrite ?app_nil_r, ?Nat.add_0_r.
  replace (replicate d nan ++ [nan]) with (replicate (S d) nan)
    by (replace (S d) with (d + 1) by lia; now rewrite replicate_add).
  rewrite signalLoop_nan.
  replace (d + (length values - d)) with (length values) by lia.
  generalize (length values) as n. intros n.
  rewrite length_app, !length_replicate.
  replace (n - S n) with 0 by lia.
  replace (0 + S n - n) with 1 by lia.
  reflexivity.
Qed.

Lemma calculateEMAFromValues_long (values : list JS.number)
    (P fv : nat) :
  1 <= P -> Indicator.firstDefined values fv -> P <= length values - fv ->
  let sig := Indicator.calculateEMAFromValues values P in
  let k := (2 / (JS.of_nat P + 1))%float in
  length sig = length values /\
  (forall i, i < fv + P - 1 -> sig !! i = Some nan) /\
  sig !! (fv + P - 1)
    = Some (Indicator.sumFrom0 (take P (drop fv values))
            / JS.of_nat P)%float /\
  (forall i, fv + P <= i < length values ->
     sig !! i
     = Some (default nan (values !! i) * k
             + default nan (sig !! (i - 1)%nat) * (1 - k))%float).
Proof.
  intros H1 Hfv HP sig k. subst sig.
  unfold Indicator.calculateEMAFromValues.
  rewrite (firstValidFrom_firstDefined _ _ Hfv).
  destruct Hfv as (Hlt & _ & _).
  destruct (Nat.ltb_spec (length values - fv) P); [lia|].
  fold k. rewrite signalSum_values by lia.
  set (seed := (Indicator.sumFrom0 (take P (drop fv values))
                / JS.of_nat P)%float).
  set (a := (replicate fv nan ++ replicate (P - 1) nan) ++ [seed]).
  assert (La : length a = fv + P).
  { unfold a. rewrite !length_app, !length_replicate. simpl. lia. }
  destruct (pushLoop_spec (Indicator.signalNext values k)
              (Indicator.signalStep values k) (signalStep_push values k)
              (length values - (fv + P)) (fv + P) a La ltac:(lia))
    as (L & T & R).
  set (r := fold_left _ _ a) in *.
  assert (Lr : length r = length values) by lia.
  rewrite Lr, Nat.sub_diag. simpl. rewrite Lr, Nat.sub_diag, drop_0.
  split; [exact Lr|]. split; [|split].
  - intros i Hi. rewrite <- (lookup_take_lt r (fv + P) i) by lia.
    rewrite T. unfold a. rewrite lookup_app_l
      by (rewrite length_app, !length_replicate; lia).
    rewrite <- replicate_add. apply lookup_replicate_2. lia.
  - rewrite <- (lookup_take_lt r (fv + P) (fv + P - 1)) by lia.
    rewrite T. unfold a. rewrite lookup_app_r
      by (rewrite length_app, !length_replicate; lia).
    rewrite length_app, !length_replicate.
    replace (fv + P - 1 - (fv + (P - 1))) with 0 by lia. reflexivity.
  - intros i Hi. rewrite (R i) by lia. now rewrite signalNext_formula.
Qed.

Lemma macdLine_length (candles : list Candle.t) (fast slow signal : nat) :
  length (Indicator.macdLine
            (Indicator.calculateMACD candles fast slow signal))
  = length candles.
Proof. simpl. now rewrite length_map, length_seq. Qed.

Lemma macdLine_lookup (candles : list Candle.t) (fast slow signal i : nat) :
  i < length candles ->
  let f := JS.index (Indicator.calculateEMA candles fast) (Z.of_nat i) in
  let s := JS.index (Indicator.calculateEMA candles slow) (Z.of_nat i) in
  Indicator.macdLine (Indicator.calculateMACD candles fast slow signal)
    !! i
  = Some (if JS.isNaN f || JS.isNaN s then nan else (f - s)%float).
Proof.
  intros Hi f s. simpl.
  change (map ?h ?l) with (h <$> l).
  rewrite list_lookup_fmap, lookup_seq_lt by exact Hi. reflexivity.
Qed.

Lemma signalLine_length (values : list JS.number) (P : nat) :
  length (Indicator.calculateEMAFromValues values P) = length values.
Proof.
  unfold Indicator.calculateEMAFromValues.
  destruct (Indicator.firstValidFrom values 0) as [fv|];
    [|apply length_replicate].
  destruct (length values - fv <? P); [apply length_replicate|].
  rewrite length_drop, !length_app, length_replicate. lia.
Qed.

Lemma macdHist_lookup (candles : list Candle.t) (fast slow signal i : nat) :
  i < length candles ->
  let r := Indicator.calculateMACD candles fast slow signal in
  Indicator.macdHist r !! i
  = Some (default nan (Indicator.macdLine r !! i)
          - default nan (Indicator.macdSignalLine r !! i))%float.
Proof.
  intros Hi r.
  destruct (lookup_lt_is_Some_2 (Indicator.macdLine r) i) as [m Hm].
  { unfold r. rewrite macdLine_length. exact Hi. }
  unfold r in *. cbn [Indicator.calculateMACD Indicator.macdHist
    Indicator.macdLine Indicator.macdSignalLine] in *.
  rewrite list_lookup_imap, Hm. simpl. now rewrite index_lookup.
Qed.

(** A [NaN] operand makes the histogram [NaN]. *)
Lemma hist_nan (m s : JS.number) :
  JS.isNaN m || JS.isNaN s = true -> (m - s)%float = nan.
Proof.
  intros H. apply orb_true_iff in H as [H|H];
    rewrite (FloatFacts.is_nan_true _ H).
  - apply FloatFacts.sub_nan_l.
  - apply FloatFacts.sub_nan_r.
Qed.

(** The indicator fields of an enriched candle, read off the arrays of
    [calculateMACD] at the periods [enrichCandlesWithIndicators] uses. *)
Lemma enriched_fields (candles : list Candle.t)
    (config : option Indicator.Config) (i : nat) (c : Candle.t) :
  Indicator.enrichCandlesWithIndicators candles config !! i = Some c ->
  let r :=
    Indicator.calculateMACD candles
      (JS.or_nat (from_option Indicator.macdFast 0 config) 50)
      (JS.or_nat (from_option Indicator.macdSlow 0 config) 150)
      (JS.or_nat (from_option Indicator.macdSignal 0 config) 9) in
  i < length candles /\
  Candle.macdLine c
    = JS.nanToUndefined (default nan (Indicator.macdLine r !! i)) /\
  Candle.macdSignal c
    = JS.nanToUndefined (default nan (Indicator.macdSignalLine r !! i)) /\
  Candle.macdHist c
    = JS.nanToUndefined (default nan (Indicator.macdHist r !! i)).
Proof.
  intros H r. unfold Indicator.enrichCandlesWithIndicators in H.
  destruct (length candles =? 0); [discriminate|].
  rewrite list_lookup_imap in H.
  destruct (candles !! i) as [c0|] eqn:Hc; [|discriminate].
  simpl in H. injection H as <-. cbn [Candle.macdLine Candle.macdSignal
    Candle.macdHist]. fold r. rewrite !index_lookup.
  split; [apply (lookup_lt_Some _ _ _ Hc)|]. repeat split.
Qed.

Lemma enriched_hist (candles : list Candle.t)
    (config : option Indicator.Config) (i : nat) (c : Candle.t) :
  Indicator.enrichCandlesWithIndicators candles config !! i = Some c ->
  Candle.macdHist c
  = match Candle.macdLine c, Candle.macdSignal c with
    | Some m, Some s => JS.nanToUndefined (m - s)%float
    | _, _ => None
    end.
Proof.
  intros H. destruct (enriched_fields _ _ _ _ H) as (Hi & -> & -> & ->).
  rewrite macdHist_lookup by exact Hi. simpl.
  set (m := default nan (_ !! i)). set (s := default nan (_ !! i)).
  unfold JS.nanToUndefined at 2 3.
  destruct (JS.isNaN m) eqn:Hm.
  { rewrite hist_nan by (rewrite Hm; reflexivity). reflexivity. }
  destruct (JS.isNaN s) eqn:Hs; [|reflexivity].
  rewrite hist_nan by (rewrite Hs; apply orb_true_r). reflexivity.
Qed.

End MACD.

(** C2.  For every candle window and parameters (fast, slow, signal),
    [calculateMACD] gives three arrays of the window's length.
    [macdLine[i]] is [EMA(fast)[i] - EMA(slow)[i]], and [NaN] (undefined)
    when either operand is.  [macdSignalLine] is all [NaN] when no line value
    is defined or fewer than [signal] values follow the first defined index
    [fv]; otherwise it is [NaN] below [fv + signal - 1], the average of the
    [signal] line values from [fv] on at [fv + signal - 1], and
    [line[i] * k + signal[i-1] * (1 - k)] with [k = 2 / (signal + 1)] from
    then on: the line's EMA from [fv], padded on the left.  [macdHist[i]] is
    [macdLine[i] - macdSignalLine[i]], which is [NaN] as soon as one operand
    is.  [enrichCandlesWithIndicators] gives one candle per candle of the
    window; the candle at index [i] carries as [macdLine], [macdSignal] and
    [macdHist] the values at [i] of the three arrays [calculateMACD] gives
    for the periods in force (the configured ones, or 50, 150 and 9 where
    one is missing or 0), a [NaN] value as undefined and every other value
    as it is.  So on an enriched candle an undefined line or signal leaves
    the histogram undefined, never 0, and otherwise the histogram is the
    difference of the two fields (undefined if that is [NaN]). *)
Theorem calculateMACD_spec (candles : list Candle.t)
    (fast slow signal : nat) (config : option Indicator.Config) :
  let r := Indicator.calculateMACD candles fast slow signal in
  let emaFast := Indicator.calculateEMA candles fast in
  let emaSlow := Indicator.calculateEMA candles slow in
  let n := length candles in
  let k := (2 / (JS.of_nat signal + 1))%float in
  let line i := default PrimFloat.nan (Indicator.macdLine r !! i) in
  let sig i := default PrimFloat.nan (Indicator.macdSignalLine r !! i) in
  (length (Indicator.macdLine r) = n /\
   length (Indicator.macdSignalLine r) = n /\
   length (Indicator.macdHist r) = n) /\
  (forall i : nat, (i < n)%nat ->
     let f := JS.index emaFast (Z.of_nat i) in
     let s := JS.index emaSlow (Z.of_nat i) in
     Indicator.macdLine r !! i
     = Some (if JS.isNaN f || JS.isNaN s then PrimFloat.nan
             else (f - s)%float)) /\
  ((forall j : nat, (j < n)%nat -> JS.isNaN (line j) = true) ->
   forall i : nat, (i < n)%nat ->
     Indicator.macdSignalLine r !! i = Some PrimFloat.nan) /\
  (forall fv : nat, Indicator.firstDefined (Indicator.macdLine r) fv ->
     ((n - fv < signal)%nat ->
      forall i : nat, (i < n)%nat ->
        Indicator.macdSignalLine r !! i = Some PrimFloat.nan) /\
     ((signal <= n - fv)%nat ->
      (forall i : nat, (i < fv + signal - 1)%nat ->
         Indicator.macdSignalLine r !! i = Some PrimFloat.nan) /\
      Indicator.macdSignalLine r !! (fv + signal - 1)%nat
        = Some (Indicator.sumFrom0
                  (take signal (drop fv (Indicator.macdLine r)))
                / JS.of_nat signal)%float /\
      (forall i : nat, (fv + signal <= i < n)%nat ->
         Indicator.macdSignalLine r !! i
         = Some (line i * k + sig (i - 1)%nat * (1 - k))%float))) /\
  (forall i : nat, (i < n)%nat ->
     Indicator.macdHist r !! i = Some (line i - sig i)%float /\
     (JS.isNaN (line i) || JS.isNaN (sig i) = true ->
      Indicator.macdHist r !! i = Some PrimFloat.nan)) /\
  (length (Indicator.enrichCandlesWithIndicators candles config) = n /\
   forall (i : nat) (c : Candle.t),
     Indicator.enrichCandlesWithIndicators candles config !! i = Some c ->
     let period (given : option nat) (d : nat) :=
       match given with
       | Some (S p) => S p
       | _ => d
       end in
     let e :=
       Indicator.calculateMACD candles
         (period (Indicator.macdFast <$> config) 50%nat)
         (period (Indicator.macdSlow <$> config) 150%nat)
         (period (Indicator.macdSignal <$> config) 9%nat) in
     let field (values : list JS.number) :=
       let v := default PrimFloat.nan (values !! i) in
       if JS.isNaN v then None else Some v in
     (i < n)%nat /\
     Candle.macdLine c = field (Indicator.macdLine e) /\
     Candle.macdSignal c = field (Indicator.macdSignalLine e) /\
     Candle.macdHist c = field (Indicator.macdHist e) /\
     Candle.macdHist c
     = match Candle.macdLine c, Candle.macdSignal c with
       | Some m, Some s =>
           if JS.isNaN (m - s)%float then None else Some (m - s)%float
       | _, _ => None
       end).
Proof.
  intros r emaFast emaSlow n k line sig.
  assert (Ll : length (Indicator.macdLine r) = n)
    by apply (macdLine_length candles fast slow signal).
  assert (Ls : length (Indicator.macdSignalLine r) = n).
  { unfold r. cbn [Indicator.calculateMACD Indicator.macdSignalLine].
    rewrite signalLine_length.
    apply (macdLine_length candles fast slow signal). }
  assert (Hsig : Indicator.macdSignalLine r
                 = Indicator.calculateEMAFromValues (Indicator.macdLine r)
                     signal) by reflexivity.
  split; [|split; [|split; [|split; [|split]]]].
  - split; [exact Ll|]. split; [exact Ls|].
    unfold r. cbn [Indicator.calculateMACD Indicator.macdHist].
    rewrite length_imap. apply (macdLine_length candles fast slow signal).
  - intros i Hi. apply (macdLine_lookup candles fast slow signal i Hi).
  - intros Hall i Hi. rewrite Hsig, calculateEMAFromValues_none.
    + apply lookup_replicate_2. rewrite Ll. exact Hi.
    + intros j Hj. apply Hall. rewrite <- Ll. exact Hj.
  - intros fv Hfv. split.
    + intros Hs i Hi.
      rewrite Hsig, (calculateEMAFromValues_short _ _ fv Hfv)
        by (rewrite Ll; exact Hs).
      apply lookup_replicate_2. rewrite Ll. exact Hi.
    + intros Hl. destruct (Nat.eq_dec signal 0%nat) as [H0|H0].
      * assert (Hn : (fv < n)%nat) by (rewrite <- Ll; apply Hfv).
        assert (Hall : forall i, (i < n)%nat ->
                  Indicator.macdSignalLine r !! i = Some PrimFloat.nan).
        { intros i Hi. rewrite Hsig, H0, calculateEMAFromValues_period0.
          apply lookup_replicate_2. rewrite Ll. exact Hi. }
        split; [intros i Hi; apply Hall; lia|].
        split; [rewrite Hall by lia; subst signal; reflexivity|].
        intros i Hi. rewrite Hall by lia. f_equal.
        assert (Hprev : sig (i - 1)%nat = PrimFloat.nan).
        { unfold sig. rewrite Hsig, H0, calculateEMAFromValues_period0.
          unfold JS.nanArray.
          destruct (replicate _ _ !! (i - 1)%nat) as [x|] eqn:Hx;
            [|reflexivity].
          apply lookup_replicate in Hx as [-> _]. reflexivity. }
        rewrite Hprev.
        now rewrite FloatFacts.mul_nan_l, FloatFacts.add_nan_r.
      * destruct (calculateEMAFromValues_long (Indicator.macdLine r) signal
                    fv ltac:(lia) Hfv ltac:(rewrite Ll; exact Hl))
          as (_ & Hpad & Hseed & Hrec).
        rewrite Ll in Hrec. rewrite Hsig.
        split; [exact Hpad|]. split; [exact Hseed|]. exact Hrec.
  - intros i Hi.
    assert (Hh := macdHist_lookup candles fast slow signal i Hi).
    split; [exact Hh|]. intros Hnan.
    fold r in Hh. rewrite Hh. f_equal. apply hist_nan. exact Hnan.
  - split.
    { unfold n, Indicator.enrichCandlesWithIndicators.
      destruct candles as [|c0 rest]; [reflexivity|].
      change (length (c0 :: rest) =? 0)%nat with false. cbv iota.
      apply length_imap. }
    intros i c Hc period e field.
    assert (Hp : forall (get : Indicator.Config -> nat) (d : nat),
              period (get <$> config) d
              = JS.or_nat (from_option get 0%nat config) d).
    { intros get d. destruct config as [cfg|]; [|reflexivity].
      simpl. now destruct (get cfg). }
    destruct (enriched_fields candles config i c Hc) as (Hi & H1 & H2 & H3).
    rewrite <- !Hp in H1, H2, H3. fold e in H1, H2, H3.
    split; [exact Hi|]. split; [exact H1|]. split; [exact H2|].
    split; [exact H3|]. apply (enriched_hist candles config i c Hc).
Qed.


(** ** The candle window *)

Section Window.

Local Open Scope nat_scope.

Lemma increasing_tail (t : Z) (ts : list Z) :
  App.increasing (t :: ts) = true -> App.increasing ts = true.
Proof.
  destruct ts as [|t' ts]; [reflexivity|].
  intros H. apply andb_true_iff in H. apply H.
Qed.


Lemma increasing_drop (n : nat) (ts : list Z) :
  App.increasing ts = true -> App.increasing (drop n ts) = true.
Proof.
  revert ts. induction n as [|n IH]; intros [|t ts] H; try exact H.
  simpl. apply IH. exact (increasing_tail _ _ H).
Qed.

(** Overwriting the last slot is dropping it and pushing. *)
Lemma insert_last {A : Type} (l : list A) (x y : A) :
  last l = Some x ->
  <[length l - 1 := y]> l = take (length l - 1) l ++ [y].
Proof.
  intros Hl. rewrite last_lookup, <- Nat.sub_1_r in Hl.
  assert (Hn := lookup_lt_Some _ _ _ Hl).
  rewrite <- (take_drop_middle _ _ _ Hl) at 2.
  rewrite (drop_ge l (S (length l - 1))) by lia.
  replace (length l - 1) with (length (take (length l - 1) l) + 0) at 1
    by (rewrite length_take; lia).
  now rewrite insert_app_r.
Qed.

Lemma snoc_last {A : Type} (l : list A) (x : A) :
  last l = Some x -> take (length l - 1) l ++ [x] = l.
Proof.
  intros Hl. rewrite last_lookup, <- Nat.sub_1_r in Hl.
  assert (Hn := lookup_lt_Some _ _ _ Hl).
  rewrite <- (take_drop_middle _ _ _ Hl) at 3.
  now rewrite (drop_ge l (S (length l - 1))) by lia.
Qed.

(** What [updateCandles] computes, in one piece. *)
Lemma updateCandles_merge (candles : list Candle.t) (newCandle : Candle.t) :
  let merged :=
    match last candles with
    | Some lastCandle =>
        if decide (Candle.time lastCandle = Candle.time newCandle)
        then take (length candles - 1) candles ++ [newCandle]
        else candles ++ [newCandle]
    | None => candles ++ [newCandle]
    end in
  App.updateCandles candles newCandle
  = drop (length merged - 550) merged.
Proof.
  intros merged. unfold App.updateCandles. cbv zeta.
  replace (candles !! (length candles - 1)) with (last candles)
    by (rewrite last_lookup, Nat.sub_1_r; reflexivity).
  assert (E :
    match last candles with
    | Some lastCandle =>
        if (Candle.time lastCandle =? Candle.time newCandle)%Z
        then <[length candles - 1 := newCandle]> candles
        else candles ++ [newCandle]
    | None => candles ++ [newCandle]
    end = merged).
  { unfold merged. destruct (last candles) as [l|] eqn:Hl; [|reflexivity].
    destruct (Z.eqb_spec (Candle.time l) (Candle.time newCandle));
      destruct (decide (Candle.time l = Candle.time newCandle));
      try contradiction; [|reflexivity].
    apply (insert_last _ _ _ Hl). }
  rewrite E.
  destruct (Nat.ltb_spec 550 (length merged)); [reflexivity|].
  replace (length merged - 550) with 0 by lia. now rewrite drop_0.
Qed.



End Window.

(** ** sendWebhook *)

Section Dispatch.

Lemma sendWebhook_ref (env : App.SendEnv) (payload : WebhookPayload.t)
    (strategyId strategyName : string) (w : App.World) :
  let w' := App.sendWebhook env payload strategyId strategyName w in
  App.latestStrategiesRef w' = App.latestStrategiesRef w /\
  App.strategies w' = App.strategies w /\
  App.activeStrategyId w' = App.activeStrategyId w.
Proof.
  unfold App.sendWebhook. simpl.
  destruct (App.latestStrategiesRef w !! strategyId) as [rt|]; simpl;
    [|done].
  destruct (App.truthyString _); [|done].
  destruct (App.fetchThrows env); done.
Qed.

Lemma sendWebhook_logs (env : App.SendEnv) (payload : WebhookPayload.t)
    (strategyId strategyName : string) (w : App.World) :
  exists log,
    App.logs (App.sendWebhook env payload strategyId strategyName w)
    = log :: App.logs w /\
    AlertLog.payload log = payload /\
    AlertLog.strategyId log = strategyId.
Proof.
  unfold App.sendWebhook. simpl. eexists. split; [|split].
  - destruct (App.latestStrategiesRef w !! strategyId) as [rt|]; simpl;
      [|reflexivity].
    destruct (App.truthyString _); [|reflexivity].
    destruct (App.fetchThrows env); reflexivity.
  - reflexivity.
  - reflexivity.
Qed.

Lemma sendWebhook_fetched (env : App.SendEnv) (payload : WebhookPayload.t)
    (strategyId strategyName : string) (w : App.World) :
  let w' := App.sendWebhook env payload strategyId strategyName w in
  App.fetched w' = App.fetched w \/
  exists url, App.fetched w' = (url, payload) :: App.fetched w.
Proof.
  unfold App.sendWebhook. simpl.
  destruct (App.latestStrategiesRef w !! strategyId) as [rt|]; simpl;
    [|by left].
  destruct (App.truthyString _); [|by left].
  right. eexists. destruct (App.fetchThrows env); reflexivity.
Qed.

Lemma sendWebhook_emitted (env : App.SendEnv) (payload : WebhookPayload.t)
    (strategyId strategyName : string) (w0 w : App.World) :
  App.logs w = App.logs w0 ->
  App.emitted w0 (App.sendWebhook env payload strategyId strategyName w)
  = [payload].
Proof.
  intros Hl. unfold App.emitted.
  destruct (sendWebhook_logs env payload strategyId strategyName w)
    as (log & -> & <- & _).
  rewrite Hl. simpl.
  replace (S (length (App.logs w0)) - length (App.logs w0))%nat
    with 1%nat by lia.
  reflexivity.
Qed.

End Dispatch.

(** C9.  [sendWebhook] leaves the registry as it was, whatever the payload
    and whether [fetch] resolves or throws: every strategy's runtime, hence
    its position state and trade statistics, is the one it was.  It writes
    one log line and hands at most one request to [fetch]; a rejection ends
    in one line of [console.error]: nothing is rolled back and nothing is
    sent again.  When [fetch] rejects, the line "Webhook Error" is written
    if the strategy is registered with a non-empty webhook URL, and no line
    is written if it has no URL or is not registered, no request being made
    then. *)
Theorem sendWebhook_frame (env : App.SendEnv) (payload : WebhookPayload.t)
    (strategyId strategyName : string) (w : App.World) :
  let w' := App.sendWebhook env payload strategyId strategyName w in
  App.latestStrategiesRef w' = App.latestStrategiesRef w /\
  App.strategies w' = App.strategies w /\
  (forall (id : string) (rt : StrategyRuntime.t),
     App.latestStrategiesRef w !! id = Some rt ->
     exists rt',
       App.latestStrategiesRef w' !! id = Some rt' /\
       StrategyRuntime.positionState rt' = StrategyRuntime.positionState rt /\
       StrategyRuntime.tradeStats rt' = StrategyRuntime.tradeStats rt) /\
  (length (App.logs w') = S (length (App.logs w))) /\
  (length (App.fetched w') <= S (length (App.fetched w)))%nat /\
  (App.fetchThrows env = false ->
   App.consoleErrors w' = App.consoleErrors w) /\
  (App.fetchThrows env = true ->
   App.consoleErrors w' = App.consoleErrors w \/
   App.consoleErrors w' = "Webhook Error" :: App.consoleErrors w) /\
  (App.fetchThrows env = true ->
   (forall rt : StrategyRuntime.t,
      App.latestStrategiesRef w !! strategyId = Some rt ->
      StrategyConfig.webhookUrl (StrategyRuntime.config rt) <> EmptyString ->
      App.consoleErrors w' = "Webhook Error" :: App.consoleErrors w) /\
   (forall rt : StrategyRuntime.t,
      App.latestStrategiesRef w !! strategyId = Some rt ->
      StrategyConfig.webhookUrl (StrategyRuntime.config rt) = EmptyString ->
      App.consoleErrors w' = App.consoleErrors w) /\
   (App.latestStrategiesRef w !! strategyId = None ->
    App.consoleErrors w' = App.consoleErrors w)).
Proof.
  intros w'.
  destruct (sendWebhook_ref env payload strategyId strategyName w)
    as (Href & Hst & _).
  split; [exact Href|]. split; [exact Hst|].
  split; [|split; [|split; [|split; [|split]]]].
  - intros id rt Hrt. exists rt. subst w'. rewrite Href. done.
  - destruct (sendWebhook_logs env payload strategyId strategyName w)
      as (log & Hl & _).
    subst w'. rewrite Hl. reflexivity.
  - destruct (sendWebhook_fetched env payload strategyId strategyName w)
      as [Hf | (url & Hf)]; subst w'; rewrite Hf; simpl; lia.
  - intros Hok. subst w'. unfold App.sendWebhook. simpl.
    destruct (App.latestStrategiesRef w !! strategyId) as [rt|]; simpl;
      [|reflexivity].
    destruct (App.truthyString _); [|reflexivity].
    rewrite Hok. reflexivity.
  - intros Hthrows. subst w'. unfold App.sendWebhook. simpl.
    destruct (App.latestStrategiesRef w !! strategyId) as [rt|]; simpl;
      [|by left].
    destruct (App.truthyString _); [|by left].
    rewrite Hthrows. by right.
  - intros Hthrows. subst w'. unfold App.sendWebhook. simpl.
    split; [|split].
    + intros rt Hrt Hurl. rewrite Hrt. simpl.
      destruct (StrategyConfig.webhookUrl (StrategyRuntime.config rt));
        [contradiction|].
      simpl. now rewrite Hthrows.
    + intros rt Hrt Hurl. rewrite Hrt. simpl. now rewrite Hurl.
    + intros Hnone. now rewrite Hnone.
Qed.

(** ** The registry under the processing loop *)

Section Registry.

Variable evaluateStrategy :
  list Candle.t -> StrategyConfig.t -> PositionState.t -> TradeStats.t ->
  EvalResult.t.
Variable sendEnv : nat -> App.SendEnv.
Variable streamName : string.
Variable newCandle : Candle.t.

(** What the loop stores for a runtime: the advanced runtime if it is on the
    stream, nothing new otherwise. *)
Let onStream (rt : StrategyRuntime.t) : bool :=
  String.eqb (App.targetStream (StrategyRuntime.config rt)) streamName.
Let key (rt : StrategyRuntime.t) : string :=
  StrategyConfig.id (StrategyRuntime.config rt).
Let advanced (rt : StrategyRuntime.t) : StrategyRuntime.t :=
  fst (App.processRuntime evaluateStrategy newCandle rt).
Let store (m : gmap string StrategyRuntime.t) (rt : StrategyRuntime.t)
    : gmap string StrategyRuntime.t :=
  if onStream rt then <[key rt := advanced rt]> m else m.

Lemma sends_keep_ref (id name : string) (actions : list WebhookPayload.t)
    (w : App.World) :
  App.latestStrategiesRef
    (fold_left
       (fun w a => App.sendWebhook (sendEnv (length (App.logs w))) a id name w)
       actions w)
  = App.latestStrategiesRef w.
Proof.
  revert w. induction actions as [|a actions IH]; intros w; [reflexivity|].
  simpl. rewrite IH. apply sendWebhook_ref.
Qed.

Lemma processOne_ref (acc : App.World * gmap string StrategyRuntime.t * bool)
    (rt : StrategyRuntime.t) :
  App.latestStrategiesRef
    (App.processOne evaluateStrategy sendEnv streamName newCandle acc rt).1.1
  = store (App.latestStrategiesRef acc.1.1) rt.
Proof.
  destruct acc as [[w updates] hasUpdates]. unfold App.processOne, store.
  unfold onStream, advanced, key.
  destruct (String.eqb _ streamName); [|reflexivity].
  destruct (App.processRuntime evaluateStrategy newCandle rt)
    as [newRuntime actions].
  cbn [fst snd App.latestStrategiesRef]. now rewrite sends_keep_ref.
Qed.

Lemma loop_ref (rts : list StrategyRuntime.t)
    (acc : App.World * gmap string StrategyRuntime.t * bool) :
  App.latestStrategiesRef
    (fold_left
       (App.processOne evaluateStrategy sendEnv streamName newCandle)
       rts acc).1.1
  = fold_left store rts (App.latestStrategiesRef acc.1.1).
Proof.
  revert acc. induction rts as [|rt rts IH]; intros acc; [reflexivity|].
  simpl. rewrite IH, processOne_ref. reflexivity.
Qed.

Lemma store_other (rts : list StrategyRuntime.t)
    (m : gmap string StrategyRuntime.t) (k : string) :
  k ∉ key <$> rts -> fold_left store rts m !! k = m !! k.
Proof.
  revert m. induction rts as [|rt rts IH]; intros m Hk; [reflexivity|].
  rewrite fmap_cons in Hk. apply not_elem_of_cons in Hk as [Hne Hk].
  simpl. rewrite (IH _ Hk). unfold store.
  destruct (onStream rt); [|reflexivity].
  apply lookup_insert_ne. congruence.
Qed.

Lemma store_member (rts : list StrategyRuntime.t)
    (m : gmap string StrategyRuntime.t) (rt : StrategyRuntime.t) :
  NoDup (key <$> rts) -> rt ∈ rts -> onStream rt = true ->
  fold_left store rts m !! key rt = Some (advanced rt).
Proof.
  revert m. induction rts as [|r rts IH]; intros m Hnd Hin Hon.
  - inversion Hin.
  - rewrite fmap_cons in Hnd. apply NoDup_cons in Hnd as [Hr Hnd].
    simpl. apply elem_of_cons in Hin as [<- | Hin].
    + rewrite (store_other _ _ _ Hr). unfold store. rewrite Hon.
      apply lookup_insert_eq.
    + apply (IH _ Hnd Hin Hon).
Qed.

(** A runtime on the stream, registered under its config's id, is replaced
    by its advanced form. *)
Lemma processGlobalRealtimeCandle_ref (w : App.World) (id : string)
    (rt : StrategyRuntime.t) :
  map_Forall (fun k r => StrategyConfig.id (StrategyRuntime.config r) = k)
    (App.latestStrategiesRef w) ->
  App.latestStrategiesRef w !! id = Some rt ->
  App.targetStream (StrategyRuntime.config rt) = streamName ->
  App.latestStrategiesRef
    (App.processGlobalRealtimeCandle evaluateStrategy sendEnv streamName
       newCandle w) !! id
  = Some (fst (App.processRuntime evaluateStrategy newCandle rt)).
Proof.
  intros Hkeys Hrt Hstream. unfold App.processGlobalRealtimeCandle.
  set (l := map_to_list (App.latestStrategiesRef w)).
  assert (Href := loop_ref (map snd l) (w, ∅, false)).
  destruct (fold_left _ (map snd l) (w, ∅, false)) as [[w1 updates] has].
  cbn [fst snd] in Href.
  assert (Hw1 : App.latestStrategiesRef w1 !! id = Some (advanced rt)).
  { rewrite Href.
    assert (Hk : key <$> map snd l = l.*1).
    { change (map snd l) with (l.*2). rewrite <- list_fmap_compose.
      apply list_fmap_ext. intros i [k r] Hl.
      apply list_elem_of_lookup_2, elem_of_map_to_list in Hl.
      exact (Hkeys k r Hl). }
    replace id with (key rt) by exact (Hkeys id rt Hrt).
    apply store_member.
    - rewrite Hk. apply NoDup_fst_map_to_list.
    - change (map snd l) with (l.*2).
      apply (list_elem_of_fmap_2 snd l (id, rt)).
      apply elem_of_map_to_list. exact Hrt.
    - unfold onStream. rewrite Hstream. apply String.eqb_refl. }
  destruct has; exact Hw1.
Qed.

End Registry.



(** ** handleManualOrder *)

Section ManualOrder.

Import PrimFloat.

(** A positive number is truthy. *)
Lemma positive_truthy (x : float) :
  (0 <? x)%float = true -> JS.truthy x = true.
Proof.
  unfold JS.truthy, is_nan.
  rewrite FloatAxioms.ltb_spec, !FloatAxioms.eqb_spec.
  change (Prim2SF 0) with (S754_zero false).
  destruct (Prim2SF x) as [b | b | | b m e];
    try destruct b; try reflexivity; try discriminate.
  intros _. unfold SFeqb. simpl.
  now rewrite Z.compare_refl, Pos.compare_cont_refl.
Qed.

Lemma manualPrice_positive (rt : StrategyRuntime.t) :
  (0 <? StrategyRuntime.lastPrice rt)%float = true ->
  App.manualPrice rt = StrategyRuntime.lastPrice rt.
Proof.
  intros H. unfold App.manualPrice, JS.or.
  now rewrite (positive_truthy _ H).
Qed.

Lemma manualPrice_not_positive (rt : StrategyRuntime.t) :
  (StrategyRuntime.lastPrice rt <=? 0)%float = true ->
  (0 <? App.manualPrice rt)%float = false.
Proof.
  intros H. unfold App.manualPrice, JS.or.
  destruct (JS.truthy _); [|reflexivity].
  apply FloatFacts.leb_0_not_ltb. exact H.
Qed.

(** [0 * price] is a zero when the last price is not infinite. *)
Lemma zero_times_manualPrice (rt : StrategyRuntime.t) :
  is_infinity (StrategyRuntime.lastPrice rt) = false ->
  (0 * App.manualPrice rt =? 0)%float = true.
Proof.
  intros H. unfold App.manualPrice, JS.or.
  destruct (JS.truthy _) eqn:Ht; [|reflexivity].
  apply FloatFacts.mul_0_finite; [exact H|].
  unfold JS.truthy in Ht. apply negb_true_iff, orb_false_iff in Ht.
  apply Ht.
Qed.

(** [0 * price] is [NaN] when the last price is infinite. *)
Lemma zero_times_infinite_manualPrice (rt : StrategyRuntime.t) :
  is_infinity (StrategyRuntime.lastPrice rt) = true ->
  JS.isNaN (0 * App.manualPrice rt) = true.
Proof.
  intros H. unfold App.manualPrice, JS.or, JS.truthy.
  rewrite (FloatFacts.infinite_not_zero _ H). cbn [negb].
  apply FloatFacts.mul_0_infinite. exact H.
Qed.

(** The runtime [handleManualOrder] stores for the active strategy. *)
Lemma handleManualOrder_found (now : App.Clock) (env : App.SendEnv)
    (type : Direction) (w : App.World) (rt : StrategyRuntime.t) :
  App.latestStrategiesRef w !! App.activeStrategyId w = Some rt ->
  let w' := App.handleManualOrder now env type w in
  let rt' :=
    StrategyRuntime.mk (StrategyRuntime.config rt)
      (StrategyRuntime.candles rt)
      (fst (App.manualNewState now type rt))
      (snd (App.manualNewState now type rt))
      (StrategyRuntime.lastPrice rt) in
  App.emitted w w' = [App.manualPayload now type rt] /\
  App.latestStrategiesRef w'
    = <[App.activeStrategyId w := rt']> (App.latestStrategiesRef w) /\
  App.latestStrategiesRef w' !! App.activeStrategyId w = Some rt'.
Proof.
  intros Hrt w' rt'. subst w'. unfold App.handleManualOrder.
  rewrite Hrt. subst rt'.
  destruct (App.manualNewState now type rt) as [newState newStats].
  cbv zeta. cbn [fst snd App.activeStrategyId].
  set (w1 := App.mkWorld _ _ _ _ _ _).
  destruct (sendWebhook_ref env (App.manualPayload now type rt)
              (App.activeStrategyId w)
              (StrategyConfig.name (StrategyRuntime.config rt)) w1)
    as (Href & _ & _).
  split; [apply sendWebhook_emitted; reflexivity|].
  rewrite Href. split; [reflexivity|]. apply lookup_insert_eq.
Qed.

End ManualOrder.

(** C4.  A manual override on the active strategy emits exactly one action.
    An override to LONG or SHORT adds exactly 1 to [dailyTradeCount], and
    nothing in it looks at [maxDailyTrades]: it emits and counts also when
    the count has reached the cap.  An override to FLAT emits an action whose
    execution quantity is the position's whole [remainingQuantity], and
    leaves [dailyTradeCount] as it was. *)
Theorem manualOrder_emits_once (now : App.Clock) (env : App.SendEnv)
    (type : Direction) (w : App.World) (rt : StrategyRuntime.t) :
  App.latestStrategiesRef w !! App.activeStrategyId w = Some rt ->
  let w' := App.handleManualOrder now env type w in
  let payload := App.manualPayload now type rt in
  let count r := TradeStats.dailyTradeCount (StrategyRuntime.tradeStats r) in
  exists rt',
    App.latestStrategiesRef w' !! App.activeStrategyId w = Some rt' /\
    App.emitted w w' = [payload] /\
    WebhookPayload.strategy_name payload = "Manual_Override" /\
    (type <> FLAT -> count rt' = count rt + 1) /\
    (type <> FLAT ->
     StrategyConfig.maxDailyTrades (StrategyRuntime.config rt) <= count rt ->
     App.emitted w w' = [payload] /\ count rt' = count rt + 1) /\
    (type = FLAT ->
     WebhookPayload.execution_quantity payload
     = PositionState.remainingQuantity (StrategyRuntime.positionState rt) /\
     count rt' = count rt).
Proof.
  intros Hrt w' payload count.
  destruct (handleManualOrder_found now env type w rt Hrt)
    as (Hem & _ & Hnew).
  eexists. split; [exact Hnew|]. split; [exact Hem|].
  split; [destruct type; reflexivity|].
  unfold count, payload. simpl.
  split; [|split].
  - intros Hty. destruct type; [contradiction| |]; reflexivity.
  - intros Hty _. split; [exact Hem|].
    destruct type; [contradiction| |]; reflexivity.
  - intros ->. split; reflexivity.
Qed.

(** A manual LONG order at the daily cap. *)
Lemma manualOrder_emits_once_witness :
  App.latestStrategiesRef Samples.world
    !! App.activeStrategyId Samples.world = Some Samples.runtime /\
  App.emitted Samples.world
    (App.handleManualOrder Samples.clock Samples.sendEnv LONG Samples.world)
  = [App.manualPayload Samples.clock LONG Samples.runtime].
Proof.
  split; [reflexivity|].
  destruct (manualOrder_emits_once Samples.clock Samples.sendEnv LONG
              Samples.world Samples.runtime ltac:(reflexivity))
    as (rt' & _ & H & _).
  exact H.
Defined.

(** C5, as amended.  A manual entry (LONG or SHORT) at a positive last
    price, from FLAT or from any other position, stores a position with
    [remainingQuantity = initialQuantity = tradeAmount / price], the entry
    price equal to that price, empty [tpLevelsHit] and [slLevelsHit], and
    [dailyTradeCount] one higher.  [highestPrice] is the entry price on a
    LONG entry and 0 on a SHORT one; [lowestPrice] is the entry price on a
    SHORT entry and 0 on a LONG one. *)
Theorem manualEntry_state (now : App.Clock) (env : App.SendEnv)
    (type : Direction) (w : App.World) (rt : StrategyRuntime.t) :
  App.latestStrategiesRef w !! App.activeStrategyId w = Some rt ->
  type <> FLAT ->
  (0 <? StrategyRuntime.lastPrice rt)%float = true ->
  let w' := App.handleManualOrder now env type w in
  let price := StrategyRuntime.lastPrice rt in
  let quantity :=
    (StrategyConfig.tradeAmount (StrategyRuntime.config rt) / price)%float in
  exists rt',
    App.latestStrategiesRef w' !! App.activeStrategyId w = Some rt' /\
    StrategyRuntime.positionState rt'
    = PositionState.mk type quantity quantity price
        (match type with LONG => price | _ => 0%float end)
        (match type with SHORT => price | _ => 0%float end)
        (App.getTime now) [] [] /\
    TradeStats.dailyTradeCount (StrategyRuntime.tradeStats rt')
    = TradeStats.dailyTradeCount (StrategyRuntime.tradeStats rt) + 1 /\
    WebhookPayload.execution_price (App.manualPayload now type rt) = price /\
    WebhookPayload.execution_quantity (App.manualPayload now type rt)
    = quantity.
Proof.
  intros Hrt Hty Hpos w' price quantity.
  destruct (handleManualOrder_found now env type w rt Hrt)
    as (_ & _ & Hnew).
  eexists. split; [exact Hnew|].
  unfold App.manualPayload, App.manualNewState, App.manualTerms.
  subst price quantity.
  rewrite (manualPrice_positive rt Hpos), Hpos.
  destruct type; [contradiction| |]; simpl; repeat split.
Qed.

(** Entering LONG at 100 with a trade amount of 1000. *)
Lemma manualEntry_state_witness :
  (App.latestStrategiesRef Samples.world
     !! App.activeStrategyId Samples.world = Some Samples.runtime /\
   LONG <> FLAT /\
   (0 <? StrategyRuntime.lastPrice Samples.runtime)%float = true) /\
  WebhookPayload.execution_quantity
    (App.manualPayload Samples.clock LONG Samples.runtime)
  = (1000 / 100)%float.
Proof.
  split; [split; [reflexivity|split; [discriminate|reflexivity]]|].
  destruct (manualEntry_state Samples.clock Samples.sendEnv LONG
              Samples.world Samples.runtime ltac:(reflexivity)
              ltac:(discriminate) ltac:(reflexivity))
    as (rt' & _ & _ & _ & _ & H).
  exact H.
Defined.

(** C5 fails as stated: after a manual LONG entry from FLAT at the price 100
    the lowest price since entry is 0, not the entry price. *)
Lemma manualEntry_lowest_not_seeded :
  let rt := Samples.runtime in
  let w' :=
    App.handleManualOrder Samples.clock Samples.sendEnv LONG Samples.world in
  PositionState.direction (StrategyRuntime.positionState rt) = FLAT /\
  (0 <? StrategyRuntime.lastPrice rt)%float = true /\
  exists rt',
    App.latestStrategiesRef w' !! "s1" = Some rt' /\
    let st := StrategyRuntime.positionState rt' in
    PositionState.entryPrice st = 100%float /\
    PositionState.highestPrice st = 100%float /\
    PositionState.lowestPrice st = 0%float /\
    (PositionState.lowestPrice st =? PositionState.entryPrice st)%float
    = false.
Proof.
  split; [reflexivity|]. split; [reflexivity|].
  eexists. split; [vm_compute; reflexivity|].
  repeat split.
Qed.

(** C6, as amended.  A manual override never resets [dailyTradeCount] and
    never changes [lastTradeDate], whatever the date of the order: LONG and
    SHORT add 1 to the stored count, FLAT leaves the trade statistics as
    they were. *)
Theorem manualOrder_keeps_date (now : App.Clock) (env : App.SendEnv)
    (type : Direction) (w : App.World) (rt : StrategyRuntime.t) :
  App.latestStrategiesRef w !! App.activeStrategyId w = Some rt ->
  let w' := App.handleManualOrder now env type w in
  let stats := StrategyRuntime.tradeStats rt in
  exists rt',
    App.latestStrategiesRef w' !! App.activeStrategyId w = Some rt' /\
    TradeStats.lastTradeDate (StrategyRuntime.tradeStats rt')
    = TradeStats.lastTradeDate stats /\
    TradeStats.dailyTradeCount (StrategyRuntime.tradeStats rt')
    = match type with
      | FLAT => TradeStats.dailyTradeCount stats
      | _ => TradeStats.dailyTradeCount stats + 1
      end.
Proof.
  intros Hrt w' stats.
  destruct (handleManualOrder_found now env type w rt Hrt)
    as (_ & _ & Hnew).
  eexists. split; [exact Hnew|].
  destruct type; split; reflexivity.
Qed.

(** A manual SHORT order the day after the last trade. *)
Lemma manualOrder_keeps_date_witness :
  App.latestStrategiesRef Samples.world
    !! App.activeStrategyId Samples.world = Some Samples.runtime /\
  exists rt',
    App.latestStrategiesRef
      (App.handleManualOrder Samples.clock Samples.sendEnv SHORT
         Samples.world) !! "s1" = Some rt' /\
    TradeStats.lastTradeDate (StrategyRuntime.tradeStats rt') = "2024-01-01".
Proof.
  split; [reflexivity|].
  destruct (manualOrder_keeps_date Samples.clock Samples.sendEnv SHORT
              Samples.world Samples.runtime ltac:(reflexivity))
    as (rt' & H1 & H2 & _).
  exists rt'. split; [exact H1 | exact H2].
Defined.

(** C6 fails as stated: a manual LONG order placed on 2024-01-02 on a
    strategy whose last trade date is 2024-01-01 with three trades counted
    leaves the count at 4, not 1, and the last trade date at 2024-01-01. *)
Lemma manualOrder_no_daily_reset :
  let w' :=
    App.handleManualOrder Samples.clock Samples.sendEnv LONG Samples.world in
  let today := App.isoDate (App.toISOString Samples.clock) in
  today = "2024-01-02" /\
  TradeStats.lastTradeDate (StrategyRuntime.tradeStats Samples.runtime)
    <> today /\
  exists rt',
    App.latestStrategiesRef w' !! "s1" = Some rt' /\
    TradeStats.dailyTradeCount (StrategyRuntime.tradeStats rt') = 4 /\
    TradeStats.dailyTradeCount (StrategyRuntime.tradeStats rt') <> 1 /\
    TradeStats.lastTradeDate (StrategyRuntime.tradeStats rt') = "2024-01-01" /\
    TradeStats.lastTradeDate (StrategyRuntime.tradeStats rt') <> today.
Proof.
  split; [reflexivity|]. split; [vm_compute; discriminate|].
  eexists. split; [vm_compute; reflexivity|].
  repeat split; vm_compute; discriminate.
Qed.

(** C7.  The two quantity computations that divide by the price, those of a
    manual LONG and of a manual SHORT order, give 0 when the last price is
    less than or equal to 0: the order still goes through, its action
    carries the execution quantity 0 and the stored position the quantities
    0.  (The model is total: no input makes [handleManualOrder] fail.) *)
Theorem manualOrder_nonpositive_price (now : App.Clock) (env : App.SendEnv)
    (type : Direction) (w : App.World) (rt : StrategyRuntime.t) :
  App.latestStrategiesRef w !! App.activeStrategyId w = Some rt ->
  type <> FLAT ->
  (StrategyRuntime.lastPrice rt <=? 0)%float = true ->
  let w' := App.handleManualOrder now env type w in
  exists payload rt',
    App.emitted w w' = [payload] /\
    WebhookPayload.execution_quantity payload = 0%float /\
    App.latestStrategiesRef w' !! App.activeStrategyId w = Some rt' /\
    PositionState.direction (StrategyRuntime.positionState rt') = type /\
    PositionState.initialQuantity (StrategyRuntime.positionState rt')
    = 0%float /\
    PositionState.remainingQuantity (StrategyRuntime.positionState rt')
    = 0%float.
Proof.
  intros Hrt Hty Hle w'.
  destruct (handleManualOrder_found now env type w rt Hrt)
    as (Hem & _ & Hnew).
  eexists. eexists. split; [exact Hem|]. split; [|split; [exact Hnew|]].
  - unfold App.manualPayload, App.manualTerms.
    rewrite (manualPrice_not_positive rt Hle).
    destruct type; [contradiction| |]; reflexivity.
  - unfold App.manualNewState, App.manualTerms.
    rewrite (manualPrice_not_positive rt Hle).
    destruct type; [contradiction| |]; repeat split.
Qed.

(** A manual LONG order at the last price 0. *)
Lemma manualOrder_nonpositive_price_witness :
  (App.latestStrategiesRef (Samples.worldAt 0)
     !! App.activeStrategyId (Samples.worldAt 0) <> None /\
   LONG <> FLAT /\ (0 <=? 0)%float = true) /\
  exists payload,
    App.emitted (Samples.worldAt 0)
      (App.handleManualOrder Samples.clock Samples.sendEnv LONG
         (Samples.worldAt 0)) = [payload] /\
    WebhookPayload.execution_quantity payload = 0%float.
Proof.
  split; [split; [discriminate|split; [discriminate|reflexivity]]|].
  destruct (manualOrder_nonpositive_price Samples.clock Samples.sendEnv LONG
              (Samples.worldAt 0) _ ltac:(reflexivity) ltac:(discriminate)
              ltac:(reflexivity))
    as (payload & rt' & H1 & H2 & _).
  exists payload. split; [exact H1 | exact H2].
Defined.

(** C10, as amended.  A manual FLAT order on a strategy that is already
    FLAT with nothing left still emits exactly one action: "buy_to_cover",
    position "flat", execution quantity 0.  Its trade amount is
    [0 * price]: equal to 0 when the last price is not infinite, and [NaN]
    when the last price is [Infinity] or [-Infinity].  The stored position
    is the initial FLAT state and the trade statistics, [dailyTradeCount]
    among them, are unchanged. *)
Theorem manualFlat_when_flat (now : App.Clock) (env : App.SendEnv)
    (w : App.World) (rt : StrategyRuntime.t) :
  App.latestStrategiesRef w !! App.activeStrategyId w = Some rt ->
  PositionState.direction (StrategyRuntime.positionState rt) = FLAT ->
  PositionState.remainingQuantity (StrategyRuntime.positionState rt)
    = 0%float ->
  let w' := App.handleManualOrder now env FLAT w in
  exists payload rt',
    App.emitted w w' = [payload] /\
    WebhookPayload.action payload = "buy_to_cover" /\
    WebhookPayload.position payload = "flat" /\
    WebhookPayload.execution_quantity payload = 0%float /\
    (PrimFloat.is_infinity (StrategyRuntime.lastPrice rt) = false ->
     (WebhookPayload.trade_amount payload =? 0)%float = true) /\
    (PrimFloat.is_infinity (StrategyRuntime.lastPrice rt) = true ->
     PrimFloat.is_nan (WebhookPayload.trade_amount payload) = true) /\
    App.latestStrategiesRef w' !! App.activeStrategyId w = Some rt' /\
    StrategyRuntime.positionState rt' = App.INITIAL_POS_STATE /\
    StrategyRuntime.tradeStats rt' = StrategyRuntime.tradeStats rt.
Proof.
  intros Hrt Hdir Hq w'.
  destruct (handleManualOrder_found now env FLAT w rt Hrt)
    as (Hem & _ & Hnew).
  eexists. eexists. split; [exact Hem|].
  unfold App.manualPayload, App.manualTerms. rewrite Hdir, Hq. simpl.
  split; [reflexivity|]. split; [reflexivity|]. split; [reflexivity|].
  split; [intros Hfin; apply zero_times_manualPrice; exact Hfin|].
  split; [intros Hinf; apply zero_times_infinite_manualPrice; exact Hinf|].
  split; [exact Hnew|]. split; reflexivity.
Qed.

(** A manual FLAT order on the sample registry, which is FLAT. *)
Lemma manualFlat_when_flat_witness :
  (PositionState.direction (StrategyRuntime.positionState Samples.runtime)
   = FLAT /\
   PositionState.remainingQuantity
     (StrategyRuntime.positionState Samples.runtime) = 0%float) /\
  exists payload,
    App.emitted Samples.world
      (App.handleManualOrder Samples.clock Samples.sendEnv FLAT
         Samples.world) = [payload] /\
    WebhookPayload.action payload = "buy_to_cover" /\
    (WebhookPayload.trade_amount payload =? 0)%float = true.
Proof.
  split; [repeat split|].
  destruct (manualFlat_when_flat Samples.clock Samples.sendEnv Samples.world
              Samples.runtime ltac:(reflexivity) ltac:(reflexivity)
              ltac:(reflexivity))
    as (payload & rt' & H1 & H2 & _ & _ & H3 & _).
  exists payload. split; [exact H1|]. split; [exact H2|].
  apply H3. reflexivity.
Defined.

(** C10 fails as stated: a manual FLAT order on a FLAT strategy with nothing
    left whose last price is [Infinity] emits a trade amount that is [NaN],
    not 0. *)
Lemma manualFlat_infinite_price :
  let w := Samples.worldAt PrimFloat.infinity in
  let w' := App.handleManualOrder Samples.clock Samples.sendEnv FLAT w in
  (exists rt,
     App.latestStrategiesRef w !! App.activeStrategyId w = Some rt /\
     PositionState.direction (StrategyRuntime.positionState rt) = FLAT /\
     PositionState.remainingQuantity (StrategyRuntime.positionState rt)
     = 0%float) /\
  exists payload,
    App.emitted w w' = [payload] /\
    WebhookPayload.action payload = "buy_to_cover" /\
    WebhookPayload.position payload = "flat" /\
    PrimFloat.is_nan (WebhookPayload.trade_amount payload) = true /\
    (WebhookPayload.trade_amount payload =? 0)%float = false.
Proof.
  split.
  - eexists. split; [vm_compute; reflexivity|]. split; reflexivity.
  - eexists. split; [vm_compute; reflexivity|]. repeat split.
Qed.

(** ** updateStrategyConfig *)

(** C8, as amended.  For a registered runtime and every partial update,
    [updateStrategyConfig] stores the runtime with the updates merged into
    its config: a field the update gives takes the given value, every other
    field keeps the value it had.  If the update gives a non-empty symbol
    other than the current one, or a non-empty interval other than the
    current one, the candle window becomes empty and [lastPrice] 0;
    otherwise both are kept, also when the update sets the symbol or the
    interval to the empty string.  In every case [positionState] and
    [tradeStats] are the ones the runtime had, and no other runtime is
    touched. *)
Theorem updateStrategyConfig_frame (id : string)
    (updates : StrategyConfig.partial) (w : App.World)
    (rt : StrategyRuntime.t) :
  App.latestStrategiesRef w !! id = Some rt ->
  let w' := App.updateStrategyConfig id updates w in
  let oldConfig := StrategyRuntime.config rt in
  let changes (given : option string) (current : string) :=
    exists v, given = Some v /\ v <> EmptyString /\ v <> current in
  let reset :=
    changes (StrategyConfig.symbol' updates)
      (StrategyConfig.symbol oldConfig)
    \/ changes (StrategyConfig.interval' updates)
         (StrategyConfig.interval oldConfig) in
  exists rt',
    App.latestStrategiesRef w' !! id = Some rt' /\
    App.strategies w' = App.latestStrategiesRef w' /\
    (let newConfig := StrategyRuntime.config rt' in
     StrategyConfig.id newConfig
     = default (StrategyConfig.id oldConfig) (StrategyConfig.id' updates) /\
     StrategyConfig.name newConfig
     = default (StrategyConfig.name oldConfig)
         (StrategyConfig.name' updates) /\
     StrategyConfig.symbol newConfig
     = default (StrategyConfig.symbol oldConfig)
         (StrategyConfig.symbol' updates) /\
     StrategyConfig.interval newConfig
     = default (StrategyConfig.interval oldConfig)
         (StrategyConfig.interval' updates) /\
     StrategyConfig.macdFast newConfig
     = default (StrategyConfig.macdFast oldConfig)
         (StrategyConfig.macdFast' updates) /\
     StrategyConfig.macdSlow newConfig
     = default (StrategyConfig.macdSlow oldConfig)
         (StrategyConfig.macdSlow' updates) /\
     StrategyConfig.macdSignal newConfig
     = default (StrategyConfig.macdSignal oldConfig)
         (StrategyConfig.macdSignal' updates) /\
     StrategyConfig.tradeAmount newConfig
     = default (StrategyConfig.tradeAmount oldConfig)
         (StrategyConfig.tradeAmount' updates) /\
     StrategyConfig.maxDailyTrades newConfig
     = default (StrategyConfig.maxDailyTrades oldConfig)
         (StrategyConfig.maxDailyTrades' updates) /\
     StrategyConfig.webhookUrl newConfig
     = default (StrategyConfig.webhookUrl oldConfig)
         (StrategyConfig.webhookUrl' updates) /\
     StrategyConfig.secret newConfig
     = default (StrategyConfig.secret oldConfig)
         (StrategyConfig.secret' updates)) /\
    (reset ->
     StrategyRuntime.candles rt' = [] /\
     StrategyRuntime.lastPrice rt' = 0%float) /\
    (~ reset ->
     StrategyRuntime.candles rt' = StrategyRuntime.candles rt /\
     StrategyRuntime.lastPrice rt' = StrategyRuntime.lastPrice rt) /\
    StrategyRuntime.positionState rt' = StrategyRuntime.positionState rt /\
    StrategyRuntime.tradeStats rt' = StrategyRuntime.tradeStats rt /\
    (forall other : string, other <> id ->
       App.latestStrategiesRef w' !! other
       = App.latestStrategiesRef w !! other).
Proof.
  intros Hrt w' oldConfig changes reset.
  subst w'. unfold App.updateStrategyConfig. rewrite Hrt. cbv zeta.
  fold oldConfig.
  set (flag := match StrategyConfig.interval' updates with
               | Some i => _
               | None => _
               end).
  assert (Hgiven : forall (given : option string) (current : string),
            match given with
            | Some v =>
                App.truthyString v && negb (String.eqb v current)
            | None => false
            end = true <-> changes given current).
  { intros given current. unfold changes. destruct given as [v|].
    - rewrite andb_true_iff, negb_true_iff, String.eqb_neq.
      unfold App.truthyString. rewrite negb_true_iff, String.eqb_neq.
      split.
      + intros [H1 H2]. now exists v.
      + intros (v' & Hv & H1 & H2). apply (inj Some) in Hv. now subst v'.
    - split; [discriminate|]. intros (v' & Hv & _). discriminate Hv. }
  assert (Hflag : flag = true <-> reset).
  { unfold reset. rewrite <- !Hgiven. subst flag.
    destruct (StrategyConfig.symbol' updates) as [sy|];
      destruct (StrategyConfig.interval' updates) as [iv|];
      repeat match goal with
             | |- context [App.truthyString ?x && negb (String.eqb ?x ?y)] =>
                 destruct (App.truthyString x && negb (String.eqb x y))
             end;
      intuition discriminate. }
  eexists. cbn [App.latestStrategiesRef App.strategies].
  split; [apply lookup_insert_eq|]. split; [reflexivity|].
  cbn [StrategyRuntime.config StrategyRuntime.candles
       StrategyRuntime.lastPrice StrategyRuntime.positionState
       StrategyRuntime.tradeStats].
  split; [cbv zeta; unfold StrategyConfig.merge; repeat split|].
  split; [|split; [|split; [|split]]].
  - intros Hc. apply Hflag in Hc. rewrite Hc. split; reflexivity.
  - intros Hc. destruct flag; [exfalso; apply Hc, Hflag; reflexivity|].
    split; reflexivity.
  - reflexivity.
  - reflexivity.
  - intros other Hne. apply lookup_insert_ne. congruence.
Qed.

(** Switching the sample strategy to another symbol. *)
Lemma updateStrategyConfig_frame_witness :
  let updates :=
    StrategyConfig.mkPartial None None (Some "ETHUSDT") None None None None
      None None None None in
  App.latestStrategiesRef Samples.world !! "s1" = Some Samples.runtime /\
  exists rt',
    App.latestStrategiesRef
      (App.updateStrategyConfig "s1" updates Samples.world) !! "s1"
    = Some rt' /\
    StrategyConfig.symbol (StrategyRuntime.config rt') = "ETHUSDT" /\
    StrategyRuntime.candles rt' = [] /\
    StrategyRuntime.positionState rt'
    = StrategyRuntime.positionState Samples.runtime.
Proof.
  intros updates. split; [reflexivity|].
  destruct (updateStrategyConfig_frame "s1" updates Samples.world
              Samples.runtime eq_refl)
    as (rt' & H1 & _ & (_ & _ & Hsym & _) & Hreset & _ & Hpos & _).
  exists rt'. split; [exact H1|]. split; [exact Hsym|].
  split; [|exact Hpos].
  apply Hreset. left. exists "ETHUSDT".
  split; [reflexivity|]. split; discriminate.
Defined.

(** C8 fails as stated: the update that sets the symbol of the sample
    strategy to the empty string changes the symbol, and the five candles
    and the last price 100 stay. *)
Lemma updateStrategyConfig_empty_symbol :
  let updates :=
    StrategyConfig.mkPartial None None (Some EmptyString) None None None
      None None None None None in
  let w' := App.updateStrategyConfig "s1" updates Samples.world in
  App.latestStrategiesRef Samples.world !! "s1" = Some Samples.runtime /\
  exists rt',
    App.latestStrategiesRef w' !! "s1" = Some rt' /\
    StrategyConfig.symbol (StrategyRuntime.config rt') = EmptyString /\
    StrategyConfig.symbol (StrategyRuntime.config rt')
    <> StrategyConfig.symbol (StrategyRuntime.config Samples.runtime) /\
    StrategyRuntime.candles rt' = Samples.closes1to5 /\
    StrategyRuntime.candles rt' <> [] /\
    StrategyRuntime.lastPrice rt' = 100%float /\
    (StrategyRuntime.lastPrice rt' =? 0)%float = false.
Proof.
  split; [reflexivity|].
  eexists. split; [vm_compute; reflexivity|].
  repeat split; discriminate.
Qed.

(** * Further properties of the indicator engine *)

Section IndicatorMore.

Import PrimFloat.
Local Open Scope nat_scope.

Lemma fold_left_pointwise {A B : Type} (f g : A -> B -> A) (l : list B)
    (a : A) :
  (forall a b, b ∈ l -> f a b = g a b) -> fold_left f l a = fold_left g l a.
Proof.
  revert a. induction l as [|b l IH]; intros a H; [reflexivity|].
  simpl. rewrite (H a b) by apply list_elem_of_here.
  apply IH. intros a' b' Hb'. apply H. now apply list_elem_of_further.
Qed.

(** Below [P - 1] every EMA value is [NaN], whatever the window. *)
Lemma calculateEMA_warmup (candles : list Candle.t) (P i : nat) :
  1 <= P -> i < P - 1 ->
  default nan (Indicator.calculateEMA candles P !! i) = nan.
Proof.
  intros H1 Hi.
  destruct (Nat.lt_ge_cases (length candles) P) as [Hs|Hl].
  - rewrite calculateEMA_short by exact Hs. unfold JS.nanArray.
    destruct (replicate _ _ !! i) as [x|] eqn:Hx; [|reflexivity].
    apply lookup_replicate in Hx as [-> _]. reflexivity.
  - destruct (calculateEMA_long candles P H1 Hl) as (_ & Hpad & _).
    now rewrite (Hpad i Hi).
Qed.

Lemma closeAt_app_l (candles more : list Candle.t) (i : nat) :
  i < length candles ->
  Indicator.closeAt (candles ++ more) i = Indicator.closeAt candles i.
Proof.
  intros Hi. unfold Indicator.closeAt. now rewrite lookup_app_l.
Qed.

Lemma calculateEMA_extend_lookup (candles more : list Candle.t) (P : nat) :
  1 <= P -> P <= length candles ->
  forall i, i < length candles ->
    Indicator.calculateEMA (candles ++ more) P !! i
    = Indicator.calculateEMA candles P !! i.
Proof.
  intros H1 HP.
  assert (HP' : P <= length (candles ++ more))
    by (rewrite length_app; lia).
  destruct (calculateEMA_long candles P H1 HP) as (L1 & Pad1 & Seed1 & Rec1).
  destruct (calculateEMA_long (candles ++ more) P H1 HP')
    as (L2 & Pad2 & Seed2 & Rec2).
  intros i. induction i as [i IH] using lt_wf_ind. intros Hi.
  destruct (Nat.lt_ge_cases i (P - 1)) as [Hlt|Hge].
  { now rewrite Pad1, Pad2. }
  destruct (Nat.eq_dec i (P - 1)) as [->|Hne].
  { rewrite Seed1, Seed2. do 3 f_equal. unfold Indicator.closes.
    change (map ?f ?l) with (f <$> l).
    rewrite fmap_app. apply take_app_le. rewrite length_fmap. exact HP. }
  rewrite Rec1 by lia. rewrite Rec2 by (rewrite length_app; lia).
  rewrite (IH (i - 1)) by lia. unfold Indicator.emaNext.
  now rewrite closeAt_app_l by exact Hi.
Qed.

End IndicatorMore.

(** X1.  For a period of at least 1, candles arriving after a window do
    not change the EMA values of the window: the EMA of [candles ++ more],
    cut to the length of [candles], is the EMA of [candles]. *)
Theorem calculateEMA_prefix (candles more : list Candle.t) (P : nat) :
  (1 <= P)%nat ->
  take (length candles) (Indicator.calculateEMA (candles ++ more) P)
  = Indicator.calculateEMA candles P.
Proof.
  intros H1. apply list_eq. intros i.
  destruct (Nat.lt_ge_cases i (length candles)) as [Hi|Hi].
  2:{ rewrite lookup_take_ge by exact Hi. symmetry.
      apply lookup_ge_None_2.
      destruct (Nat.lt_ge_cases (length candles) P) as [Hs|Hl].
      - rewrite calculateEMA_short by exact Hs.
        unfold JS.nanArray. rewrite length_replicate. exact Hi.
      - destruct (calculateEMA_long candles P H1 Hl) as (-> & _).
        exact Hi. }
  rewrite lookup_take_lt by exact Hi.
  destruct (Nat.lt_ge_cases (length candles) P) as [Hs|Hl].
  - rewrite (calculateEMA_short candles) by exact Hs. unfold JS.nanArray.
    rewrite lookup_replicate_2 by exact Hi.
    assert (Hw := calculateEMA_warmup (candles ++ more) P i H1 ltac:(lia)).
    destruct (Indicator.calculateEMA (candles ++ more) P !! i) as [x|] eqn:E.
    + simpl in Hw. now subst x.
    + apply lookup_ge_None_1 in E. exfalso.
      destruct (Nat.lt_ge_cases (length (candles ++ more)) P) as [Hs'|Hl'].
      * rewrite calculateEMA_short in E by exact Hs'.
        unfold JS.nanArray in E. rewrite length_replicate, length_app in E.
        lia.
      * destruct (calculateEMA_long (candles ++ more) P H1 Hl') as (L & _).
        rewrite L, length_app in E. lia.
  - apply calculateEMA_extend_lookup; assumption.
Qed.

(** The EMA(3) of the closes 1 to 5 inside a longer window. *)
Lemma calculateEMA_prefix_witness :
  (1 <= 3)%nat /\
  take 5
    (Indicator.calculateEMA
       (Samples.closes1to5 ++ [Candle.ofClose 6 9%float]) 3)
  = [PrimFloat.nan; PrimFloat.nan; 2; 3; 4]%float.
Proof.
  split; [lia|].
  exact (calculateEMA_prefix Samples.closes1to5 [Candle.ofClose 6 9%float] 3
           ltac:(lia)).
Defined.

Section Warmup.

Import PrimFloat.
Local Open Scope nat_scope.

Lemma lookup_all_nan (l : list JS.number) :
  (forall i, i < length l -> l !! i = Some nan) -> l = JS.nanArray (length l).
Proof.
  intros H. apply list_eq. intros i. unfold JS.nanArray.
  destruct (Nat.lt_ge_cases i (length l)) as [Hi|Hi].
  - now rewrite H, lookup_replicate_2.
  - rewrite (lookup_ge_None_2 l) by exact Hi. symmetry.
    apply lookup_ge_None_2. now rewrite length_replicate.
Qed.

Lemma macdLine_warmup (candles : list Candle.t) (fast slow signal i : nat) :
  1 <= fast -> 1 <= slow ->
  i < length candles -> i < Nat.max fast slow - 1 ->
  Indicator.macdLine (Indicator.calculateMACD candles fast slow signal) !! i
  = Some nan.
Proof.
  intros Hf Hs Hi Hw.
  rewrite (macdLine_lookup candles fast slow signal i Hi). cbv zeta.
  rewrite !index_lookup.
  destruct (Nat.lt_ge_cases i (fast - 1)) as [Hlt|Hge].
  - now rewrite (calculateEMA_warmup candles fast i Hf Hlt).
  - rewrite (calculateEMA_warmup candles slow i Hs) by lia.
    now rewrite orb_true_r.
Qed.

Lemma signalLine_warmup (candles : list Candle.t)
    (fast slow signal i : nat) :
  1 <= fast -> 1 <= slow -> 1 <= signal ->
  i < length candles -> i < Nat.max fast slow - 1 + (signal - 1) ->
  Indicator.macdSignalLine (Indicator.calculateMACD candles fast slow signal)
    !! i = Some nan.
Proof.
  intros Hf Hs Hg Hi Hw.
  set (r := Indicator.calculateMACD candles fast slow signal).
  assert (Ll : length (Indicator.macdLine r) = length candles)
    by apply (macdLine_length candles fast slow signal).
  change (Indicator.macdSignalLine r)
    with (Indicator.calculateEMAFromValues (Indicator.macdLine r) signal).
  destruct (Indicator.firstValidFrom (Indicator.macdLine r) 0)
    as [fv|] eqn:E.
  - destruct (firstValidFrom_Some _ _ _ E) as (d & _ & Hd).
    assert (Hge : Nat.max fast slow - 1 <= d).
    { destruct (Nat.lt_ge_cases d (Nat.max fast slow - 1)) as [Hlt|]; [|done].
      destruct Hd as (Hdl & Hnan & _). rewrite Ll in Hdl.
      unfold r in Hnan.
      rewrite (macdLine_warmup candles fast slow signal d Hf Hs Hdl Hlt)
        in Hnan.
      discriminate Hnan. }
    destruct (Nat.lt_ge_cases (length (Indicator.macdLine r) - d) signal)
      as [Hshort|Hlong].
    + rewrite (calculateEMAFromValues_short _ _ d Hd Hshort).
      apply lookup_replicate_2. now rewrite Ll.
    + destruct (calculateEMAFromValues_long _ signal d Hg Hd Hlong)
        as (_ & Hpad & _).
      apply Hpad. lia.
  - rewrite calculateEMAFromValues_none
      by exact (firstValidFrom_None _ _ E).
    apply lookup_replicate_2. now rewrite Ll.
Qed.

Lemma macdHist_warmup (candles : list Candle.t) (fast slow signal i : nat) :
  1 <= fast -> 1 <= slow -> 1 <= signal ->
  i < length candles -> i < Nat.max fast slow - 1 + (signal - 1) ->
  Indicator.macdHist (Indicator.calculateMACD candles fast slow signal) !! i
  = Some nan.
Proof.
  intros Hf Hs Hg Hi Hw.
  rewrite (macdHist_lookup candles fast slow signal i Hi). cbv zeta.
  rewrite (signalLine_warmup candles fast slow signal i) by assumption.
  f_equal. apply FloatFacts.sub_nan_r.
Qed.

(** The EMA fields of an enriched candle, read off [calculateEMA]. *)
Lemma enriched_ema_fields (candles : list Candle.t)
    (config : option Indicator.Config) (i : nat) (c : Candle.t) :
  Indicator.enrichCandlesWithIndicators candles config !! i = Some c ->
  Candle.ema7 c
    = JS.nanToUndefined (default nan (Indicator.calculateEMA candles 7 !! i))
  /\ Candle.ema25 c
    = JS.nanToUndefined (default nan (Indicator.calculateEMA candles 25 !! i))
  /\ Candle.ema99 c
    = JS.nanToUndefined (default nan (Indicator.calculateEMA candles 99 !! i)).
Proof.
  intros H. unfold Indicator.enrichCandlesWithIndicators in H.
  destruct (length candles =? 0); [discriminate|].
  rewrite list_lookup_imap in H.
  destruct (candles !! i) as [c0|] eqn:Hc; [|discriminate].
  simpl in H. injection H as <-.
  cbn [Candle.ema7 Candle.ema25 Candle.ema99]. rewrite !index_lookup.
  repeat split.
Qed.

Lemma or_nat_positive (n d : nat) : 1 <= d -> 1 <= JS.or_nat n d.
Proof. unfold JS.or_nat. destruct (Nat.eqb_spec n 0); lia. Qed.

End Warmup.

(** X2.  With periods of at least 1, [calculateMACD] gives [NaN] for the
    line below index [max(fast, slow) - 1], and for the signal line and the
    histogram below [max(fast, slow) - 1 + signal - 1].  A window shorter
    than the longer period has no defined MACD value at all. *)
Theorem calculateMACD_warmup (candles : list Candle.t)
    (fast slow signal : nat) :
  (1 <= fast)%nat -> (1 <= slow)%nat -> (1 <= signal)%nat ->
  let r := Indicator.calculateMACD candles fast slow signal in
  let n := length candles in
  let first := (Nat.max fast slow - 1)%nat in
  (forall i : nat, (i < n)%nat -> (i < first)%nat ->
     Indicator.macdLine r !! i = Some PrimFloat.nan) /\
  (forall i : nat, (i < n)%nat -> (i < first + (signal - 1))%nat ->
     Indicator.macdSignalLine r !! i = Some PrimFloat.nan /\
     Indicator.macdHist r !! i = Some PrimFloat.nan) /\
  ((n < Nat.max fast slow)%nat ->
   Indicator.macdLine r = JS.nanArray n /\
   Indicator.macdSignalLine r = JS.nanArray n /\
   Indicator.macdHist r = JS.nanArray n).
Proof.
  intros Hf Hs Hg r n first.
  assert (Hline : forall i : nat, (i < n)%nat -> (i < first)%nat ->
            Indicator.macdLine r !! i = Some PrimFloat.nan).
  { intros i Hi Hw. now apply macdLine_warmup. }
  assert (Hrest : forall i : nat, (i < n)%nat ->
            (i < first + (signal - 1))%nat ->
            Indicator.macdSignalLine r !! i = Some PrimFloat.nan /\
            Indicator.macdHist r !! i = Some PrimFloat.nan).
  { intros i Hi Hw. split.
    - now apply signalLine_warmup.
    - now apply macdHist_warmup. }
  split; [exact Hline|]. split; [exact Hrest|].
  intros Hshort.
  assert (Ll : length (Indicator.macdLine r) = n)
    by apply (macdLine_length candles fast slow signal).
  assert (Ls : length (Indicator.macdSignalLine r) = n).
  { unfold r. cbn [Indicator.calculateMACD Indicator.macdSignalLine].
    rewrite signalLine_length.
    apply (macdLine_length candles fast slow signal). }
  assert (Lh : length (Indicator.macdHist r) = n).
  { unfold r. cbn [Indicator.calculateMACD Indicator.macdHist].
    rewrite length_imap. apply (macdLine_length candles fast slow signal). }
  split; [|split].
  - rewrite <- Ll. apply lookup_all_nan. rewrite Ll.
    intros i Hi. apply Hline; [exact Hi|]. unfold first. lia.
  - rewrite <- Ls. apply lookup_all_nan. rewrite Ls.
    intros i Hi. apply Hrest; [exact Hi|]. unfold first. lia.
  - rewrite <- Lh. apply lookup_all_nan. rewrite Lh.
    intros i Hi. apply Hrest; [exact Hi|]. unfold first. lia.
Qed.

(** Five candles against the periods 12, 26 and 9. *)
Lemma calculateMACD_warmup_witness :
  ((1 <= 12)%nat /\ (1 <= 26)%nat /\ (1 <= 9)%nat) /\
  Indicator.macdHist (Indicator.calculateMACD Samples.closes1to5 12 26 9)
  = JS.nanArray 5.
Proof.
  split; [lia|].
  destruct (calculateMACD_warmup Samples.closes1to5 12 26 9 ltac:(lia)
              ltac:(lia) ltac:(lia))
    as (_ & _ & H).
  apply H. simpl. lia.
Defined.

(** X3.  On the candle at index [i] of an enriched window [ema7] is
    undefined for [i < 6], [ema25] for [i < 24] and [ema99] for [i < 98];
    with the MACD periods in force (the configured ones, or 50, 150 and 9
    where one is missing or 0), [macdLine] is undefined below
    [max(fast, slow) - 1] and [macdSignal] and [macdHist] below
    [max(fast, slow) - 1 + signal - 1]. *)
Theorem enriched_warmup (candles : list Candle.t)
    (config : option Indicator.Config) (i : nat) (c : Candle.t) :
  Indicator.enrichCandlesWithIndicators candles config !! i = Some c ->
  let fast := JS.or_nat (from_option Indicator.macdFast 0%nat config) 50 in
  let slow := JS.or_nat (from_option Indicator.macdSlow 0%nat config) 150 in
  let signal :=
    JS.or_nat (from_option Indicator.macdSignal 0%nat config) 9 in
  ((i < 6)%nat -> Candle.ema7 c = None) /\
  ((i < 24)%nat -> Candle.ema25 c = None) /\
  ((i < 98)%nat -> Candle.ema99 c = None) /\
  ((i < Nat.max fast slow - 1)%nat -> Candle.macdLine c = None) /\
  ((i < Nat.max fast slow - 1 + (signal - 1))%nat ->
   Candle.macdSignal c = None /\ Candle.macdHist c = None).
Proof.
  intros H fast slow signal.
  destruct (enriched_ema_fields _ _ _ _ H) as (-> & -> & ->).
  destruct (enriched_fields _ _ _ _ H) as (Hi & -> & -> & ->).
  fold fast slow signal.
  assert (Hf : (1 <= fast)%nat) by (apply or_nat_positive; lia).
  assert (Hs : (1 <= slow)%nat) by (apply or_nat_positive; lia).
  assert (Hg : (1 <= signal)%nat) by (apply or_nat_positive; lia).
  split; [|split; [|split; [|split]]].
  - intros Hw. now rewrite calculateEMA_warmup by lia.
  - intros Hw. now rewrite calculateEMA_warmup by lia.
  - intros Hw. now rewrite calculateEMA_warmup by lia.
  - intros Hw. now rewrite macdLine_warmup.
  - intros Hw. rewrite signalLine_warmup, macdHist_warmup by assumption.
    split; reflexivity.
Qed.

(** The third candle of five, enriched without a config. *)
Lemma enriched_warmup_witness :
  exists c,
    Indicator.enrichCandlesWithIndicators Samples.closes1to5 None !! 2%nat
    = Some c /\
    Candle.ema7 c = None /\ Candle.macdHist c = None.
Proof.
  eexists. split; [reflexivity|].
  destruct (enriched_warmup Samples.closes1to5 None 2 _ eq_refl)
    as (H7 & _ & _ & _ & Hm).
  split; [apply H7; lia|]. apply Hm. simpl. lia.
Defined.

Section Enrichment.

Import PrimFloat.
Local Open Scope nat_scope.

Lemma raw_closes (a b : list Candle.t) :
  Raw.part <$> a = Raw.part <$> b -> Indicator.closes a = Indicator.closes b.
Proof.
  intros H. unfold Indicator.closes. change (map ?f ?l) with (f <$> l).
  change Candle.close with (Candle.close ∘ Raw.part).
  now rewrite !list_fmap_compose, H.
Qed.

Lemma calculateEMA_closes (a b : list Candle.t) (P : nat) :
  Indicator.closes a = Indicator.closes b ->
  Indicator.calculateEMA a P = Indicator.calculateEMA b P.
Proof.
  intros H.
  assert (Hlen : length a = length b).
  { apply (f_equal length) in H. unfold Indicator.closes in H.
    now rewrite !length_map in H. }
  assert (Hclose : forall i, Indicator.closeAt a i = Indicator.closeAt b i).
  { intros i. now rewrite !closeAt_closes, H. }
  unfold Indicator.calculateEMA. rewrite Hlen.
  destruct (length b <? P); [reflexivity|].
  rewrite (fold_left_pointwise
             (fun s i => (s + Indicator.closeAt a i)%float)
             (fun s i => (s + Indicator.closeAt b i)%float))
    by (intros; now rewrite Hclose).
  apply fold_left_pointwise. intros acc i _.
  unfold Indicator.emaStep. now rewrite Hclose.
Qed.

Lemma calculateMACD_closes (a b : list Candle.t) (fast slow signal : nat) :
  Indicator.closes a = Indicator.closes b ->
  Indicator.calculateMACD a fast slow signal
  = Indicator.calculateMACD b fast slow signal.
Proof.
  intros H.
  assert (Hlen : length a = length b).
  { apply (f_equal length) in H. unfold Indicator.closes in H.
    now rewrite !length_map in H. }
  unfold Indicator.calculateMACD.
  now rewrite !(calculateEMA_closes a b) by exact H; rewrite Hlen.
Qed.

Lemma enrich_length (candles : list Candle.t)
    (config : option Indicator.Config) :
  length (Indicator.enrichCandlesWithIndicators candles config)
  = length candles.
Proof.
  unfold Indicator.enrichCandlesWithIndicators.
  destruct candles as [|c rest]; [reflexivity|].
  change (length (c :: rest) =? 0) with false. cbv iota.
  apply length_imap.
Qed.

Lemma enrich_raw (candles : list Candle.t)
    (config : option Indicator.Config) :
  Raw.part <$> Indicator.enrichCandlesWithIndicators candles config
  = Raw.part <$> candles.
Proof.
  unfold Indicator.enrichCandlesWithIndicators.
  destruct candles as [|c0 rest]; [reflexivity|].
  change (length (c0 :: rest) =? 0) with false. cbv iota.
  apply list_eq. intros i.
  rewrite !list_lookup_fmap, list_lookup_imap.
  destruct ((c0 :: rest) !! i); reflexivity.
Qed.

Lemma enrich_ext (a b : list Candle.t) (config : option Indicator.Config) :
  Raw.part <$> a = Raw.part <$> b ->
  Indicator.enrichCandlesWithIndicators a config
  = Indicator.enrichCandlesWithIndicators b config.
Proof.
  intros H.
  assert (Hc := raw_closes a b H).
  assert (Hlen : length a = length b).
  { apply (f_equal length) in H. now rewrite !length_fmap in H. }
  unfold Indicator.enrichCandlesWithIndicators. rewrite Hlen.
  destruct (length b =? 0); [reflexivity|].
  rewrite !(calculateEMA_closes a b) by exact Hc.
  rewrite !(calculateMACD_closes a b) by exact Hc.
  apply list_eq. intros i. rewrite !list_lookup_imap.
  assert (Hi : Raw.part <$> (a !! i) = Raw.part <$> (b !! i))
    by (rewrite <- !list_lookup_fmap; now rewrite H).
  destruct (a !! i) as [x|], (b !! i) as [y|]; try discriminate Hi;
    [|reflexivity].
  simpl in Hi |- *. injection Hi as Ht Ho Hh Hl Hcl Hv Hx.
  now rewrite Ht, Ho, Hh, Hl, Hcl, Hv, Hx.
Qed.

End Enrichment.

(** X4.  Enrichment keeps the number of candles and, in each candle, what
    the feed delivered (time, open, high, low, close, volume, isClosed).
    It reads nothing but that: enriching an already enriched window, under
    any config, gives what enriching the original window gives. *)
Theorem enrich_again (candles : list Candle.t)
    (config config' : option Indicator.Config) :
  let enriched := Indicator.enrichCandlesWithIndicators candles config in
  length enriched = length candles /\
  Raw.part <$> enriched = Raw.part <$> candles /\
  Indicator.enrichCandlesWithIndicators enriched config'
  = Indicator.enrichCandlesWithIndicators candles config'.
Proof.
  intros enriched. split; [apply enrich_length|].
  split; [apply enrich_raw|]. apply enrich_ext, enrich_raw.
Qed.

(** * Further properties of the processing loop *)

Section WindowMore.

Local Open Scope nat_scope.

Lemma updateCandles_last (candles : list Candle.t) (newCandle : Candle.t) :
  last (App.updateCandles candles newCandle) = Some newCandle.
Proof.
  rewrite updateCandles_merge.
  set (merged := match last candles with Some _ => _ | None => _ end).
  assert (Hlast : last merged = Some newCandle).
  { unfold merged. destruct (last candles) as [l|]; [|apply last_snoc].
    destruct (decide _); apply last_snoc. }
  assert (Hlen : 1 <= length merged).
  { destruct merged; [discriminate Hlast|simpl; lia]. }
  rewrite last_lookup, length_drop, lookup_drop.
  rewrite last_lookup in Hlast. rewrite <- Hlast. f_equal. lia.
Qed.

Lemma updateCandles_length (candles : list Candle.t)
    (newCandle : Candle.t) :
  1 <= length (App.updateCandles candles newCandle) <= 550.
Proof.
  assert (Hl := updateCandles_last candles newCandle).
  split.
  - destruct (App.updateCandles candles newCandle);
      [discriminate Hl|simpl; lia].
  - rewrite updateCandles_merge, length_drop. lia.
Qed.

Lemma updateCandles_again (candles : list Candle.t) (newCandle : Candle.t) :
  App.updateCandles (App.updateCandles candles newCandle) newCandle
  = App.updateCandles candles newCandle.
Proof.
  set (w1 := App.updateCandles candles newCandle).
  assert (Hl : last w1 = Some newCandle) by apply updateCandles_last.
  assert (Hn : 1 <= length w1 <= 550) by apply updateCandles_length.
  rewrite (updateCandles_merge w1 newCandle). rewrite Hl.
  destruct (decide (Candle.time newCandle = Candle.time newCandle));
    [|contradiction].
  rewrite (snoc_last _ _ Hl).
  replace (length w1 - 550) with 0 by lia. apply drop_0.
Qed.

Lemma updateCandles_raw (a b : list Candle.t) (newCandle : Candle.t) :
  Raw.part <$> a = Raw.part <$> b ->
  Raw.part <$> App.updateCandles a newCandle
  = Raw.part <$> App.updateCandles b newCandle.
Proof.
  intros H.
  assert (Hlen : length a = length b).
  { apply (f_equal length) in H. now rewrite !length_fmap in H. }
  assert (Hlast : Raw.part <$> last a = Raw.part <$> last b)
    by (rewrite <- !fmap_last; now rewrite H).
  rewrite !updateCandles_merge.
  assert (Hm :
    Raw.part <$> match last a with
                 | Some l =>
                     if decide (Candle.time l = Candle.time newCandle)
                     then take (length a - 1) a ++ [newCandle]
                     else a ++ [newCandle]
                 | None => a ++ [newCandle]
                 end
    = Raw.part <$> match last b with
                   | Some l =>
                       if decide (Candle.time l = Candle.time newCandle)
                       then take (length b - 1) b ++ [newCandle]
                       else b ++ [newCandle]
                   | None => b ++ [newCandle]
                   end).
  { destruct (last a) as [la|], (last b) as [lb|]; try discriminate Hlast.
    - simpl in Hlast. injection Hlast as Ht _ _ _ _ _ _. rewrite Ht.
      destruct (decide (Candle.time lb = Candle.time newCandle)).
      + now rewrite !fmap_app, !fmap_take, H, Hlen.
      + now rewrite !fmap_app, H.
    - now rewrite !fmap_app, H. }
  set (ma := match last a with Some _ => _ | None => _ end) in *.
  set (mb := match last b with Some _ => _ | None => _ end) in *.
  assert (Hml : length ma = length mb).
  { apply (f_equal length) in Hm. now rewrite !length_fmap in Hm. }
  now rewrite !fmap_drop, Hm, Hml.
Qed.

End WindowMore.

(** X5.  Applying the same bar a second time changes nothing in the window:
    [updateCandles] is idempotent in the bar, and a runtime advanced twice
    on the same bar holds the candles, the last price and the config it
    held after the first time, whatever the engine does. *)
Theorem sameBar_twice
    (evaluateStrategy :
       list Candle.t -> StrategyConfig.t -> PositionState.t ->
       TradeStats.t -> EvalResult.t)
    (rt : StrategyRuntime.t) (newCandle : Candle.t) :
  let once := fst (App.processRuntime evaluateStrategy newCandle rt) in
  let twice := fst (App.processRuntime evaluateStrategy newCandle once) in
  App.updateCandles
    (App.updateCandles (StrategyRuntime.candles rt) newCandle) newCandle
  = App.updateCandles (StrategyRuntime.candles rt) newCandle /\
  StrategyRuntime.candles twice = StrategyRuntime.candles once /\
  StrategyRuntime.lastPrice twice = StrategyRuntime.lastPrice once /\
  StrategyRuntime.config twice = StrategyRuntime.config once.
Proof.
  intros once twice. split; [apply updateCandles_again|].
  split; [|split; reflexivity].
  unfold twice, once, App.processRuntime.
  cbn [fst StrategyRuntime.candles StrategyRuntime.config].
  apply enrich_ext.
  rewrite <- (updateCandles_again (StrategyRuntime.candles rt) newCandle)
    at 2.
  apply updateCandles_raw, enrich_raw.
Qed.

Section LoopMore.

Variable evaluateStrategy :
  list Candle.t -> StrategyConfig.t -> PositionState.t -> TradeStats.t ->
  EvalResult.t.
Variable sendEnv : nat -> App.SendEnv.
Variable streamName : string.
Variable newCandle : Candle.t.

Let subscribed (rt : StrategyRuntime.t) : bool :=
  String.eqb (App.targetStream (StrategyRuntime.config rt)) streamName.
Let keyOf (rt : StrategyRuntime.t) : string :=
  StrategyConfig.id (StrategyRuntime.config rt).
Let put (m : gmap string StrategyRuntime.t) (rt : StrategyRuntime.t)
    : gmap string StrategyRuntime.t :=
  if subscribed rt
  then <[keyOf rt := fst (App.processRuntime evaluateStrategy newCandle rt)]> m
  else m.

(** The loop, one component of its state at a time. *)
Lemma loop_state (rts : list StrategyRuntime.t) (w : App.World)
    (updates : gmap string StrategyRuntime.t) (hasUpdates : bool) :
  let r :=
    fold_left (App.processOne evaluateStrategy sendEnv streamName newCandle)
      rts (w, updates, hasUpdates) in
  App.latestStrategiesRef r.1.1 = fold_left put rts (App.latestStrategiesRef w)
  /\ r.1.2 = fold_left put rts updates
  /\ r.2 = hasUpdates || existsb subscribed rts
  /\ App.strategies r.1.1 = App.strategies w
  /\ App.activeStrategyId r.1.1 = App.activeStrategyId w.
Proof.
  revert w updates hasUpdates.
  induction rts as [|rt rts IH]; intros w updates hasUpdates.
  - simpl. now rewrite orb_false_r.
  - cbn [fold_left existsb].
    assert (Hone :
      exists w1,
        App.processOne evaluateStrategy sendEnv streamName newCandle
          (w, updates, hasUpdates) rt
        = (w1, put updates rt, hasUpdates || subscribed rt) /\
        App.latestStrategiesRef w1 = put (App.latestStrategiesRef w) rt /\
        App.strategies w1 = App.strategies w /\
        App.activeStrategyId w1 = App.activeStrategyId w).
    { unfold App.processOne, put, subscribed, keyOf.
      destruct (String.eqb _ streamName).
      - destruct (App.processRuntime evaluateStrategy newCandle rt)
          as [newRuntime actions].
        eexists. split; [now rewrite orb_true_r|].
        cbn [fst App.latestStrategiesRef App.strategies
             App.activeStrategyId].
        rewrite sends_keep_ref. split; [reflexivity|].
        generalize w. induction actions as [|a actions IHa]; intros w0;
          [done|].
        simpl. destruct (IHa (App.sendWebhook
                                (sendEnv (length (App.logs w0))) a
                                (StrategyConfig.id (StrategyRuntime.config rt))
                                (StrategyConfig.name
                                   (StrategyRuntime.config rt)) w0))
          as [-> ->].
        destruct (sendWebhook_ref (sendEnv (length (App.logs w0))) a
                    (StrategyConfig.id (StrategyRuntime.config rt))
                    (StrategyConfig.name (StrategyRuntime.config rt)) w0)
          as (_ & -> & ->).
        done.
      - exists w. now rewrite orb_false_r. }
    destruct Hone as (w1 & -> & Href & Hst & Hact).
    destruct (IH w1 (put updates rt) (hasUpdates || subscribed rt))
      as (-> & -> & -> & -> & ->).
    rewrite Href, Hst, Hact, orb_assoc. done.
Qed.

Lemma put_union (rts : list StrategyRuntime.t)
    (u m : gmap string StrategyRuntime.t) :
  fold_left put rts (u ∪ m) = fold_left put rts u ∪ m.
Proof.
  revert u. induction rts as [|rt rts IH]; intros u; [reflexivity|].
  simpl. rewrite <- IH. f_equal. unfold put.
  destruct (subscribed rt); [|reflexivity]. apply insert_union_l.
Qed.

Lemma put_nobody (rts : list StrategyRuntime.t)
    (m : gmap string StrategyRuntime.t) :
  existsb subscribed rts = false -> fold_left put rts m = m.
Proof.
  revert m. induction rts as [|rt rts IH]; intros m H; [reflexivity|].
  simpl in H. apply orb_false_iff in H as [H1 H2].
  simpl. unfold put at 2. rewrite H1. now apply IH.
Qed.

Lemma put_keyed (rts : list StrategyRuntime.t)
    (m : gmap string StrategyRuntime.t) :
  Registry.keyed m -> Registry.keyed (fold_left put rts m).
Proof.
  revert m. induction rts as [|rt rts IH]; intros m H; [exact H|].
  simpl. apply IH. unfold put. destruct (subscribed rt); [|exact H].
  apply map_Forall_insert_2; [reflexivity|exact H].
Qed.

Lemma put_off (rts : list StrategyRuntime.t)
    (m : gmap string StrategyRuntime.t) (k : string) :
  (forall rt, rt ∈ rts -> keyOf rt = k -> subscribed rt = false) ->
  fold_left put rts m !! k = m !! k.
Proof.
  revert m. induction rts as [|rt rts IH]; intros m H; [reflexivity|].
  simpl. rewrite IH
    by (intros r Hr; apply H; now apply list_elem_of_further).
  unfold put. destruct (subscribed rt) eqn:Hs; [|reflexivity].
  apply lookup_insert_ne. intros Heq.
  rewrite (H rt (list_elem_of_here _ _) Heq) in Hs. discriminate.
Qed.

(** The whole call, component by component. *)
Lemma processGlobalRealtimeCandle_state (w : App.World) :
  let rts := map snd (map_to_list (App.latestStrategiesRef w)) in
  let w' :=
    App.processGlobalRealtimeCandle evaluateStrategy sendEnv streamName
      newCandle w in
  App.latestStrategiesRef w' = fold_left put rts (App.latestStrategiesRef w)
  /\ App.strategies w'
     = (if existsb subscribed rts
        then fold_left put rts ∅ ∪ App.strategies w
        else App.strategies w)
  /\ App.activeStrategyId w' = App.activeStrategyId w.
Proof.
  intros rts w'. subst w'. unfold App.processGlobalRealtimeCandle.
  fold rts.
  destruct (loop_state rts w ∅ false) as (Href & Hup & Hhas & Hst & Hact).
  destruct (fold_left _ rts (w, ∅, false)) as [[w1 updates] has].
  cbn [fst snd] in *. simpl in Hhas. subst has updates.
  destruct (existsb subscribed rts); cbn [App.latestStrategiesRef
    App.strategies App.activeStrategyId]; rewrite ?Hst; done.
Qed.

Lemma listed_runtime (m : gmap string StrategyRuntime.t)
    (rt : StrategyRuntime.t) :
  Registry.keyed m ->
  rt ∈ map snd (map_to_list m) -> m !! keyOf rt = Some rt.
Proof.
  intros Hk Hin. change (map snd ?l) with (l.*2) in Hin.
  apply list_elem_of_fmap in Hin as ([k r] & -> & Hin).
  apply elem_of_map_to_list in Hin. simpl.
  unfold keyOf. now rewrite (Hk k r Hin).
Qed.

Lemma nobody_subscribed (m : gmap string StrategyRuntime.t) :
  (forall k rt, m !! k = Some rt ->
     App.targetStream (StrategyRuntime.config rt) <> streamName) ->
  existsb subscribed (map snd (map_to_list m)) = false.
Proof.
  intros H. apply not_true_is_false. intros Hex.
  apply existsb_exists in Hex as (rt & Hin & Hs).
  apply list_elem_of_In in Hin. change (map snd ?l) with (l.*2) in Hin.
  apply list_elem_of_fmap in Hin as ([k r] & -> & Hin).
  apply elem_of_map_to_list in Hin.
  apply (H k r Hin). unfold subscribed in Hs. simpl in Hs.
  now apply String.eqb_eq.
Qed.

(** A runtime that is not on the stream is not touched. *)
Lemma off_stream_untouched (w : App.World) (k : string)
    (rt : StrategyRuntime.t) :
  Registry.keyed (App.latestStrategiesRef w) ->
  App.latestStrategiesRef w !! k = Some rt ->
  App.targetStream (StrategyRuntime.config rt) <> streamName ->
  App.latestStrategiesRef
    (App.processGlobalRealtimeCandle evaluateStrategy sendEnv streamName
       newCandle w) !! k = Some rt.
Proof.
  intros Hk Hrt Hoff.
  destruct (processGlobalRealtimeCandle_state w) as (-> & _).
  rewrite put_off; [exact Hrt|].
  intros r Hin Hkey. apply (listed_runtime _ _ Hk) in Hin.
  rewrite Hkey, Hrt in Hin. injection Hin as <-.
  unfold subscribed. now apply String.eqb_neq.
Qed.

(** A bar nobody is subscribed to changes nothing. *)
Lemma nobody_subscribed_unchanged (w : App.World) :
  (forall k rt, App.latestStrategiesRef w !! k = Some rt ->
     App.targetStream (StrategyRuntime.config rt) <> streamName) ->
  App.processGlobalRealtimeCandle evaluateStrategy sendEnv streamName
    newCandle w = w.
Proof.
  intros H. apply nobody_subscribed in H.
  unfold App.processGlobalRealtimeCandle.
  set (rts := map snd (map_to_list (App.latestStrategiesRef w))) in *.
  assert (Hstep : forall rts' acc,
            existsb subscribed rts' = false ->
            fold_left
              (App.processOne evaluateStrategy sendEnv streamName newCandle)
              rts' acc = acc).
  { induction rts' as [|r rts' IH]; intros acc Hn; [reflexivity|].
    simpl in Hn. apply orb_false_iff in Hn as [H1 H2].
    simpl. rewrite <- (IH acc H2) at 2. f_equal.
    destruct acc as [[w0 u0] h0]. unfold App.processOne.
    unfold subscribed in H1. now rewrite H1. }
  now rewrite Hstep.
Qed.

Lemma processGlobalRealtimeCandle_keyed (w : App.World) :
  Registry.keyed (App.latestStrategiesRef w) ->
  Registry.keyed
    (App.latestStrategiesRef
       (App.processGlobalRealtimeCandle evaluateStrategy sendEnv streamName
          newCandle w)).
Proof.
  intros H. destruct (processGlobalRealtimeCandle_state w) as (-> & _).
  now apply put_keyed.
Qed.

Lemma processGlobalRealtimeCandle_synced (w : App.World) :
  Registry.synced w ->
  Registry.synced
    (App.processGlobalRealtimeCandle evaluateStrategy sendEnv streamName
       newCandle w).
Proof.
  unfold Registry.synced. intros H.
  destruct (processGlobalRealtimeCandle_state w) as (-> & -> & _).
  set (rts := map snd (map_to_list (App.latestStrategiesRef w))).
  rewrite H. destruct (existsb subscribed rts) eqn:E.
  - rewrite <- put_union. now rewrite (left_id_L ∅ (∪)).
  - now rewrite put_nobody.
Qed.

End LoopMore.

(** X6.  In a registry keyed by config id, a bar only reaches the runtimes
    subscribed to its stream: every other runtime stays as it is and no
    key is added.  If no runtime is subscribed to the stream the call
    changes nothing at all: no state, no log line, no request. *)
Theorem bar_routing
    (evaluateStrategy :
       list Candle.t -> StrategyConfig.t -> PositionState.t ->
       TradeStats.t -> EvalResult.t)
    (sendEnv : nat -> App.SendEnv) (streamName : string)
    (newCandle : Candle.t) (w : App.World) :
  Registry.keyed (App.latestStrategiesRef w) ->
  let w' :=
    App.processGlobalRealtimeCandle evaluateStrategy sendEnv streamName
      newCandle w in
  (forall k rt,
     App.latestStrategiesRef w !! k = Some rt ->
     App.targetStream (StrategyRuntime.config rt) <> streamName ->
     App.latestStrategiesRef w' !! k = Some rt) /\
  (forall k,
     App.latestStrategiesRef w !! k = None ->
     App.latestStrategiesRef w' !! k = None) /\
  ((forall k rt,
      App.latestStrategiesRef w !! k = Some rt ->
      App.targetStream (StrategyRuntime.config rt) <> streamName) ->
   w' = w).
Proof.
  intros Hk w'. split; [|split].
  - intros k rt Hrt Hoff. now apply off_stream_untouched.
  - intros k Hnone. subst w'.
    destruct (processGlobalRealtimeCandle_state evaluateStrategy sendEnv
                streamName newCandle w) as (-> & _).
    rewrite put_off; [exact Hnone|].
    intros r Hin Hkey. apply (listed_runtime _ _ Hk) in Hin.
    rewrite Hkey, Hnone in Hin. discriminate Hin.
  - intros Hnobody. now apply nobody_subscribed_unchanged.
Qed.

(** A bar for the first strategy leaves the second one alone. *)
Lemma bar_routing_witness :
  Registry.keyed (App.latestStrategiesRef Samples2.world2) /\
  App.latestStrategiesRef
    (App.processGlobalRealtimeCandle Samples.holdEngine
       (fun _ => Samples.sendEnv) "btcusdt@kline_1m"
       (Candle.ofClose 6 7%float) Samples2.world2) !! "s2"
  = Some Samples2.runtime2.
Proof.
  assert (Hk : Registry.keyed (App.latestStrategiesRef Samples2.world2)).
  { apply map_Forall_insert_2; [reflexivity|].
    apply map_Forall_singleton. reflexivity. }
  split; [exact Hk|].
  destruct (bar_routing Samples.holdEngine (fun _ => Samples.sendEnv)
              "btcusdt@kline_1m" (Candle.ofClose 6 7%float)
              Samples2.world2 Hk) as (H & _).
  apply H; [reflexivity|]. vm_compute. discriminate.
Defined.



(** * Further properties of the registry operations *)

Section Operations.

Lemma handleManualOrder_missing (now : App.Clock) (env : App.SendEnv)
    (type : Direction) (w : App.World) :
  App.latestStrategiesRef w !! App.activeStrategyId w = None ->
  App.handleManualOrder now env type w = w.
Proof. intros H. unfold App.handleManualOrder. now rewrite H. Qed.

Lemma handleManualOrder_world (now : App.Clock) (env : App.SendEnv)
    (type : Direction) (w : App.World) (rt : StrategyRuntime.t) :
  App.latestStrategiesRef w !! App.activeStrategyId w = Some rt ->
  let w' := App.handleManualOrder now env type w in
  App.strategies w' = App.latestStrategiesRef w' /\
  App.activeStrategyId w' = App.activeStrategyId w.
Proof.
  intros Hrt w'. subst w'. unfold App.handleManualOrder. rewrite Hrt.
  destruct (App.manualNewState now type rt) as [newState newStats].
  cbv zeta. cbn [App.activeStrategyId].
  set (w1 := App.mkWorld _ _ _ _ _ _).
  destruct (sendWebhook_ref env (App.manualPayload now type rt)
              (App.activeStrategyId w)
              (StrategyConfig.name (StrategyRuntime.config rt)) w1)
    as (-> & -> & ->).
  done.
Qed.

Lemma handleManualOrder_keyed (now : App.Clock) (env : App.SendEnv)
    (type : Direction) (w : App.World) :
  Registry.keyed (App.latestStrategiesRef w) ->
  Registry.keyed
    (App.latestStrategiesRef (App.handleManualOrder now env type w)).
Proof.
  intros Hk.
  destruct (App.latestStrategiesRef w !! App.activeStrategyId w)
    as [rt|] eqn:Hrt.
  - destruct (handleManualOrder_found now env type w rt Hrt) as (_ & -> & _).
    apply map_Forall_insert_2; [|exact Hk]. exact (Hk _ _ Hrt).
  - now rewrite handleManualOrder_missing.
Qed.

Lemma handleManualOrder_synced (now : App.Clock) (env : App.SendEnv)
    (type : Direction) (w : App.World) :
  Registry.synced w -> Registry.synced (App.handleManualOrder now env type w).
Proof.
  intros Hs.
  destruct (App.latestStrategiesRef w !! App.activeStrategyId w)
    as [rt|] eqn:Hrt.
  - apply (handleManualOrder_world now env type w rt Hrt).
  - now rewrite handleManualOrder_missing.
Qed.

Lemma updateStrategyConfig_missing (id : string)
    (updates : StrategyConfig.partial) (w : App.World) :
  App.latestStrategiesRef w !! id = None ->
  App.updateStrategyConfig id updates w = w.
Proof. intros H. unfold App.updateStrategyConfig. now rewrite H. Qed.

Lemma updateStrategyConfig_keyed (id : string)
    (updates : StrategyConfig.partial) (w : App.World) :
  StrategyConfig.id' updates = None ->
  Registry.keyed (App.latestStrategiesRef w) ->
  Registry.keyed
    (App.latestStrategiesRef (App.updateStrategyConfig id updates w)).
Proof.
  intros Hid Hk. unfold App.updateStrategyConfig.
  destruct (App.latestStrategiesRef w !! id) as [rt|] eqn:Hrt; [|exact Hk].
  cbv zeta. cbn [App.latestStrategiesRef].
  apply map_Forall_insert_2; [|exact Hk].
  cbn [StrategyRuntime.config]. unfold StrategyConfig.merge.
  cbn [StrategyConfig.id]. rewrite Hid. exact (Hk _ _ Hrt).
Qed.

Lemma updateStrategyConfig_synced (id : string)
    (updates : StrategyConfig.partial) (w : App.World) :
  Registry.synced w -> Registry.synced (App.updateStrategyConfig id updates w).
Proof.
  intros Hs. unfold App.updateStrategyConfig.
  destruct (App.latestStrategiesRef w !! id) as [rt|]; [|exact Hs].
  reflexivity.
Qed.

Lemma historyLoaded_keyed (rt : StrategyRuntime.t) (data : list Candle.t)
    (w : App.World) :
  Registry.keyed (App.latestStrategiesRef w) ->
  Registry.keyed (App.latestStrategiesRef (Registry.historyLoaded rt data w)).
Proof.
  intros Hk. unfold Registry.historyLoaded.
  destruct (App.latestStrategiesRef w !! _) as [current|] eqn:Hc; [|exact Hk].
  cbv zeta. cbn [App.latestStrategiesRef].
  apply map_Forall_insert_2; [|exact Hk]. exact (Hk _ _ Hc).
Qed.

Lemma historyLoaded_synced (rt : StrategyRuntime.t) (data : list Candle.t)
    (w : App.World) :
  Registry.synced w -> Registry.synced (Registry.historyLoaded rt data w).
Proof.
  intros Hs. unfold Registry.historyLoaded.
  destruct (App.latestStrategiesRef w !! _) as [current|]; [|exact Hs].
  reflexivity.
Qed.

End Operations.

(** X8.  If every runtime is registered under the id of its config, it is
    still so after a bar, a manual order, a config update that does not
    touch the id, an added or a removed strategy, a finished history load
    and a sent webhook. *)
Theorem registry_stays_keyed (w : App.World) :
  Registry.keyed (App.latestStrategiesRef w) ->
  (forall evaluateStrategy sendEnv streamName newCandle,
     Registry.keyed
       (App.latestStrategiesRef
          (App.processGlobalRealtimeCandle evaluateStrategy sendEnv
             streamName newCandle w))) /\
  (forall now env type,
     Registry.keyed
       (App.latestStrategiesRef (App.handleManualOrder now env type w))) /\
  (forall id updates,
     StrategyConfig.id' updates = None ->
     Registry.keyed
       (App.latestStrategiesRef (App.updateStrategyConfig id updates w))) /\
  (forall DEFAULT_CONFIG INITIAL_STATS newId,
     Registry.keyed
       (App.latestStrategiesRef
          (Registry.addStrategy DEFAULT_CONFIG INITIAL_STATS newId w))) /\
  (forall objectKeys id,
     Registry.keyed
       (App.latestStrategiesRef (Registry.removeStrategy objectKeys id w))) /\
  (forall rt data,
     Registry.keyed
       (App.latestStrategiesRef (Registry.loadHistory rt data w))) /\
  (forall env payload strategyId strategyName,
     Registry.keyed
       (App.latestStrategiesRef
          (App.sendWebhook env payload strategyId strategyName w))).
Proof.
  intros Hk. repeat split.
  - intros. now apply processGlobalRealtimeCandle_keyed.
  - intros. now apply handleManualOrder_keyed.
  - intros. now apply updateStrategyConfig_keyed.
  - intros. unfold Registry.addStrategy. cbn [App.latestStrategiesRef].
    apply map_Forall_insert_2; [reflexivity|exact Hk].
  - intros. unfold Registry.removeStrategy. cbn [App.latestStrategiesRef].
    now apply map_Forall_delete.
  - intros. unfold Registry.loadHistory.
    destruct (Registry.needsHistory rt); [|exact Hk].
    now apply historyLoaded_keyed.
  - intros.
    destruct (sendWebhook_ref env payload strategyId strategyName w)
      as (-> & _).
    exact Hk.
Qed.

(** The sample registry after a manual order. *)
Lemma registry_stays_keyed_witness :
  Registry.keyed (App.latestStrategiesRef Samples2.world2) /\
  Registry.keyed
    (App.latestStrategiesRef
       (App.handleManualOrder Samples.clock Samples.sendEnv LONG
          Samples2.world2)).
Proof.
  assert (Hk : Registry.keyed (App.latestStrategiesRef Samples2.world2)).
  { apply map_Forall_insert_2; [reflexivity|].
    apply map_Forall_singleton. reflexivity. }
  split; [exact Hk|].
  destruct (registry_stays_keyed Samples2.world2 Hk) as (_ & H & _).
  apply H.
Defined.

(** X9.  If the [strategies] state shows what [latestStrategiesRef] holds,
    it still does after a bar, a manual order, a config update, a finished
    history load and a sent webhook; after adding or removing a strategy
    it does in any case. *)
Theorem registry_stays_synced (w : App.World) :
  (Registry.synced w ->
   (forall evaluateStrategy sendEnv streamName newCandle,
      Registry.synced
        (App.processGlobalRealtimeCandle evaluateStrategy sendEnv streamName
           newCandle w)) /\
   (forall now env type,
      Registry.synced (App.handleManualOrder now env type w)) /\
   (forall id updates,
      Registry.synced (App.updateStrategyConfig id updates w)) /\
   (forall rt data, Registry.synced (Registry.loadHistory rt data w)) /\
   (forall env payload strategyId strategyName,
      Registry.synced
        (App.sendWebhook env payload strategyId strategyName w))) /\
  (forall DEFAULT_CONFIG INITIAL_STATS newId,
     Registry.synced
       (Registry.addStrategy DEFAULT_CONFIG INITIAL_STATS newId w)) /\
  (forall objectKeys id,
     Registry.synced (Registry.removeStrategy objectKeys id w)).
Proof.
  split; [|split; intros; reflexivity].
  intros Hs. split; [|split; [|split; [|split]]].
  - intros. now apply processGlobalRealtimeCandle_synced.
  - intros. now apply handleManualOrder_synced.
  - intros. now apply updateStrategyConfig_synced.
  - intros. unfold Registry.loadHistory.
    destruct (Registry.needsHistory rt); [|exact Hs].
    now apply historyLoaded_synced.
  - intros. unfold Registry.synced.
    destruct (sendWebhook_ref env payload strategyId strategyName w)
      as (-> & -> & _).
    exact Hs.
Qed.

(** The sample registry after a bar. *)
Lemma registry_stays_synced_witness :
  Registry.synced Samples2.world2 /\
  Registry.synced
    (App.processGlobalRealtimeCandle Samples.holdEngine
       (fun _ => Samples.sendEnv) "btcusdt@kline_1m"
       (Candle.ofClose 6 7%float) Samples2.world2).
Proof.
  split; [reflexivity|].
  destruct (registry_stays_synced Samples2.world2) as (H & _).
  destruct (H eq_refl) as (Hbar & _).
  apply Hbar.
Defined.

(** * Further properties of manual orders *)

Section ManualMore.

Import PrimFloat.

(** The log line and the request of one [sendWebhook]. *)
Lemma sendWebhook_line (env : App.SendEnv) (payload : WebhookPayload.t)
    (strategyId strategyName : string) (w : App.World) :
  let w' := App.sendWebhook env payload strategyId strategyName w in
  let line :=
    AlertLog.mk (App.randomId env) strategyId strategyName (App.dateNow env)
      payload "sent"
      (if String.eqb (WebhookPayload.tp_level payload) "Manual"
       then "Manual" else "Strategy") in
  App.logs w' = line :: App.logs w /\
  App.fetched w'
  = match App.latestStrategiesRef w !! strategyId with
    | Some rt =>
        let url := StrategyConfig.webhookUrl (StrategyRuntime.config rt) in
        if App.truthyString url then (url, payload) :: App.fetched w
        else App.fetched w
    | None => App.fetched w
    end.
Proof.
  unfold App.sendWebhook. simpl.
  destruct (App.latestStrategiesRef w !! strategyId) as [rt|]; simpl;
    [|done].
  destruct (App.truthyString _); [|done].
  destruct (App.fetchThrows env); done.
Qed.

Lemma handleManualOrder_line (now : App.Clock) (env : App.SendEnv)
    (type : Direction) (w : App.World) (rt : StrategyRuntime.t) :
  App.latestStrategiesRef w !! App.activeStrategyId w = Some rt ->
  let w' := App.handleManualOrder now env type w in
  let config := StrategyRuntime.config rt in
  let payload := App.manualPayload now type rt in
  App.logs w'
  = AlertLog.mk (App.randomId env) (App.activeStrategyId w)
      (StrategyConfig.name config) (App.dateNow env) payload "sent"
      "Strategy" :: App.logs w /\
  App.fetched w'
  = (if App.truthyString (StrategyConfig.webhookUrl config)
     then (StrategyConfig.webhookUrl config, payload) :: App.fetched w
     else App.fetched w).
Proof.
  intros Hrt w' config payload. subst w'. unfold App.handleManualOrder.
  rewrite Hrt.
  destruct (App.manualNewState now type rt) as [newState newStats].
  cbv zeta. cbn [App.activeStrategyId].
  set (w1 := App.mkWorld _ _ _ _ _ _).
  destruct (sendWebhook_line env (App.manualPayload now type rt)
              (App.activeStrategyId w)
              (StrategyConfig.name (StrategyRuntime.config rt)) w1)
    as (-> & ->).
  unfold w1. cbn [App.latestStrategiesRef App.logs App.fetched].
  rewrite lookup_insert_eq. cbn [StrategyRuntime.config].
  split; [|reflexivity].
  assert (Htag : String.eqb
                   (WebhookPayload.tp_level (App.manualPayload now type rt))
                   "Manual" = false).
  { unfold App.manualPayload.
    destruct (App.manualTerms type rt) as [[[act pos] quantity] amount].
    reflexivity. }
  now rewrite Htag.
Qed.

Lemma emitted_two (w w1 w2 : App.World) (l1 l2 : AlertLog.t) :
  App.logs w1 = l1 :: App.logs w ->
  App.logs w2 = l2 :: App.logs w1 ->
  App.emitted w w2 = [AlertLog.payload l1; AlertLog.payload l2].
Proof.
  intros H1 H2. unfold App.emitted. rewrite H2, H1. simpl.
  replace (S (S (length (App.logs w))) - length (App.logs w))%nat
    with 2%nat by lia.
  reflexivity.
Qed.

End ManualMore.

(** X10.  A manual order writes one log line for the active strategy, with
    the status "sent" and the type "Strategy" (the payload's [tp_level] is
    not the string "Manual" the type is decided on).  It hands one request
    with the payload to [fetch] when the strategy has a webhook URL, and
    none when the URL is empty, the log line reading "sent" all the same. *)
Theorem manualOrder_log_line (now : App.Clock) (env : App.SendEnv)
    (type : Direction) (w : App.World) (rt : StrategyRuntime.t) :
  App.latestStrategiesRef w !! App.activeStrategyId w = Some rt ->
  let w' := App.handleManualOrder now env type w in
  let config := StrategyRuntime.config rt in
  let payload := App.manualPayload now type rt in
  (exists line,
     App.logs w' = line :: App.logs w /\
     AlertLog.payload line = payload /\
     AlertLog.strategyId line = App.activeStrategyId w /\
     AlertLog.strategyName line = StrategyConfig.name config /\
     AlertLog.timestamp line = App.dateNow env /\
     AlertLog.status line = "sent" /\
     AlertLog.type line = "Strategy") /\
  (StrategyConfig.webhookUrl config <> EmptyString ->
   App.fetched w'
   = (StrategyConfig.webhookUrl config, payload) :: App.fetched w) /\
  (StrategyConfig.webhookUrl config = EmptyString ->
   App.fetched w' = App.fetched w).
Proof.
  intros Hrt w' config payload.
  destruct (handleManualOrder_line now env type w rt Hrt) as (Hl & Hf).
  split; [eexists; split; [exact Hl|]; repeat split|].
  fold config payload in Hf. subst w'. rewrite Hf. split.
  - intros Hurl. destruct (StrategyConfig.webhookUrl config);
      [contradiction|reflexivity].
  - intros ->. reflexivity.
Qed.

(** A manual order on the second sample strategy, which has no URL. *)
Lemma manualOrder_log_line_witness :
  let w :=
    App.mkWorld (App.latestStrategiesRef Samples2.world2)
      (App.strategies Samples2.world2) "s2" [] [] [] in
  let w' := App.handleManualOrder Samples.clock Samples.sendEnv LONG w in
  App.latestStrategiesRef w !! App.activeStrategyId w
  = Some Samples2.runtime2 /\
  length (App.logs w') = 1%nat /\ App.fetched w' = [].
Proof.
  intros w w'. split; [reflexivity|].
  destruct (manualOrder_log_line Samples.clock Samples.sendEnv LONG w
              Samples2.runtime2 eq_refl) as ((line & Hl & _) & _ & Hf).
  split.
  - subst w'. rewrite Hl. reflexivity.
  - apply Hf. reflexivity.
Defined.

(** X11.  A manual order touches nothing but the position state and the
    trade statistics of the active strategy: its config, its candles and
    its last price are kept, every other runtime is the one it was, and
    the active strategy is the same.  With no runtime registered under the
    active id the call does nothing. *)
Theorem manualOrder_frame (now : App.Clock) (env : App.SendEnv)
    (type : Direction) (w : App.World) :
  let w' := App.handleManualOrder now env type w in
  App.activeStrategyId w' = App.activeStrategyId w /\
  (forall k, k <> App.activeStrategyId w ->
     App.latestStrategiesRef w' !! k = App.latestStrategiesRef w !! k) /\
  (forall rt,
     App.latestStrategiesRef w !! App.activeStrategyId w = Some rt ->
     exists rt',
       App.latestStrategiesRef w' !! App.activeStrategyId w = Some rt' /\
       StrategyRuntime.config rt' = StrategyRuntime.config rt /\
       StrategyRuntime.candles rt' = StrategyRuntime.candles rt /\
       StrategyRuntime.lastPrice rt' = StrategyRuntime.lastPrice rt) /\
  (App.latestStrategiesRef w !! App.activeStrategyId w = None -> w' = w).
Proof.
  intros w'.
  destruct (App.latestStrategiesRef w !! App.activeStrategyId w)
    as [rt|] eqn:Hrt.
  - destruct (handleManualOrder_found now env type w rt Hrt)
      as (_ & Href & Hnew).
    destruct (handleManualOrder_world now env type w rt Hrt) as (_ & Hact).
    split; [exact Hact|]. split; [|split; [|discriminate]].
    + intros k Hk. subst w'. rewrite Href. apply lookup_insert_ne.
      congruence.
    + intros rt0 [= <-]. eexists. split; [exact Hnew|]. repeat split.
  - assert (Hw : w' = w) by now apply handleManualOrder_missing.
    rewrite Hw. split; [reflexivity|]. split; [reflexivity|].
    split; [discriminate|reflexivity].
Qed.

(** X12.  Entering by a manual order and then flattening by a manual order
    emits two actions: the entry, then a close ("sell" after LONG,
    "buy_to_cover" after SHORT, position "flat") of exactly the quantity
    that was entered, at the same last price.  The position is back to the
    initial FLAT state and [dailyTradeCount] is one higher than before. *)
Theorem manual_round_trip (now1 now2 : App.Clock) (env1 env2 : App.SendEnv)
    (type : Direction) (w : App.World) (rt : StrategyRuntime.t) :
  App.latestStrategiesRef w !! App.activeStrategyId w = Some rt ->
  type <> FLAT ->
  let w1 := App.handleManualOrder now1 env1 type w in
  let w2 := App.handleManualOrder now2 env2 FLAT w1 in
  exists entry close rt2,
    App.emitted w w2 = [entry; close] /\
    entry = App.manualPayload now1 type rt /\
    WebhookPayload.action close
    = (match type with LONG => "sell" | _ => "buy_to_cover" end) /\
    WebhookPayload.position close = "flat" /\
    WebhookPayload.execution_quantity close
    = WebhookPayload.execution_quantity entry /\
    WebhookPayload.execution_price close
    = WebhookPayload.execution_price entry /\
    App.latestStrategiesRef w2 !! App.activeStrategyId w = Some rt2 /\
    StrategyRuntime.positionState rt2 = App.INITIAL_POS_STATE /\
    TradeStats.dailyTradeCount (StrategyRuntime.tradeStats rt2)
    = TradeStats.dailyTradeCount (StrategyRuntime.tradeStats rt) + 1 /\
    TradeStats.lastTradeDate (StrategyRuntime.tradeStats rt2)
    = TradeStats.lastTradeDate (StrategyRuntime.tradeStats rt).
Proof.
  intros Hrt Hty w1 w2.
  destruct (handleManualOrder_found now1 env1 type w rt Hrt)
    as (_ & _ & Hnew1).
  destruct (handleManualOrder_world now1 env1 type w rt Hrt) as (_ & Hact).
  destruct (handleManualOrder_line now1 env1 type w rt Hrt) as (Hl1 & _).
  fold w1 in Hnew1, Hact, Hl1. rewrite <- Hact in Hnew1.
  destruct (handleManualOrder_found now2 env2 FLAT w1 _ Hnew1)
    as (_ & _ & Hnew2).
  destruct (handleManualOrder_line now2 env2 FLAT w1 _ Hnew1) as (Hl2 & _).
  fold w2 in Hnew2, Hl2. rewrite Hact in Hnew2.
  eexists. eexists. eexists.
  split; [exact (emitted_two w w1 w2 _ _ Hl1 Hl2)|].
  cbn [AlertLog.payload].
  split; [reflexivity|].
  refine (conj _ (conj _ (conj _ (conj _ (conj Hnew2 _)))));
    destruct type; try contradiction; repeat split.
Qed.

(** LONG, then FLAT, on the sample registry. *)
Lemma manual_round_trip_witness :
  let w1 :=
    App.handleManualOrder Samples.clock Samples.sendEnv LONG Samples.world in
  let w2 := App.handleManualOrder Samples.clock Samples.sendEnv FLAT w1 in
  (App.latestStrategiesRef Samples.world
     !! App.activeStrategyId Samples.world = Some Samples.runtime /\
   LONG <> FLAT) /\
  exists entry close,
    App.emitted Samples.world w2 = [entry; close] /\
    WebhookPayload.execution_quantity close
    = WebhookPayload.execution_quantity entry.
Proof.
  intros w1 w2. split; [split; [reflexivity|discriminate]|].
  destruct (manual_round_trip Samples.clock Samples.clock Samples.sendEnv
              Samples.sendEnv LONG Samples.world Samples.runtime eq_refl
              ltac:(discriminate))
    as (entry & close & rt2 & H1 & _ & _ & _ & H2 & _).
  exists entry, close. split; [exact H1 | exact H2].
Defined.

(** X13.  The log panel shows a manual order under one of its four named
    actions, never under the raw "action position" fallback: "Open Long"
    for LONG, "Open Short" for SHORT, and for FLAT "Close Long" when the
    position was LONG and "Close Short" otherwise, also when it was
    already FLAT. *)
Theorem manualOrder_action_text (now : App.Clock) (type : Direction)
    (rt : StrategyRuntime.t) :
  let payload := App.manualPayload now type rt in
  LogPanel.getActionText (WebhookPayload.action payload)
    (WebhookPayload.position payload)
  = match type with
    | LONG => "开多 (Open Long)"
    | SHORT => "开空 (Open Short)"
    | FLAT =>
        match PositionState.direction (StrategyRuntime.positionState rt) with
        | LONG => "平多 (Close Long)"
        | _ => "平空 (Close Short)"
        end
    end.
Proof.
  intros payload. subst payload. unfold App.manualPayload, App.manualTerms.
  destruct type; [|reflexivity|reflexivity].
  destruct (PositionState.direction (StrategyRuntime.positionState rt));
    reflexivity.
Qed.

(** * Further properties of config updates and history loads *)

Section ConfigMore.

Lemma merge_merge (config : StrategyConfig.t)
    (updates : StrategyConfig.partial) :
  StrategyConfig.merge (StrategyConfig.merge config updates) updates
  = StrategyConfig.merge config updates.
Proof.
  unfold StrategyConfig.merge. destruct updates as
    [i n s v f sl sg t m u k]; simpl.
  destruct i, n, s, v, f, sl, sg, t, m, u, k; reflexivity.
Qed.

Lemma merge_noUpdates (config : StrategyConfig.t) :
  StrategyConfig.merge config StrategyConfig.noUpdates = config.
Proof. destruct config; reflexivity. Qed.

(** Once an update is merged, its symbol and interval are the config's:
    the same update asks for no reset. *)
Lemma no_reset_after_merge (config : StrategyConfig.t)
    (updates : StrategyConfig.partial) (given : option string)
    (current : string) :
  current = default current given ->
  match given with
  | Some s =>
      if App.truthyString s && negb (String.eqb s current)
      then true else false
  | None => false
  end = false.
Proof.
  intros H. destruct given as [s|]; [|reflexivity]. simpl in H. subst.
  now rewrite String.eqb_refl, andb_false_r.
Qed.

End ConfigMore.

(** X14.  A config update is idempotent: applying the same update twice
    leaves the world that applying it once leaves, for any id, registered
    or not.  An update without keys leaves every runtime as it is. *)
Theorem updateStrategyConfig_twice (id : string)
    (updates : StrategyConfig.partial) (w : App.World) :
  App.updateStrategyConfig id updates (App.updateStrategyConfig id updates w)
  = App.updateStrategyConfig id updates w /\
  App.latestStrategiesRef
    (App.updateStrategyConfig id StrategyConfig.noUpdates w)
  = App.latestStrategiesRef w.
Proof.
  split.
  - destruct (App.latestStrategiesRef w !! id) as [rt|] eqn:Hrt.
    2:{ now rewrite !(updateStrategyConfig_missing id updates w Hrt). }
    set (newConfig := StrategyConfig.merge (StrategyRuntime.config rt)
                        updates).
    assert (E1 : exists rt1,
              App.updateStrategyConfig id updates w
              = App.mkWorld (<[id := rt1]> (App.latestStrategiesRef w))
                  (<[id := rt1]> (App.latestStrategiesRef w))
                  (App.activeStrategyId w) (App.logs w) (App.fetched w)
                  (App.consoleErrors w) /\
              StrategyRuntime.config rt1 = newConfig).
    { unfold App.updateStrategyConfig. rewrite Hrt. cbv zeta.
      eexists. split; reflexivity. }
    destruct E1 as (rt1 & -> & Hc).
    unfold App.updateStrategyConfig. cbn [App.latestStrategiesRef].
    rewrite lookup_insert_eq. cbv zeta.
    cbn [App.activeStrategyId App.logs App.fetched App.consoleErrors].
    rewrite Hc.
    assert (Hm : StrategyConfig.merge newConfig updates = newConfig)
      by apply merge_merge.
    rewrite !Hm.
    assert (Hs : match StrategyConfig.symbol' updates with
                 | Some s =>
                     if App.truthyString s
                        && negb (String.eqb s
                                   (StrategyConfig.symbol newConfig))
                     then true else false
                 | None => false
                 end = false).
    { apply (no_reset_after_merge newConfig updates).
      unfold newConfig, StrategyConfig.merge. simpl.
      now destruct (StrategyConfig.symbol' updates). }
    assert (Hi : match StrategyConfig.interval' updates with
                 | Some s =>
                     if App.truthyString s
                        && negb (String.eqb s
                                   (StrategyConfig.interval newConfig))
                     then true else false
                 | None => false
                 end = false).
    { apply (no_reset_after_merge newConfig updates).
      unfold newConfig, StrategyConfig.merge. simpl.
      now destruct (StrategyConfig.interval' updates). }
    assert (Hreset :
      match StrategyConfig.interval' updates with
      | Some i =>
          if App.truthyString i
             && negb (String.eqb i (StrategyConfig.interval newConfig))
          then true
          else match StrategyConfig.symbol' updates with
               | Some s =>
                   if App.truthyString s
                      && negb (String.eqb s
                                 (StrategyConfig.symbol newConfig))
                   then true else false
               | None => false
               end
      | None =>
          match StrategyConfig.symbol' updates with
          | Some s =>
              if App.truthyString s
                 && negb (String.eqb s (StrategyConfig.symbol newConfig))
              then true else false
          | None => false
          end
      end = false).
    { rewrite Hs.
      destruct (StrategyConfig.interval' updates); [exact Hi|done]. }
    rewrite Hreset. rewrite <- Hc.
    replace (StrategyRuntime.mk (StrategyRuntime.config rt1)
               (StrategyRuntime.candles rt1)
               (StrategyRuntime.positionState rt1)
               (StrategyRuntime.tradeStats rt1)
               (StrategyRuntime.lastPrice rt1)) with rt1
      by (destruct rt1; reflexivity).
    now rewrite insert_insert_eq.
  - unfold App.updateStrategyConfig.
    destruct (App.latestStrategiesRef w !! id) as [rt|] eqn:Hrt;
      [|reflexivity].
    cbv zeta. cbn [App.latestStrategiesRef StrategyConfig.symbol'
      StrategyConfig.interval' StrategyConfig.noUpdates].
    rewrite merge_noUpdates. apply insert_id.
    rewrite Hrt. now destruct rt.
Qed.

(** * Further properties of history loads *)

Section HistoryMore.

Import PrimFloat.

Lemma last_close_raw (a b : list Candle.t) :
  Raw.part <$> a = Raw.part <$> b ->
  Candle.close <$> last a = Candle.close <$> last b.
Proof.
  intros H. apply raw_closes in H. unfold Indicator.closes in H.
  change (map ?f ?l) with (f <$> l) in H.
  now rewrite <- !fmap_last, H.
Qed.

(** What [historyLoaded] stores as [lastPrice]. *)
Lemma loaded_lastPrice (enriched : list Candle.t) :
  (if (0 <? length enriched)%nat
   then match enriched !! (length enriched - 1)%nat with
        | Some c => Candle.close c
        | None => nan
        end
   else 0%float)
  = match last enriched with
    | Some c => Candle.close c
    | None => 0%float
    end.
Proof.
  rewrite last_lookup.
  replace (Nat.pred (length enriched)) with (length enriched - 1)%nat by lia.
  destruct enriched as [|c enriched]; [reflexivity|].
  change (0 <? length (c :: enriched))%nat with true. cbv iota.
  destruct (lookup_lt_is_Some_2 (c :: enriched) (length (c :: enriched) - 1))
    as [x Hx]; [simpl; lia|].
  now rewrite Hx.
Qed.

Lemma historyLoaded_entry (rt current : StrategyRuntime.t)
    (data : list Candle.t) (w : App.World) :
  let id := StrategyConfig.id (StrategyRuntime.config rt) in
  App.latestStrategiesRef w !! id = Some current ->
  let enriched :=
    Indicator.enrichCandlesWithIndicators data
      (Some (Indicator.mkConfig
               (StrategyConfig.macdFast (StrategyRuntime.config rt))
               (StrategyConfig.macdSlow (StrategyRuntime.config rt))
               (StrategyConfig.macdSignal (StrategyRuntime.config rt)))) in
  let rt' :=
    StrategyRuntime.mk (StrategyRuntime.config current) enriched
      (StrategyRuntime.positionState current)
      (StrategyRuntime.tradeStats current)
      match last data with
      | Some c => Candle.close c
      | None => 0%float
      end in
  Registry.historyLoaded rt data w
  = App.mkWorld (<[id := rt']> (App.latestStrategiesRef w))
      (<[id := rt']> (App.latestStrategiesRef w)) (App.activeStrategyId w)
      (App.logs w) (App.fetched w) (App.consoleErrors w).
Proof.
  intros id Hc enriched rt'. unfold Registry.historyLoaded.
  fold id. rewrite Hc. cbv zeta. fold enriched.
  rewrite loaded_lastPrice.
  assert (Hl : Candle.close <$> last enriched = Candle.close <$> last data).
  { apply last_close_raw. apply enrich_raw. }
  unfold rt'.
  destruct (last enriched) as [c|], (last data) as [d|];
    try discriminate Hl; [|reflexivity].
  simpl in Hl. now rewrite (inj Some _ _ Hl).
Qed.

End HistoryMore.

(** X15.  A finished history load writes onto the entry the registry holds
    at that moment, not onto the runtime the load was started for: the
    entry keeps its config, position state and trade statistics, gets the
    fetched candles, enriched with the MACD periods the load was started
    with, and the close of the last fetched candle as last price (0 when
    nothing was fetched).  Every other entry, the logs, the requests and
    the active strategy stay as they are. *)
Theorem history_load_entry (rt current : StrategyRuntime.t)
    (data : list Candle.t) (w : App.World) :
  let id := StrategyConfig.id (StrategyRuntime.config rt) in
  App.latestStrategiesRef w !! id = Some current ->
  let w' := Registry.historyLoaded rt data w in
  (exists rt',
     App.latestStrategiesRef w' !! id = Some rt' /\
     StrategyRuntime.config rt' = StrategyRuntime.config current /\
     StrategyRuntime.positionState rt'
     = StrategyRuntime.positionState current /\
     StrategyRuntime.tradeStats rt' = StrategyRuntime.tradeStats current /\
     StrategyRuntime.candles rt'
     = Indicator.enrichCandlesWithIndicators data
         (Some (Indicator.mkConfig
                  (StrategyConfig.macdFast (StrategyRuntime.config rt))
                  (StrategyConfig.macdSlow (StrategyRuntime.config rt))
                  (StrategyConfig.macdSignal (StrategyRuntime.config rt)))) /\
     Raw.part <$> StrategyRuntime.candles rt' = Raw.part <$> data /\
     StrategyRuntime.lastPrice rt'
     = match last data with
       | Some c => Candle.close c
       | None => 0%float
       end) /\
  (forall k, k <> id ->
     App.latestStrategiesRef w' !! k = App.latestStrategiesRef w !! k) /\
  App.strategies w' = App.latestStrategiesRef w' /\
  App.logs w' = App.logs w /\
  App.fetched w' = App.fetched w /\
  App.activeStrategyId w' = App.activeStrategyId w.
Proof.
  intros id Hc w'. subst w'.
  rewrite (historyLoaded_entry rt current data w Hc). fold id.
  cbn [App.latestStrategiesRef App.strategies App.logs App.fetched
       App.activeStrategyId].
  split.
  - eexists. split; [apply lookup_insert_eq|].
    cbn [StrategyRuntime.config StrategyRuntime.positionState
         StrategyRuntime.tradeStats StrategyRuntime.candles
         StrategyRuntime.lastPrice].
    repeat split. apply enrich_raw.
  - split; [|repeat split].
    intros k Hk. now apply lookup_insert_ne.
Qed.

(** History for the second sample strategy arrives. *)
Lemma history_load_entry_witness :
  App.latestStrategiesRef Samples2.world2 !! "s2" = Some Samples2.runtime2 /\
  exists rt',
    App.latestStrategiesRef
      (Registry.historyLoaded Samples2.runtime2 Samples.closes1to5
         Samples2.world2) !! "s2" = Some rt' /\
    StrategyRuntime.lastPrice rt' = 5%float.
Proof.
  split; [reflexivity|].
  destruct (history_load_entry Samples2.runtime2 Samples2.runtime2
              Samples.closes1to5 Samples2.world2 eq_refl)
    as ((rt' & H1 & _ & _ & _ & _ & _ & H2) & _).
  exists rt'. split; [exact H1 | exact H2].
Defined.

(** X16.  A history load that finishes after its strategy was removed does
    not bring the strategy back: the world stays as the removal left it. *)
Theorem history_load_after_removal
    (objectKeys : gmap string StrategyRuntime.t -> list string)
    (rt : StrategyRuntime.t) (data : list Candle.t) (w : App.World) :
  let removed :=
    Registry.removeStrategy objectKeys
      (StrategyConfig.id (StrategyRuntime.config rt)) w in
  Registry.loadHistory rt data removed = removed.
Proof.
  intros removed. unfold Registry.loadHistory.
  destruct (Registry.needsHistory rt); [|reflexivity].
  unfold Registry.historyLoaded, removed, Registry.removeStrategy.
  cbn [App.latestStrategiesRef]. now rewrite lookup_delete_eq.
Qed.

(** X17.  For a strategy registered under the id of its config, an update
    that leaves the id alone and changes the symbol to another, non-empty
    one makes the runtime ask for history; when the history arrives the
    runtime has the fetched candles under the new config, and the position
    state and the trade statistics it had before the change. *)
Theorem symbol_change_reloads (id s : string)
    (updates : StrategyConfig.partial) (w : App.World)
    (rt : StrategyRuntime.t) :
  App.latestStrategiesRef w !! id = Some rt ->
  StrategyConfig.id (StrategyRuntime.config rt) = id ->
  StrategyConfig.id' updates = None ->
  StrategyConfig.symbol' updates = Some s ->
  s <> EmptyString ->
  s <> StrategyConfig.symbol (StrategyRuntime.config rt) ->
  let w1 := App.updateStrategyConfig id updates w in
  exists rt1,
    App.latestStrategiesRef w1 !! id = Some rt1 /\
    Registry.needsHistory rt1 = true /\
    forall data,
      exists rt2,
        App.latestStrategiesRef (Registry.loadHistory rt1 data w1) !! id
        = Some rt2 /\
        StrategyRuntime.config rt2
        = StrategyConfig.merge (StrategyRuntime.config rt) updates /\
        StrategyConfig.symbol (StrategyRuntime.config rt2) = s /\
        Raw.part <$> StrategyRuntime.candles rt2 = Raw.part <$> data /\
        StrategyRuntime.positionState rt2 = StrategyRuntime.positionState rt /\
        StrategyRuntime.tradeStats rt2 = StrategyRuntime.tradeStats rt.
Proof.
  intros Hrt Hid Hid' Hsym Hne Hdiff w1.
  assert (Ht : App.truthyString s = true).
  { unfold App.truthyString. apply negb_true_iff. now apply String.eqb_neq. }
  set (newConfig := StrategyConfig.merge (StrategyRuntime.config rt) updates).
  set (rt1 := StrategyRuntime.mk newConfig []
                (StrategyRuntime.positionState rt)
                (StrategyRuntime.tradeStats rt) 0%float).
  assert (Hw1 : w1 = App.mkWorld (<[id := rt1]> (App.latestStrategiesRef w))
                       (<[id := rt1]> (App.latestStrategiesRef w))
                       (App.activeStrategyId w) (App.logs w) (App.fetched w)
                       (App.consoleErrors w)).
  { unfold w1, App.updateStrategyConfig. rewrite Hrt. cbv zeta.
    rewrite Hsym, Ht.
    assert (Hd : negb (String.eqb s
                         (StrategyConfig.symbol (StrategyRuntime.config rt)))
                 = true)
      by (apply negb_true_iff; now apply String.eqb_neq).
    rewrite Hd. cbn [andb].
    assert (Hreset :
      match StrategyConfig.interval' updates with
      | Some i =>
          if App.truthyString i
             && negb (String.eqb i
                        (StrategyConfig.interval (StrategyRuntime.config rt)))
          then true else true
      | None => true
      end = true).
    { destruct (StrategyConfig.interval' updates) as [i|]; [|reflexivity].
      now destruct (_ && _). }
    rewrite Hreset. reflexivity. }
  assert (Hs : StrategyConfig.symbol newConfig = s).
  { unfold newConfig, StrategyConfig.merge. cbn [StrategyConfig.symbol].
    now rewrite Hsym. }
  assert (Hi : StrategyConfig.id newConfig = id).
  { unfold newConfig, StrategyConfig.merge. cbn [StrategyConfig.id].
    now rewrite Hid'. }
  assert (Hl : App.latestStrategiesRef w1 !! id = Some rt1).
  { rewrite Hw1. cbn [App.latestStrategiesRef]. apply lookup_insert_eq. }
  assert (Hn : Registry.needsHistory rt1 = true).
  { unfold Registry.needsHistory, rt1.
    cbn [StrategyRuntime.candles StrategyRuntime.config length].
    now rewrite Hs, Ht. }
  exists rt1. split; [exact Hl|]. split; [exact Hn|].
  intros data. unfold Registry.loadHistory. rewrite Hn.
  assert (Hl' : App.latestStrategiesRef w1
                !! StrategyConfig.id (StrategyRuntime.config rt1) = Some rt1)
    by (cbn [rt1 StrategyRuntime.config]; now rewrite Hi).
  rewrite (historyLoaded_entry rt1 rt1 data w1 Hl').
  cbn [App.latestStrategiesRef rt1 StrategyRuntime.config].
  rewrite Hi. eexists. split; [apply lookup_insert_eq|].
  cbn [StrategyRuntime.config StrategyRuntime.positionState
       StrategyRuntime.tradeStats StrategyRuntime.candles].
  repeat split; [exact Hs|]. apply enrich_raw.
Qed.

(** The first sample strategy is moved to another symbol. *)
Lemma symbol_change_reloads_witness :
  let updates :=
    StrategyConfig.mkPartial None None (Some "ETHUSDT") None None None None
      None None None None in
  (App.latestStrategiesRef Samples.world !! "s1" = Some Samples.runtime /\
   "ETHUSDT" <> EmptyString /\
   "ETHUSDT" <> StrategyConfig.symbol (StrategyRuntime.config Samples.runtime))
  /\
  exists rt1,
    App.latestStrategiesRef
      (App.updateStrategyConfig "s1" updates Samples.world) !! "s1"
    = Some rt1 /\
    Registry.needsHistory rt1 = true.
Proof.
  intros updates.
  assert (H1 : "ETHUSDT" <> EmptyString) by discriminate.
  assert (H2 : "ETHUSDT"
               <> StrategyConfig.symbol
                    (StrategyRuntime.config Samples.runtime))
    by discriminate.
  split; [split; [reflexivity|split; assumption]|].
  destruct (symbol_change_reloads "s1" "ETHUSDT" updates Samples.world
              Samples.runtime eq_refl eq_refl eq_refl eq_refl H1 H2)
    as (rt1 & Hl & Hn & _).
  exists rt1. split; [exact Hl | exact Hn].
Defined.

(** X18.  When the fetch of the history fails (it throws, or the response
    is not an array) or brings no row, the load stores an empty window and
    the last price 0: the runtime still asks for history, as long as its
    symbol is not empty. *)
Theorem failed_fetch_still_needs_history (parseFloat : string -> JS.number)
    (response : Binance.Response) (rt current : StrategyRuntime.t)
    (w : App.World) :
  response = Binance.Threw \/ response = Binance.NotAnArray
  \/ response = Binance.Rows [] ->
  Registry.needsHistory rt = true ->
  App.latestStrategiesRef w
  !! StrategyConfig.id (StrategyRuntime.config rt) = Some current ->
  StrategyConfig.symbol (StrategyRuntime.config current) <> EmptyString ->
  let data := Binance.fetchHistoricalCandles parseFloat response in
  let w' := Registry.loadHistory rt data w in
  data = [] /\
  exists rt',
    App.latestStrategiesRef w'
    !! StrategyConfig.id (StrategyRuntime.config rt) = Some rt' /\
    StrategyRuntime.candles rt' = [] /\
    StrategyRuntime.lastPrice rt' = 0%float /\
    Registry.needsHistory rt' = true.
Proof.
  intros Hresp Hn Hc Hsym data w'.
  assert (Hd : data = []) by (destruct Hresp as [->|[->| ->]]; reflexivity).
  split; [exact Hd|].
  subst w'. unfold Registry.loadHistory. rewrite Hn, Hd.
  rewrite (historyLoaded_entry rt current [] w Hc).
  cbn [App.latestStrategiesRef]. eexists.
  split; [apply lookup_insert_eq|].
  cbn [StrategyRuntime.candles StrategyRuntime.lastPrice last].
  split; [reflexivity|]. split; [reflexivity|].
  unfold Registry.needsHistory.
  cbn [StrategyRuntime.candles StrategyRuntime.config].
  change (Indicator.enrichCandlesWithIndicators [] _) with (@nil Candle.t).
  cbn [length]. unfold App.truthyString.
  apply andb_true_iff. split; [reflexivity|].
  apply negb_true_iff. now apply String.eqb_neq.
Qed.

(** The fetch for the second sample strategy throws. *)
Lemma failed_fetch_still_needs_history_witness :
  (Registry.needsHistory Samples2.runtime2 = true /\
   App.latestStrategiesRef Samples2.world2 !! "s2" = Some Samples2.runtime2 /\
   StrategyConfig.symbol (StrategyRuntime.config Samples2.runtime2)
   <> EmptyString) /\
  exists rt',
    App.latestStrategiesRef
      (Registry.loadHistory Samples2.runtime2
         (Binance.fetchHistoricalCandles Samples2.parseDigit Binance.Threw)
         Samples2.world2) !! "s2" = Some rt' /\
    Registry.needsHistory rt' = true.
Proof.
  assert (Hs : StrategyConfig.symbol
                 (StrategyRuntime.config Samples2.runtime2) <> EmptyString)
    by discriminate.
  split; [split; [reflexivity|split; [reflexivity|exact Hs]]|].
  destruct (failed_fetch_still_needs_history Samples2.parseDigit
              Binance.Threw Samples2.runtime2 Samples2.runtime2
              Samples2.world2 (or_introl eq_refl) eq_refl eq_refl Hs)
    as (_ & rt' & Hl & _ & _ & Hn).
  exists rt'. split; [exact Hl | exact Hn].
Defined.

(** * Further properties of adding and removing strategies *)

Section AddRemoveMore.

Variable objectKeys : gmap string StrategyRuntime.t -> list string.

(** [Object.keys] lists the keys of the object. *)
Hypothesis objectKeys_spec :
  forall (m : gmap string StrategyRuntime.t) (k : string),
    k ∈ objectKeys m <-> is_Some (m !! k).

Lemma objectKeys_empty (m : gmap string StrategyRuntime.t) :
  m = ∅ -> objectKeys m = [].
Proof.
  intros ->. destruct (objectKeys ∅) as [|k ks] eqn:E; [reflexivity|].
  assert (Hk : k ∈ objectKeys ∅) by (rewrite E; apply list_elem_of_here).
  apply objectKeys_spec in Hk. rewrite lookup_empty in Hk.
  now destruct Hk.
Qed.

Lemma objectKeys_first (m : gmap string StrategyRuntime.t) :
  m <> ∅ -> exists first rest,
    objectKeys m = first :: rest /\ is_Some (m !! first).
Proof.
  intros Hne. destruct (objectKeys m) as [|k ks] eqn:E.
  - exfalso. apply Hne. apply map_empty. intros i.
    destruct (m !! i) as [x|] eqn:Hi; [|reflexivity].
    assert (Hin : i ∈ objectKeys m) by (apply objectKeys_spec; eauto).
    rewrite E in Hin. inversion Hin.
  - exists k, ks. split; [reflexivity|].
    apply objectKeys_spec. rewrite E. apply list_elem_of_here.
Qed.

End AddRemoveMore.

Lemma listedKeys_spec (m : gmap string StrategyRuntime.t) (k : string) :
  k ∈ Registry.listedKeys m <-> is_Some (m !! k).
Proof.
  unfold Registry.listedKeys. rewrite list_elem_of_fmap. split.
  - intros ([k' x] & -> & Hin). apply elem_of_map_to_list in Hin.
    simpl. eauto.
  - intros [x Hx]. exists (k, x). split; [reflexivity|].
    now apply elem_of_map_to_list.
Qed.

(** X19.  A strategy added under an id that is not registered yet: the
    registry grows by one, every registered runtime stays as it is, and
    the new strategy is the active one.  Its runtime is flat, without
    candles and with [lastPrice] 0, carries the trade statistics made when
    the module was loaded, is named after the number of strategies the
    registry then has, and asks for history when the default symbol is not
    empty.  The logs are untouched. *)
Theorem addStrategy_fresh (DEFAULT_CONFIG : StrategyConfig.t)
    (INITIAL_STATS : TradeStats.t) (newId : string) (w : App.World) :
  App.latestStrategiesRef w !! newId = None ->
  let w' := Registry.addStrategy DEFAULT_CONFIG INITIAL_STATS newId w in
  size (App.latestStrategiesRef w') = S (size (App.latestStrategiesRef w)) /\
  (forall k rt,
     App.latestStrategiesRef w !! k = Some rt ->
     App.latestStrategiesRef w' !! k = Some rt) /\
  App.strategies w' = App.latestStrategiesRef w' /\
  App.activeStrategyId w' = newId /\
  App.logs w' = App.logs w /\
  exists rt,
    App.latestStrategiesRef w' !! newId = Some rt /\
    StrategyConfig.id (StrategyRuntime.config rt) = newId /\
    StrategyConfig.name (StrategyRuntime.config rt)
    = "策略 #" +:+ pretty (S (size (App.latestStrategiesRef w))) /\
    StrategyConfig.symbol (StrategyRuntime.config rt)
    = StrategyConfig.symbol DEFAULT_CONFIG /\
    StrategyRuntime.candles rt = [] /\
    StrategyRuntime.positionState rt = App.INITIAL_POS_STATE /\
    StrategyRuntime.tradeStats rt = INITIAL_STATS /\
    StrategyRuntime.lastPrice rt = 0%float /\
    Registry.needsHistory rt
    = App.truthyString (StrategyConfig.symbol DEFAULT_CONFIG).
Proof.
  intros Hfresh w'. subst w'. unfold Registry.addStrategy. cbv zeta.
  cbn [App.latestStrategiesRef App.strategies App.activeStrategyId
       App.logs].
  split; [now apply map_size_insert_None|].
  split.
  { intros k rt Hk. rewrite lookup_insert_ne; [exact Hk|].
    intros ->. rewrite Hfresh in Hk. discriminate Hk. }
  do 3 (split; [reflexivity|]).
  eexists. split; [apply lookup_insert_eq|].
  cbn [StrategyRuntime.config StrategyRuntime.candles
       StrategyRuntime.positionState StrategyRuntime.tradeStats
       StrategyRuntime.lastPrice StrategyConfig.id StrategyConfig.name
       StrategyConfig.symbol].
  split; [reflexivity|].
  split; [now rewrite Nat.add_1_r|].
  repeat split.
Qed.

(** A third strategy for the sample registry. *)
Lemma addStrategy_fresh_witness :
  App.latestStrategiesRef Samples2.world2 !! "k3x9q2m1p" = None /\
  size
    (App.latestStrategiesRef
       (Registry.addStrategy Samples2.defaultConfig Samples2.initialStats
          "k3x9q2m1p" Samples2.world2)) = 3%nat.
Proof.
  split; [reflexivity|].
  destruct (addStrategy_fresh Samples2.defaultConfig Samples2.initialStats
              "k3x9q2m1p" Samples2.world2 eq_refl) as (H & _).
  rewrite H. reflexivity.
Defined.

(** X20.  Removing a strategy, [Object.keys] listing the keys of an object:
    the id is no longer registered and every other entry stays as it is.
    If the active strategy was registered and a strategy is left, the
    active strategy is a registered one afterwards.  If no strategy is left
    the active id stays the removed one, and a manual order then does
    nothing. *)
Theorem removeStrategy_active
    (objectKeys : gmap string StrategyRuntime.t -> list string)
    (id : string) (w : App.World) :
  (forall (m : gmap string StrategyRuntime.t) (k : string),
     k ∈ objectKeys m <-> is_Some (m !! k)) ->
  is_Some (App.latestStrategiesRef w !! App.activeStrategyId w) ->
  let w' := Registry.removeStrategy objectKeys id w in
  App.latestStrategiesRef w' !! id = None /\
  (forall k, k <> id ->
     App.latestStrategiesRef w' !! k = App.latestStrategiesRef w !! k) /\
  App.strategies w' = App.latestStrategiesRef w' /\
  (App.latestStrategiesRef w' <> ∅ ->
   is_Some (App.latestStrategiesRef w' !! App.activeStrategyId w')) /\
  (App.latestStrategiesRef w' = ∅ ->
   App.activeStrategyId w' = id /\
   forall now env type, App.handleManualOrder now env type w' = w').
Proof.
  intros Hkeys Hactive w'. subst w'. unfold Registry.removeStrategy.
  cbv zeta.
  cbn [App.latestStrategiesRef App.strategies App.activeStrategyId].
  split; [apply lookup_delete_eq|].
  split; [intros k Hk; now apply lookup_delete_ne|].
  split; [reflexivity|].
  split.
  - intros Hne.
    destruct (objectKeys_first objectKeys Hkeys _ Hne)
      as (first & rest & -> & Hfirst).
    destruct (String.eqb_spec (App.activeStrategyId w) id) as [E|N];
      [exact Hfirst|].
    rewrite lookup_delete_ne; [exact Hactive|]. congruence.
  - intros Hempty.
    rewrite (objectKeys_empty objectKeys Hkeys _ Hempty).
    assert (Hid : App.activeStrategyId w = id).
    { destruct (decide (App.activeStrategyId w = id)) as [E|N]; [exact E|].
      exfalso. rewrite <- (lookup_delete_ne _ id) in Hactive by congruence.
      rewrite Hempty, lookup_empty in Hactive. now destruct Hactive. }
    split; [exact Hid|].
    intros now env type. apply handleManualOrder_missing.
    cbn [App.latestStrategiesRef App.activeStrategyId].
    rewrite Hempty. apply lookup_empty.
Qed.

(** The active strategy of the sample registry is removed. *)
Lemma removeStrategy_active_witness :
  is_Some
    (App.latestStrategiesRef Samples2.world2
     !! App.activeStrategyId Samples2.world2) /\
  App.latestStrategiesRef
    (Registry.removeStrategy Registry.listedKeys "s1" Samples2.world2)
  !! "s1" = None.
Proof.
  assert (Ha : is_Some
                 (App.latestStrategiesRef Samples2.world2
                  !! App.activeStrategyId Samples2.world2))
    by (exists Samples.runtime; reflexivity).
  split; [exact Ha|].
  destruct (removeStrategy_active Registry.listedKeys "s1" Samples2.world2
              listedKeys_spec Ha) as (H & _).
  exact H.
Defined.

(** X21.  Adding a strategy under a new id and removing it again gives the
    registry back as it was, but not the selection: the active strategy is
    then the first one [Object.keys] lists, whichever was active before,
    and the removed id itself when [Object.keys] lists none. *)
Theorem add_then_remove (DEFAULT_CONFIG : StrategyConfig.t)
    (INITIAL_STATS : TradeStats.t)
    (objectKeys : gmap string StrategyRuntime.t -> list string)
    (newId : string) (w : App.World) :
  App.latestStrategiesRef w !! newId = None ->
  let w' :=
    Registry.removeStrategy objectKeys newId
      (Registry.addStrategy DEFAULT_CONFIG INITIAL_STATS newId w) in
  App.latestStrategiesRef w' = App.latestStrategiesRef w /\
  App.strategies w' = App.latestStrategiesRef w /\
  App.logs w' = App.logs w /\
  App.activeStrategyId w'
  = match objectKeys (App.latestStrategiesRef w) with
    | first :: _ => first
    | [] => newId
    end.
Proof.
  intros Hfresh w'. subst w'.
  unfold Registry.removeStrategy, Registry.addStrategy. cbv zeta.
  cbn [App.latestStrategiesRef App.strategies App.activeStrategyId
       App.logs].
  rewrite (delete_insert_id _ _ _ Hfresh).
  do 3 (split; [reflexivity|]).
  destruct (objectKeys (App.latestStrategiesRef w)); [reflexivity|].
  now rewrite String.eqb_refl.
Qed.

(** A third strategy is added to the sample registry and removed again. *)
Lemma add_then_remove_witness :
  App.latestStrategiesRef Samples2.world2 !! "k3x9q2m1p" = None /\
  App.latestStrategiesRef
    (Registry.removeStrategy Registry.listedKeys "k3x9q2m1p"
       (Registry.addStrategy Samples2.defaultConfig Samples2.initialStats
          "k3x9q2m1p" Samples2.world2))
  = App.latestStrategiesRef Samples2.world2.
Proof.
  split; [reflexivity|].
  destruct (add_then_remove Samples2.defaultConfig Samples2.initialStats
              Registry.listedKeys "k3x9q2m1p" Samples2.world2 eq_refl)
    as (H & _).
  exact H.
Defined.

(** * Properties of the chart markers *)

Section ChartMore.

Lemma find_rev_split {A : Type} (p : A -> bool) (l : list A) :
  match List.find p (rev l) with
  | Some c =>
      exists before after,
        l = before ++ c :: after /\ p c = true
        /\ Forall (fun x => p x = false) after
  | None => Forall (fun x => p x = false) l
  end.
Proof.
  induction l as [|x l IH] using rev_ind; [constructor|].
  rewrite rev_unit. simpl. destruct (p x) eqn:Hx.
  - exists l, []. repeat split; [exact Hx|constructor].
  - destruct (List.find p (rev l)) as [c|].
    + destruct IH as (before & after & -> & Hc & Hafter).
      exists before, (after ++ [x]). split; [now rewrite <- app_assoc|].
      split; [exact Hc|]. apply Forall_app. split; [exact Hafter|].
      now repeat constructor.
    + apply Forall_app. split; [exact IH|]. now repeat constructor.
Qed.

Lemma find_rev_last {A : Type} (p : A -> bool) (before after : list A)
    (c : A) :
  p c = true -> Forall (fun x => p x = false) after ->
  List.find p (rev (before ++ c :: after)) = Some c.
Proof.
  intros Hc Hafter. rewrite rev_app_distr. simpl. rewrite <- app_assoc.
  induction after as [|x after IH] using rev_ind.
  - simpl. now rewrite Hc.
  - apply Forall_app in Hafter as [Hafter Hx].
    inversion_clear Hx as [|? ? Hx' _].
    rewrite rev_unit. simpl. rewrite Hx'. now apply IH.
Qed.

Lemma increasing_after (t : Z) (ts : list Z) :
  App.increasing (t :: ts) = true -> Forall (fun t' => t < t') ts.
Proof.
  revert t. induction ts as [|t1 ts IH]; intros t H; [constructor|].
  simpl in H. apply andb_true_iff in H as [H1 H2].
  apply Z.ltb_lt in H1. constructor; [exact H1|].
  eapply Forall_impl; [apply (IH t1 H2)|]. simpl. lia.
Qed.

Lemma increasing_app_r (a b : list Z) :
  App.increasing (a ++ b) = true -> App.increasing b = true.
Proof.
  replace b with (drop (length a) (a ++ b)) at 2
    by now rewrite drop_app_length.
  apply increasing_drop.
Qed.

Lemma closestCandle_found (data : list Candle.t) (logTime : Z)
    (c : Candle.t) :
  Chart.closestCandle data logTime = Some c ->
  Exists (fun c => Candle.time c <= logTime) data.
Proof.
  unfold Chart.closestCandle. intros H.
  pose proof (find_rev_split (fun c => Candle.time c <=? logTime) data) as S.
  rewrite H in S. destruct S as (before & after & -> & Hc & _).
  apply Exists_app. right. constructor. now apply Z.leb_le.
Qed.

Lemma closestCandle_none (data : list Candle.t) (logTime : Z) :
  Chart.closestCandle data logTime = None ->
  ~ Exists (fun c => Candle.time c <= logTime) data.
Proof.
  unfold Chart.closestCandle. intros H.
  pose proof (find_rev_split (fun c => Candle.time c <=? logTime) data) as S.
  rewrite H in S. intros Hex. apply Exists_exists in Hex as (c & Hin & Hc).
  rewrite Forall_forall in S. specialize (S c Hin). simpl in S.
  apply Z.leb_gt in S. lia.
Qed.

Lemma closestCandle_in_bar (before after : list Candle.t) (c : Candle.t)
    (logTime : Z) :
  App.strictlyIncreasing (before ++ c :: after) = true ->
  Candle.time c <= logTime ->
  match after with
  | next :: _ => logTime < Candle.time next
  | [] => True
  end ->
  Chart.closestCandle (before ++ c :: after) logTime = Some c.
Proof.
  intros Hinc Hc Hnext.
  unfold Chart.closestCandle. apply find_rev_last; [now apply Z.leb_le|].
  destruct after as [|next after]; [constructor|].
  unfold App.strictlyIncreasing in Hinc.
  change (map ?f ?l) with (f <$> l) in Hinc.
  rewrite fmap_app in Hinc. apply increasing_app_r in Hinc.
  rewrite !fmap_cons in Hinc. apply increasing_tail in Hinc.
  pose proof (increasing_after _ _ Hinc) as Hafter.
  constructor; [now apply Z.leb_gt|].
  rewrite Forall_fmap in Hafter.
  eapply Forall_impl; [exact Hafter|]. simpl. intros x Hx.
  apply Z.leb_gt. lia.
Qed.

End ChartMore.

(** X22.  The candle a marker is drawn on is the last candle of the data
    that starts at or before the time of the log: every candle after it
    starts later.  There is none exactly when every candle starts after the
    log. *)
Theorem closestCandle_spec (data : list Candle.t) (logTime : Z) :
  match Chart.closestCandle data logTime with
  | Some c =>
      exists before after,
        data = before ++ c :: after /\ Candle.time c <= logTime
        /\ Forall (fun c' => logTime < Candle.time c') after
  | None => Forall (fun c' => logTime < Candle.time c') data
  end.
Proof.
  unfold Chart.closestCandle.
  pose proof (find_rev_split (fun c => Candle.time c <=? logTime) data) as S.
  destruct (List.find _ (rev data)) as [c|].
  - destruct S as (before & after & -> & Hc & Hafter).
    exists before, after. split; [reflexivity|].
    split; [now apply Z.leb_le|].
    eapply Forall_impl; [exact Hafter|]. simpl. intros x Hx.
    now apply Z.leb_gt.
  - eapply Forall_impl; [exact S|]. simpl. intros x Hx.
    now apply Z.leb_gt.
Qed.

(** X23.  On data with strictly increasing times, a log whose time falls
    into the bar of a candle, at or after its start and before the start
    of the next candle, gets its marker on that candle: at the candle's
    time, below at the low for a buying action ("buy", "buy_to_cover") and
    above at the high for any other. *)
Theorem marker_in_bar (before after : list Candle.t) (c : Candle.t)
    (log : AlertLog.t) :
  App.strictlyIncreasing (before ++ c :: after) = true ->
  Candle.time c <= AlertLog.timestamp log ->
  match after with
  | next :: _ => AlertLog.timestamp log < Candle.time next
  | [] => True
  end ->
  exists m,
    Chart.marker (before ++ c :: after) log = Some m /\
    Chart.id m = AlertLog.id log /\
    Chart.x m = Candle.time c /\
    let action := WebhookPayload.action (AlertLog.payload log) in
    (action = "buy" \/ action = "buy_to_cover" ->
     Chart.y m = Candle.low c /\ Chart.type m = "buy") /\
    (action <> "buy" -> action <> "buy_to_cover" ->
     Chart.y m = Candle.high c /\ Chart.type m = "sell").
Proof.
  intros Hinc Hc Hnext.
  pose proof (closestCandle_in_bar before after c (AlertLog.timestamp log)
                Hinc Hc Hnext) as Hfind.
  unfold Chart.marker. rewrite Hfind. cbv zeta. eexists.
  split; [reflexivity|]. cbn [Chart.id Chart.x Chart.y Chart.type].
  split; [reflexivity|]. split; [reflexivity|]. split.
  - intros [-> | ->]; split; reflexivity.
  - intros H1 H2. apply String.eqb_neq in H1, H2. now rewrite H1, H2.
Qed.

(** A log line written during the third of the sample candles. *)
Lemma marker_in_bar_witness :
  let log :=
    AlertLog.mk "k3x9q2m1p" "s1" "Strategy 1" 3
      (App.manualPayload Samples.clock LONG Samples.runtime) "sent"
      "Strategy" in
  App.strictlyIncreasing Samples.closes1to5 = true /\
  exists m, Chart.marker Samples.closes1to5 log = Some m /\ Chart.x m = 3.
Proof.
  intros log. split; [reflexivity|].
  destruct (marker_in_bar
              [Candle.ofClose 1 1%float; Candle.ofClose 2 2%float]
              [Candle.ofClose 4 4%float; Candle.ofClose 5 5%float]
              (Candle.ofClose 3 3%float) log eq_refl)
    as (m & Hm & _ & Hx & _); [simpl; lia|simpl; lia|].
  exists m. split; [exact Hm | exact Hx].
Defined.

(** X24.  The markers are those of the logs that are not older than every
    candle, one each and in the order of the logs; each sits at the time
    of a candle of the data. *)
Theorem markers_of_logs (logs : list AlertLog.t) (data : list Candle.t) :
  Chart.id <$> Chart.markers logs data
  = AlertLog.id
    <$> filter
          (fun log =>
             Exists (fun c => Candle.time c <= AlertLog.timestamp log) data)
          logs
  /\ Forall (fun m => Exists (fun c => Candle.time c = Chart.x m) data)
       (Chart.markers logs data).
Proof.
  unfold Chart.markers. split.
  - induction logs as [|log logs IH]; [reflexivity|].
    simpl. unfold Chart.marker at 1.
    destruct (Chart.closestCandle data (AlertLog.timestamp log)) as [c|]
      eqn:Hc; cbv zeta.
    + rewrite filter_cons_True by exact (closestCandle_found _ _ _ Hc).
      rewrite !fmap_cons. now f_equal.
    + now rewrite filter_cons_False by exact (closestCandle_none _ _ Hc).
  - apply Forall_forall. intros m Hm.
    apply list_elem_of_omap in Hm as (log & _ & Hm).
    unfold Chart.marker in Hm.
    destruct (Chart.closestCandle data (AlertLog.timestamp log)) as [c|]
      eqn:Hc; [|discriminate Hm].
    cbv zeta in Hm. apply (inj Some) in Hm. subst m. cbn [Chart.x].
    pose proof (find_rev_split
                  (fun c => Candle.time c <=? AlertLog.timestamp log) data)
      as S.
    unfold Chart.closestCandle in Hc. rewrite Hc in S.
    destruct S as (before & after & -> & _).
    apply Exists_app. right. now constructor.
Qed.

(** * Properties of the server's log store *)

Section ServerMore.

Context {Log : Type}.

Lemma take_app_take (n : nat) (a b : list Log) :
  take n (a ++ take n b) = take n (a ++ b).
Proof.
  rewrite !take_app, take_take. f_equal. f_equal. lia.
Qed.

Lemma addLog_fold (xs : list Log) (s : Server.State Log) :
  let s' := fold_left (fun s x => Server.addLog x s) xs s in
  take 500 (Server.logs s') = take 500 (rev xs ++ Server.logs s) /\
  Server.logNew s' = Server.logNew s ++ xs.
Proof.
  revert s. induction xs as [|x xs IH]; intros s; simpl.
  - split; [reflexivity|now rewrite app_nil_r].
  - destruct (IH (Server.addLog x s)) as (H1 & H2). split.
    + rewrite H1. cbn [Server.addLog Server.logs].
      rewrite take_app_take. now rewrite <- app_assoc.
    + rewrite H2. cbn [Server.addLog Server.logNew].
      now rewrite <- app_assoc.
Qed.

Lemma addLog_fold_short (xs : list Log) (s : Server.State Log) :
  xs <> [] ->
  (length (Server.logs (fold_left (fun s x => Server.addLog x s) xs s))
   <= 500)%nat.
Proof.
  revert s. induction xs as [|x xs IH] using rev_ind; intros s Hne;
    [contradiction|].
  rewrite fold_left_app. simpl. rewrite length_take. lia.
Qed.

End ServerMore.

(** X25.  After any number of logs, at least one, were added to the store,
    the store holds the newest 500 of all logs, newest first: the added
    ones in reverse, then the ones it had.  It never holds more than 500,
    and every added log was sent to the clients once, in the order of
    arrival. *)
Theorem addLog_many {Log : Type} (xs : list Log) (s : Server.State Log) :
  xs <> [] ->
  let s' := fold_left (fun s x => Server.addLog x s) xs s in
  Server.logs s' = take 500 (rev xs ++ Server.logs s) /\
  (length (Server.logs s') <= 500)%nat /\
  Server.logNew s' = Server.logNew s ++ xs.
Proof.
  intros Hne s'.
  destruct (addLog_fold xs s) as (H1 & H2). fold s' in H1, H2.
  pose proof (addLog_fold_short xs s Hne) as H3. fold s' in H3.
  split; [|split; [exact H3 | exact H2]].
  rewrite <- H1. symmetry. apply take_ge. exact H3.
Qed.

(** Three logs for an empty store. *)
Lemma addLog_many_witness :
  [1; 2; 3] <> [] /\
  Server.logs
    (fold_left (fun s x => Server.addLog x s) [1; 2; 3]
       (Server.mkState [] []))
  = [3; 2; 1].
Proof.
  assert (Hne : [1; 2; 3] <> []) by discriminate.
  split; [exact Hne|].
  destruct (addLog_many [1; 2; 3] (Server.mkState [] []) Hne) as (H & _).
  rewrite H. reflexivity.
Defined.

(** * Properties of the WebSocket streams and frames *)

Section StreamsMore.

Lemma indexOfFrom_member (v : string) (a : list string) (k : nat) :
  v ∈ a ->
  exists i, Registry.indexOfFrom v a k = Z.of_nat (k + i) /\ a !! i = Some v.
Proof.
  revert k. induction a as [|x a IH]; intros k Hin; [inversion Hin|].
  simpl. destruct (String.eqb_spec x v) as [->|N].
  - exists 0%nat. split; [f_equal; lia|reflexivity].
  - apply elem_of_cons in Hin as [->|Hin]; [contradiction|].
    destruct (IH (S k) Hin) as (i & Hi & Hl).
    exists (S i). split; [rewrite Hi; f_equal; lia|exact Hl].
Qed.

Lemma indexed_lookup (a : list string) (i : nat) (iv : nat * string) :
  imap (fun i v => (i, v)) a !! i = Some iv ->
  iv.1 = i /\ a !! i = Some iv.2.
Proof.
  rewrite list_lookup_imap. destruct (a !! i) as [v|]; [|discriminate].
  simpl. intros H. apply (inj Some) in H. subst iv. now split.
Qed.

Lemma indexed_NoDup (a : list string) :
  NoDup (imap (fun i v => (i, v)) a).
Proof.
  apply NoDup_alt. intros i j iv Hi Hj.
  apply indexed_lookup in Hi as [Hi _], Hj as [Hj _]. congruence.
Qed.

Lemma firstOccurrences_NoDup (a : list string) :
  NoDup (Registry.firstOccurrences a).
Proof.
  unfold Registry.firstOccurrences.
  apply NoDup_fmap_2_strong; [|apply NoDup_filter, indexed_NoDup].
  intros [i v] [j v'] Hi Hj Hv. simpl in Hv. subst v'.
  apply list_elem_of_filter in Hi as [Hi _], Hj as [Hj _]. simpl in Hi, Hj.
  f_equal. lia.
Qed.

Lemma firstOccurrences_member (a : list string) (v : string) :
  v ∈ Registry.firstOccurrences a <-> v ∈ a.
Proof.
  unfold Registry.firstOccurrences. rewrite list_elem_of_fmap. split.
  - intros ([i v'] & -> & Hin). apply list_elem_of_filter in Hin as [_ Hin].
    apply list_elem_of_lookup in Hin as [j Hj].
    apply indexed_lookup in Hj as [_ Hj]. simpl in *.
    now apply list_elem_of_lookup_2 in Hj.
  - intros Hin. destruct (indexOfFrom_member v a 0 Hin) as (i & Hi & Hl).
    exists (i, v). split; [reflexivity|].
    apply list_elem_of_filter. split; [exact Hi|].
    apply (list_elem_of_lookup_2 _ i). rewrite list_lookup_imap, Hl.
    reflexivity.
Qed.

Lemma streams_member (w : App.World) (s : string) :
  s ∈ Registry.streams w
  <-> exists k rt,
        App.strategies w !! k = Some rt
        /\ App.targetStream (StrategyRuntime.config rt) = s.
Proof.
  unfold Registry.streams. rewrite firstOccurrences_member.
  change (map ?f ?l) with (f <$> l). rewrite list_elem_of_fmap. split.
  - intros (rt & -> & Hin). change (map snd ?l) with (l.*2) in Hin.
    apply list_elem_of_fmap in Hin as ([k r] & -> & Hin).
    apply elem_of_map_to_list in Hin. now exists k, r.
  - intros (k & rt & Hrt & <-). exists rt. split; [reflexivity|].
    change (map snd ?l) with (l.*2). apply list_elem_of_fmap.
    exists (k, rt). split; [reflexivity|]. now apply elem_of_map_to_list.
Qed.

End StreamsMore.

(** X26.  The streams the WebSocket is opened on: no stream is named
    twice, and a stream is named exactly when a runtime of the
    [strategies] state has it as the stream of its symbol and interval. *)
Theorem streams_spec (w : App.World) :
  NoDup (Registry.streams w) /\
  forall s,
    s ∈ Registry.streams w
    <-> exists k rt,
          App.strategies w !! k = Some rt
          /\ App.targetStream (StrategyRuntime.config rt) = s.
Proof.
  split; [apply firstOccurrences_NoDup|]. intros s. apply streams_member.
Qed.

(** X27.  A frame is dropped, the whole state staying as it is, when it has
    no data, when its event is not a kline, and, the [strategies] state
    showing what [latestStrategiesRef] holds, when its stream is not one of
    those the WebSocket was opened on. *)
Theorem frame_ignored (parseFloat : string -> JS.number)
    (evaluateStrategy :
       list Candle.t -> StrategyConfig.t -> PositionState.t ->
       TradeStats.t -> EvalResult.t)
    (sendEnv : nat -> App.SendEnv) (frame : Binance.Frame) (w : App.World) :
  Binance.data frame = None
  \/ (exists msg, Binance.data frame = Some msg
                  /\ Binance.msg_e msg <> "kline")
  \/ (Registry.synced w /\ Binance.stream frame ∉ Registry.streams w) ->
  Binance.onmessage parseFloat evaluateStrategy sendEnv frame w = w.
Proof.
  intros [Hnone | [(msg & Hmsg & He) | (Hs & Hstream)]];
    unfold Binance.onmessage.
  - now rewrite Hnone.
  - rewrite Hmsg. unfold Binance.parseSocketMessage.
    apply String.eqb_neq in He. now rewrite He.
  - destruct (Binance.data frame) as [msg|]; [|reflexivity].
    destruct (Binance.parseSocketMessage parseFloat msg) as [kline|];
      [|reflexivity].
    apply nobody_subscribed_unchanged. intros k rt Hrt Heq.
    apply Hstream. apply streams_member. exists k, rt.
    split; [|exact Heq]. now rewrite Hs.
Qed.

(** A frame of a stream no sample strategy is on. *)
Lemma frame_ignored_witness :
  let frame :=
    Binance.mkFrame "solusdt@kline_1m" (Binance.data Samples2.klineFrame) in
  (Registry.synced Samples2.world2
   /\ Binance.stream frame ∉ Registry.streams Samples2.world2) /\
  Binance.onmessage Samples2.parseDigit Samples.holdEngine
    (fun _ => Samples.sendEnv) frame Samples2.world2
  = Samples2.world2.
Proof.
  intros frame.
  assert (H : Registry.synced Samples2.world2
              /\ Binance.stream frame ∉ Registry.streams Samples2.world2).
  { split; [reflexivity|].
    assert (E : Registry.streams Samples2.world2
                = ["btcusdt@kline_1m"; "ethusdt@kline_5m"]
                \/ Registry.streams Samples2.world2
                   = ["ethusdt@kline_5m"; "btcusdt@kline_1m"])
      by (vm_compute; auto).
    destruct E as [-> | ->]; intros Hin;
      repeat (apply elem_of_cons in Hin as [Hin|Hin];
              [discriminate Hin|]);
      inversion Hin. }
  split; [exact H|].
  apply (frame_ignored Samples2.parseDigit Samples.holdEngine
           (fun _ => Samples.sendEnv) frame Samples2.world2).
  right. right. exact H.
Defined.

(** X28.  A kline frame on the stream of a runtime that is registered under
    its config id advances that runtime: its last price is what
    [parseFloat] makes of the kline's close, and its window ends with a
    candle that has the kline's open time and its closed flag. *)
Theorem kline_frame_applied (parseFloat : string -> JS.number)
    (evaluateStrategy :
       list Candle.t -> StrategyConfig.t -> PositionState.t ->
       TradeStats.t -> EvalResult.t)
    (sendEnv : nat -> App.SendEnv) (frame : Binance.Frame)
    (msg : Binance.SocketMessage) (w : App.World) (id : string)
    (rt : StrategyRuntime.t) :
  Binance.data frame = Some msg ->
  Binance.msg_e msg = "kline" ->
  Registry.keyed (App.latestStrategiesRef w) ->
  App.latestStrategiesRef w !! id = Some rt ->
  App.targetStream (StrategyRuntime.config rt) = Binance.stream frame ->
  let k := Binance.msg_k msg in
  let w' := Binance.onmessage parseFloat evaluateStrategy sendEnv frame w in
  exists rt',
    App.latestStrategiesRef w' !! id = Some rt' /\
    StrategyRuntime.lastPrice rt' = parseFloat (Binance.k_c k) /\
    exists c,
      last (StrategyRuntime.candles rt') = Some c /\
      Candle.time c = Binance.k_t k /\
      Candle.isClosed c = Binance.k_x k /\
      Candle.close c = parseFloat (Binance.k_c k).
Proof.
  intros Hmsg He Hk Hrt Hstream k w'. subst w'. unfold Binance.onmessage.
  rewrite Hmsg. unfold Binance.parseSocketMessage. rewrite He.
  change (negb (String.eqb "kline" "kline")) with false. cbv iota zeta.
  fold k. set (kline := Candle.raw _ _ _ _ _ _ _).
  exists (fst (App.processRuntime evaluateStrategy kline rt)).
  split; [now apply processGlobalRealtimeCandle_ref|].
  unfold App.processRuntime.
  cbn [fst StrategyRuntime.candles StrategyRuntime.lastPrice].
  split; [reflexivity|].
  set (config := Some _).
  assert (Hl : Raw.part
                 <$> last (Indicator.enrichCandlesWithIndicators
                             (App.updateCandles (StrategyRuntime.candles rt)
                                kline) config)
               = Some (Raw.part kline)).
  { rewrite <- fmap_last, enrich_raw, fmap_last, updateCandles_last.
    reflexivity. }
  destruct (last _) as [c|]; [|discriminate Hl].
  exists c. split; [reflexivity|].
  change (Some (Raw.part c) = Some (Raw.part kline)) in Hl.
  pose proof (inj Some _ _ Hl) as Hc.
  split; [|split].
  - exact (f_equal Candle.time Hc).
  - exact (f_equal Candle.isClosed Hc).
  - exact (f_equal Candle.close Hc).
Qed.

(** The sample frame reaches the first sample strategy. *)
Lemma kline_frame_applied_witness :
  (Registry.keyed (App.latestStrategiesRef Samples2.world2) /\
   App.targetStream Samples.config = Binance.stream Samples2.klineFrame) /\
  exists rt',
    App.latestStrategiesRef
      (Binance.onmessage Samples2.parseDigit Samples.holdEngine
         (fun _ => Samples.sendEnv) Samples2.klineFrame Samples2.world2)
    !! "s1" = Some rt' /\
    StrategyRuntime.lastPrice rt' = 7%float.
Proof.
  assert (Hk : Registry.keyed (App.latestStrategiesRef Samples2.world2)).
  { apply map_Forall_insert_2; [reflexivity|].
    apply map_Forall_singleton. reflexivity. }
  split; [split; [exact Hk|reflexivity]|].
  destruct (kline_frame_applied Samples2.parseDigit Samples.holdEngine
              (fun _ => Samples.sendEnv) Samples2.klineFrame _
              Samples2.world2 "s1" Samples.runtime eq_refl eq_refl Hk
              eq_refl eq_refl)
    as (rt' & H1 & H2 & _).
  exists rt'. split; [exact H1 | exact H2].
Defined.

(** * A manual order on the panels *)

(** X29.  A manual order for a registered active strategy puts one line on
    top of the log list of the active strategy.  When the order is placed
    during the bar of a candle of the strategy's window, the times of the
    window strictly increasing, the chart gets one marker more for it, on
    that candle: a buy marker at the low for LONG, a sell marker at the
    high for SHORT. *)
Theorem manualOrder_marker (now : App.Clock) (env : App.SendEnv)
    (type : Direction) (w : App.World) (rt : StrategyRuntime.t)
    (before after : list Candle.t) (c : Candle.t) :
  App.latestStrategiesRef w !! App.activeStrategyId w = Some rt ->
  StrategyRuntime.candles rt = before ++ c :: after ->
  App.strictlyIncreasing (StrategyRuntime.candles rt) = true ->
  Candle.time c <= App.dateNow env ->
  match after with
  | next :: _ => App.dateNow env < Candle.time next
  | [] => True
  end ->
  let w' := App.handleManualOrder now env type w in
  let data := StrategyRuntime.candles rt in
  exists line m,
    Registry.activeStrategyLogs w' = line :: Registry.activeStrategyLogs w /\
    Chart.markers (Registry.activeStrategyLogs w') data
    = m :: Chart.markers (Registry.activeStrategyLogs w) data /\
    Chart.id m = App.randomId env /\
    Chart.x m = Candle.time c /\
    (type = LONG -> Chart.type m = "buy" /\ Chart.y m = Candle.low c) /\
    (type = SHORT -> Chart.type m = "sell" /\ Chart.y m = Candle.high c).
Proof.
  intros Hrt Hdata Hinc Hc Hnext w' data.
  destruct (handleManualOrder_line now env type w rt Hrt) as (Hl & _).
  destruct (handleManualOrder_world now env type w rt Hrt) as (_ & Ha).
  fold w' in Hl, Ha.
  set (line := AlertLog.mk _ _ _ _ _ _ _) in Hl.
  assert (Hlogs : Registry.activeStrategyLogs w'
                  = line :: Registry.activeStrategyLogs w).
  { unfold Registry.activeStrategyLogs. rewrite Hl, Ha.
    now rewrite filter_cons_True by reflexivity. }
  assert (Hfind : Chart.closestCandle data (AlertLog.timestamp line)
                  = Some c).
  { unfold data. rewrite Hdata. apply closestCandle_in_bar; try assumption.
    now rewrite <- Hdata. }
  rewrite Hlogs. unfold Chart.markers. cbn [omap list_omap].
  unfold Chart.marker at 1. rewrite Hfind. cbv zeta.
  eexists line, _. split; [reflexivity|]. split; [reflexivity|].
  cbn [Chart.id Chart.x Chart.y Chart.type line AlertLog.id
       AlertLog.payload].
  split; [reflexivity|]. split; [reflexivity|].
  split; intros ->; split; reflexivity.
Qed.

(** A manual LONG order during the last of the sample candles. *)
Lemma manualOrder_marker_witness :
  let env := App.mkSendEnv "k3x9q2m1p" 5 false in
  let w' := App.handleManualOrder Samples.clock env LONG Samples.world in
  (App.latestStrategiesRef Samples.world
   !! App.activeStrategyId Samples.world = Some Samples.runtime /\
   App.strictlyIncreasing (StrategyRuntime.candles Samples.runtime) = true) /\
  exists m,
    Chart.markers (Registry.activeStrategyLogs w') Samples.closes1to5 = [m]
    /\ Chart.type m = "buy".
Proof.
  intros env w'. split; [split; reflexivity|].
  destruct (manualOrder_marker Samples.clock env LONG Samples.world
              Samples.runtime
              [Candle.ofClose 1 1%float; Candle.ofClose 2 2%float;
               Candle.ofClose 3 3%float; Candle.ofClose 4 4%float]
              [] (Candle.ofClose 5 5%float) eq_refl eq_refl eq_refl)
    as (line & m & _ & Hm & _ & _ & Hbuy & _); [simpl; lia|exact I|].
  exists m. split; [exact Hm|]. now apply Hbuy.
Defined.

(** * The runtime the component renders *)

Lemma listedValues_spec (m : gmap string StrategyRuntime.t)
    (rt : StrategyRuntime.t) :
  rt ∈ (map_to_list m).*2 <-> exists k, m !! k = Some rt.
Proof.
  rewrite list_elem_of_fmap. split.
  - intros ([k x] & -> & Hin). apply elem_of_map_to_list in Hin. now exists k.
  - intros [k Hk]. exists (k, rt). split; [reflexivity|].
    now apply elem_of_map_to_list.
Qed.

(** X30.  [Object.values] listing the values of an object: the component
    has a runtime to render exactly when the [strategies] state is not
    empty.  It is the runtime of the active id when that id is registered,
    and a registered runtime in any case.  After the removal of the last
    strategy there is none. *)
Theorem activeStrategy_shown
    (objectValues : gmap string StrategyRuntime.t -> list StrategyRuntime.t)
    (w : App.World) :
  (forall (m : gmap string StrategyRuntime.t) (rt : StrategyRuntime.t),
     rt ∈ objectValues m <-> exists k, m !! k = Some rt) ->
  (Registry.activeStrategy objectValues w = None <-> App.strategies w = ∅) /\
  (forall rt,
     App.strategies w !! App.activeStrategyId w = Some rt ->
     Registry.activeStrategy objectValues w = Some rt) /\
  (forall rt,
     Registry.activeStrategy objectValues w = Some rt ->
     exists k, App.strategies w !! k = Some rt) /\
  (forall objectKeys id,
     delete id (App.latestStrategiesRef w) = ∅ ->
     Registry.activeStrategy objectValues
       (Registry.removeStrategy objectKeys id w) = None).
Proof.
  intros Hvalues.
  assert (Hnone : forall w0,
            App.strategies w0 = ∅ ->
            Registry.activeStrategy objectValues w0 = None).
  { intros w0 He. unfold Registry.activeStrategy.
    rewrite He, lookup_empty.
    destruct (objectValues ∅) as [|rt rest] eqn:E; [reflexivity|].
    assert (Hin : rt ∈ objectValues ∅)
      by (rewrite E; apply list_elem_of_here).
    apply Hvalues in Hin as [k Hk]. rewrite lookup_empty in Hk.
    discriminate Hk. }
  split; [split|split; [|split]].
  - unfold Registry.activeStrategy. intros H. apply map_empty. intros k.
    destruct (App.strategies w !! k) as [rt|] eqn:Hk; [|reflexivity].
    exfalso.
    destruct (App.strategies w !! App.activeStrategyId w); [discriminate H|].
    assert (Hin : rt ∈ objectValues (App.strategies w))
      by (apply Hvalues; eauto).
    destruct (objectValues (App.strategies w)); [inversion Hin|].
    discriminate H.
  - apply Hnone.
  - intros rt Hrt. unfold Registry.activeStrategy. now rewrite Hrt.
  - intros rt. unfold Registry.activeStrategy.
    destruct (App.strategies w !! App.activeStrategyId w) as [r|] eqn:Hr.
    + intros H. apply (inj Some) in H. subst r. eauto.
    + intros H. apply Hvalues. now apply list_elem_of_lookup_2 in H.
  - intros objectKeys id He. apply Hnone.
    unfold Registry.removeStrategy. cbn [App.strategies]. exact He.
Qed.

(** The only strategy of the first sample registry is removed. *)
Lemma activeStrategy_shown_witness :
  let objectValues :=
    fun m : gmap string StrategyRuntime.t => (map_to_list m).*2 in
  Registry.activeStrategy objectValues Samples.world = Some Samples.runtime /\
  Registry.activeStrategy objectValues
    (Registry.removeStrategy Registry.listedKeys "s1" Samples.world) = None.
Proof.
  intros objectValues.
  destruct (activeStrategy_shown objectValues Samples.world
              listedValues_spec) as (_ & H1 & _ & H2).
  split; [now apply H1|]. apply H2. reflexivity.
Defined.
